(** * Network-Latency-Analyzer: measurement and aggregation engine

    A shallow embedding of the statistics, scoring, probing and comparison
    code of the browser front end (classes [NetworkAnalyzer] and
    [EnhancedNetworkAnalyzer]) and of the [calculateJitter] helper of the
    backend server, with the properties the specification states about
    them.

    Numbers.  JavaScript numbers are modelled as exact rationals ([Q]);
    every result is stated up to [Qeq] ([==]).  The values [NaN] and
    [undefined] that the code can produce (an index out of range, an empty
    input) are modelled as [None].  The quality score rounds to an
    integer, so there the last bits of a double matter: module [Double]
    evaluates the scorer in IEEE 754 binary64, operation by operation as
    the code does, and module [Quality] is its reading in exact
    arithmetic, used for the order properties of the score. *)

From stdpp Require Import gmap strings list.
From Stdlib Require Import QArith Qround Qabs Qminmax Lqa Lia ZArith.
From Stdlib Require Import Sorting.Sorted Sorting.Permutation.
From Stdlib Require Floats Uint63.

Local Open Scope Q_scope.

(** ** JavaScript primitives *)

Module JS.

(** [Math.round]: the nearest integer, ties towards +infinity. *)
Definition Math_round (x : Q) : Z := Qfloor (x + (1 # 2)).

Definition Math_floor (x : Q) : Z := Qfloor x.
Definition Math_ceil (x : Q) : Z := Qceiling x.

Definition Math_min2 (a b : Q) : Q := if Qle_bool a b then a else b.
Definition Math_max2 (a b : Q) : Q := if Qle_bool a b then b else a.

(** [Math.min(...xs)] and [Math.max(...xs)]; [None] stands for the
    infinities returned on an empty argument list. *)
Definition Math_min (xs : list Q) : option Q :=
  match xs with
  | [] => None
  | x :: tl => Some (fold_left Math_min2 tl x)
  end.

Definition Math_max (xs : list Q) : option Q :=
  match xs with
  | [] => None
  | x :: tl => Some (fold_left Math_max2 tl x)
  end.

(** [arr[i]] for an integer index: [None] is [undefined]. *)
Definition index {A} (arr : list A) (i : Z) : option A :=
  if (i <? 0)%Z then None else nth_error arr (Z.to_nat i).

(** [arr.reduce((a, b) => a + b, 0)] *)
Definition sum (xs : list Q) : Q := fold_left Qplus xs 0.

(** [Array.prototype.sort(cmp)]: a stable sort; [x] is placed before
    [y] when [cmp x y <= 0]. *)
Fixpoint sort_insert {A} (cmp : A -> A -> Q) (x : A) (l : list A) : list A :=
  match l with
  | [] => [x]
  | y :: tl =>
      if Qle_bool (cmp x y) 0 then x :: y :: tl
      else y :: sort_insert cmp x tl
  end.

Definition sort {A} (cmp : A -> A -> Q) (l : list A) : list A :=
  fold_right (sort_insert cmp) [] l.

Definition length_Q {A} (l : list A) : Q := inject_Z (Z.of_nat (length l)).

(** Equality of two results that may be [NaN]/[undefined], up to [Qeq]. *)
Definition same_number (o1 o2 : option Q) : Prop :=
  match o1, o2 with
  | Some a, Some b => a == b
  | None, None => True
  | _, _ => False
  end.

(** The result of a division of two counters, which in JavaScript is
    [NaN] for 0/0 and [Infinity] for n/0. *)
Inductive ratio := Num (q : Q) | PosInf | NaN.

Definition div_count (a b : nat) : ratio :=
  match b, a with
  | O, O => NaN
  | O, S _ => PosInf
  | S _, _ => Num (inject_Z (Z.of_nat a) / inject_Z (Z.of_nat b))
  end.

(** The completion of a call that may throw. *)
Inductive completion (A : Type) := Returned (v : A) | Thrown.
Arguments Returned {A} v.
Arguments Thrown {A}.

(** How a method that updates the analyzer ends: it ran to its end, or
    an exception cut it short; either way the updates made up to that
    point stay. *)
Inductive outcome (A : Type) := Completed (a : A) | Threw (a : A).
Arguments Completed {A} a.
Arguments Threw {A} a.

Definition after {A} (o : outcome A) : A :=
  match o with
  | Completed a => a
  | Threw a => a
  end.

(** The property names that every object inherits from
    [Object.prototype]. *)
Definition Object_prototype : list string :=
  ["constructor"; "__defineGetter__"; "__defineSetter__"; "hasOwnProperty";
   "__lookupGetter__"; "__lookupSetter__"; "isPrototypeOf";
   "propertyIsEnumerable"; "toString"; "valueOf"; "__proto__";
   "toLocaleString"].

(** [obj[key]] on an object written as a literal: its own property, else
    the one it inherits, else [undefined]. *)
Inductive property (A : Type) := Own (a : A) | Inherited | Undefined.
Arguments Own {A} a.
Arguments Inherited {A}.
Arguments Undefined {A}.

Definition get {A} (obj : gmap string A) (key : string) : property A :=
  match obj !! key with
  | Some a => Own a
  | None => if bool_decide (key ∈ Object_prototype) then Inherited else Undefined
  end.

End JS.

(** ** Statistics engine

    [getMedian], [getStdDev], [percentile] and [calculateJitter] are
    textually the same methods in [NetworkAnalyzer] and
    [EnhancedNetworkAnalyzer]. *)

Module Stats.
Import JS.

(** The comparator [(a, b) => a - b]. *)
Definition ascending (a b : Q) : Q := a - b.

(** The last two statements of [getMedian], on the sorted copy. *)
Definition middle (sorted : list Q) : option Q :=
  let mid := Z.of_nat (length sorted / 2) in
  if (length sorted mod 2 =? 0)%nat
  then match index sorted (mid - 1), index sorted mid with
       | Some a, Some b => Some ((a + b) / 2)
       | _, _ => None
       end
  else index sorted mid.

Definition getMedian (values : list Q) : option Q :=
  let sorted := sort ascending values in
  middle sorted.

(** The variance under the square root of [getStdDev]; [None] is the
    [NaN] of 0/0 on an empty list. *)
Definition variance (values : list Q) : option Q :=
  if (length values =? 0)%nat then None
  else
    let avg := sum values / length_Q values in
    Some (fold_left (fun acc val => acc + (val - avg) ^ 2) values 0
          / length_Q values).

Definition getStdDev (sqrt : Q -> Q) (values : list Q) : option Q :=
  option_map sqrt (variance values).

(** The last four statements of [percentile], on the sorted copy. *)
Definition interpolate (sorted : list Q) (p : Q) : option Q :=
  let idx := (length_Q sorted - 1) * p in
  let lo := Math_floor idx in
  let hi := Math_ceil idx in
  if (lo =? hi)%Z then index sorted lo
  else match index sorted lo, index sorted hi with
       | Some a, Some b => Some (a + (b - a) * (idx - inject_Z lo))
       | _, _ => None
       end.

Definition percentile (values : list Q) (p : Q) : option Q :=
  if (length values =? 0)%nat then None
  else
    let sorted := sort ascending values in
    interpolate sorted p.

(** The loop [for (i = 1; i < values.length; i++) differences.push(...)]. *)
Definition differences (values : list Q) : list Q :=
  fold_left
    (fun diffs i =>
       diffs ++ [Qabs (nth i values 0 - nth (i - 1) values 0)])
    (seq 1 (length values - 1)) [].

Definition calculateJitter (values : list Q) : Q :=
  if (length values <? 2)%nat then 0
  else sum (differences values) / length_Q (differences values).

End Stats.

(** The backend's [calculateJitter(times)] (server.js) first drops the
    [null] entries. *)

Module Server.
Import JS.

Definition calculateJitter (times : list (option Q)) : Q :=
  if (length times <? 2)%nat then 0
  else
    let validTimes := omap id times in
    if (length validTimes <? 2)%nat then 0
    else sum (Stats.differences validTimes)
         / length_Q (Stats.differences validTimes).

End Server.

(** ** Backend: HTTP ping and monitoring sessions (server.js) *)

Module Backend.
Import JS.

(** The numeric fields of the object [performHttpPing] returns
    ([host], [timestamp] and [method] are left out); [None] is [null],
    or [NaN] for [packetLoss]. *)
Record PingResult := {
  alive : bool;
  times : list (option Q);
  successCount : nat;
  totalCount : Q;
  packetLoss : option Q;
  min : option Q;
  max : option Q;
  avg : option Q;
  jitter : Q
}.

(** One iteration of the loop: [fetches i] is the latency of the [i]-th
    request in whole milliseconds ([Date.now() - startTime]), or [None]
    when it fails or is aborted after 2s. *)
Definition pingStep (fetches : nat -> option Z)
    (acc : list (option Q) * nat) (i : nat) : list (option Q) * nat :=
  match fetches i with
  | Some latency => (fst acc ++ [Some (inject_Z latency)], S (snd acc))
  | None => (fst acc ++ [None], snd acc)
  end.

(** The number of rounds of [for (let i = 0; i < count; i++)]: [count]
    is the number the request body carries, whole or not. *)
Definition rounds (count : Q) : nat := Z.to_nat (Qceiling count).

Definition performHttpPing (fetches : nat -> option Z) (count : Q) : PingResult :=
  let '(times, successCount) :=
    fold_left (pingStep fetches) (seq 0 (rounds count)) ([], 0%nat) in
  let validTimes := omap id times in
  {| alive := (0 <? successCount)%nat;
     times := times;
     successCount := successCount;
     totalCount := count;
     packetLoss :=
       if Qeq_bool count 0 then None
       else Some ((count - inject_Z (Z.of_nat successCount)) / count * 100);
     min := if (0 <? length validTimes)%nat then Math_min validTimes else None;
     max := if (0 <? length validTimes)%nat then Math_max validTimes else None;
     avg := if (0 <? length validTimes)%nat
            then Some (sum validTimes / length_Q validTimes) else None;
     jitter := Server.calculateJitter (Some <$> validTimes) |}.

(** One element of the [results] that ['/api/batch-test'] answers with:
    the server, [success], and the fields of its ping spread into it. *)
Record BatchResult := {
  server : string;
  success : bool;
  ping : PingResult
}.

(** The handler of ['/api/batch-test'] for a non-empty array of host
    names: every server is pinged with [performHttpPing], which does not
    throw on a host name, so every result has [success] set. *)
Definition batchTest (fetches : string -> nat -> option Z)
    (servers : list string) (testsPerServer : Q) : list BatchResult :=
  map (fun server =>
         {| server := server; success := true;
            ping := performHttpPing (fetches server) testsPerServer |})
      servers.

(** An entry of [monitoringSessions]; [ws] names the connection and
    [interval] the timer [setInterval] returned. *)
Record Session := {
  ws : nat;
  interval : nat;
  host : string;
  startTime : Z
}.

(** The messages the session functions send. *)
Inductive Sent :=
| ErrorSent (error : string)
| MonitoringStarted (sessionId host : string) (interval : Q)
| MonitoringStopped (sessionId : string) (duration : Z).

(** The registry, the timers that are set and not cleared, the next
    timer handle, and what was sent to which connection. *)
Record Server := {
  monitoringSessions : gmap string Session;
  timers : gset nat;
  nextTimer : nat;
  outbox : list (nat * Sent)
}.

Definition empty : Server :=
  {| monitoringSessions := ∅; timers := ∅; nextTimer := 0; outbox := [] |}.

(** The fields of a ['start-monitoring'] message; a missing field is
    [None]. *)
Record StartData := {
  data_host : option string;
  data_interval : option Q;
  data_sessionId : option string
}.

(** [!x] is true for a missing and for an empty string. *)
Definition truthy (x : option string) : option string :=
  match x with
  | Some EmptyString => None
  | _ => x
  end.

Definition send (w : nat) (m : Sent) (srv : Server) : Server :=
  {| monitoringSessions := monitoringSessions srv; timers := timers srv;
     nextTimer := nextTimer srv; outbox := outbox srv ++ [(w, m)] |}.

(** [stopMonitoring(ws, sessionId)] at time [now]. *)
Definition stopMonitoring (now : Z) (w : nat) (sessionId : string) (srv : Server)
    : Server :=
  match monitoringSessions srv !! sessionId with
  | Some session =>
      send w (MonitoringStopped sessionId (now - startTime session))
        {| monitoringSessions := delete sessionId (monitoringSessions srv);
           timers := timers srv ∖ {[ interval session ]};
           nextTimer := nextTimer srv; outbox := outbox srv |}
  | None => srv
  end.

(** [startMonitoring(ws, data)] at time [now]. *)
Definition startMonitoring (now : Z) (w : nat) (data : StartData) (srv : Server)
    : Server :=
  match truthy (data_host data), truthy (data_sessionId data) with
  | Some host, Some sessionId =>
      let srv :=
        if decide (is_Some (monitoringSessions srv !! sessionId))
        then stopMonitoring now w sessionId srv else srv in
      let monitorInterval := nextTimer srv in
      send w (MonitoringStarted sessionId host (default 1000 (data_interval data)))
        {| monitoringSessions :=
             <[sessionId := {| ws := w; interval := monitorInterval;
                               host := host; startTime := now |}]>
               (monitoringSessions srv);
           timers := timers srv ∪ {[ monitorInterval ]};
           nextTimer := S monitorInterval; outbox := outbox srv |}
  | _, _ => send w (ErrorSent "Host and sessionId are required") srv
  end.

(** The ['close'] handler of a connection: every session of that
    connection is cleared and deleted. *)
Definition closed (w : nat) (srv : Server) : Server :=
  let gone := filter (fun kv => ws kv.2 = w) (monitoringSessions srv) in
  {| monitoringSessions := filter (fun kv => ws kv.2 <> w) (monitoringSessions srv);
     timers := timers srv ∖ list_to_set (interval <$> (map_to_list gone).*2);
     nextTimer := nextTimer srv; outbox := outbox srv |}.

(** What a connection can make the session code do. *)
Inductive Request :=
| Start (now : Z) (w : nat) (data : StartData)
| Stop (now : Z) (w : nat) (sessionId : string)
| Close (w : nat).

Definition serve (srv : Server) (r : Request) : Server :=
  match r with
  | Start now w data => startMonitoring now w data srv
  | Stop now w sessionId => stopMonitoring now w sessionId srv
  | Close w => closed w srv
  end.

(** Every timer that is set belongs to a registered session, every
    session's timer is set, no two sessions share a timer, and handles
    not yet handed out are not in use. *)
Definition consistent (srv : Server) : Prop :=
  (forall t, t ∈ timers srv <->
             exists id s, monitoringSessions srv !! id = Some s /\ interval s = t) /\
  (forall id1 id2 s1 s2,
     monitoringSessions srv !! id1 = Some s1 ->
     monitoringSessions srv !! id2 = Some s2 ->
     interval s1 = interval s2 -> id1 = id2) /\
  (forall t, t ∈ timers srv -> (t < nextTimer srv)%nat).

End Backend.

(** ** Quality scorer, in exact arithmetic

    [calculateQualityScore] and [getQualityGrade] (the same methods in
    both classes) read over the rationals; [Double] below has them on
    doubles. *)

Module Quality.
Import JS.

Record GradeInfo := { grade : string; color : string; label : string }.

(** The last two statements of [calculateQualityScore], on the three
    normalised inputs. *)
Definition score_of (Ln Jn Pn : Q) : Z :=
  let score := Math_round (100 * (1 - ((60 # 100) * Ln + (25 # 100) * Jn + (15 # 100) * Pn))) in
  Z.max 0 (Z.min score 100).

Definition Ln_of (avg : Q) : Q := Math_min2 (avg / 300) 1.
Definition Jn_of (jitter : Q) : Q := Math_min2 (jitter / 100) 1.
Definition Pn_of (loss : Q) : Q := Math_min2 (loss / 10) 1.

Definition score (avg jitter loss : Q) : Z :=
  score_of (Ln_of avg) (Jn_of jitter) (Pn_of loss).

(** [calculateQualityScore()] reads [testResults], [failCount] and
    [testCount] of the analyzer; [None] is a [NaN] score. *)
Definition calculateQualityScore
    (testResults : list (option Q)) (failCount testCount : nat) : option Z :=
  let validResults := omap id testResults in
  if (length validResults =? 0)%nat then Some 0%Z
  else
    let avg := sum validResults / length_Q validResults in
    let jitter := Stats.calculateJitter validResults in
    match div_count failCount testCount with
    | Num r => Some (score avg jitter (r * 100))
    | PosInf => Some (score_of (Ln_of avg) (Jn_of jitter) 1)
    | NaN => None
    end.

Definition getQualityGrade (score : Z) : GradeInfo :=
  if (score >=? 95)%Z then {| grade := "A+"; color := "#4ecdc4"; label := "Excellent" |}
  else if (score >=? 90)%Z then {| grade := "A"; color := "#4ecdc4"; label := "Very Good" |}
  else if (score >=? 75)%Z then {| grade := "B"; color := "#52c41a"; label := "Good" |}
  else if (score >=? 60)%Z then {| grade := "C"; color := "#ffd93d"; label := "Fair" |}
  else if (score >=? 40)%Z then {| grade := "D"; color := "#ff9800"; label := "Poor" |}
  else {| grade := "F"; color := "#ff6b6b"; label := "Very Poor" |}.


End Quality.

(** ** Quality scorer in binary64

    The same two methods on JavaScript numbers as they are: IEEE 754
    doubles, every operation rounded to nearest. *)

Module Double.
Import PrimFloat.
Local Open Scope float_scope.
#[local] Set Warnings "-inexact-float".

(** An integer as a number (exact below 2^53). *)
Definition of_Z (z : Z) : float :=
  if (z <? 0)%Z then - of_uint63 (Uint63.of_Z (- z))
  else of_uint63 (Uint63.of_Z z).

(** A counter or an array length as a number. *)
Definition of_nat (n : nat) : float := of_Z (Z.of_nat n).

Definition isNaN (x : float) : bool := negb (x =? x).

(** [Math.min(a, b)] and [Math.max(a, b)]: [NaN] when an argument is
    [NaN]; [-0] counts as smaller than [+0]. *)
Definition Math_min (a b : float) : float :=
  if isNaN a || isNaN b then nan
  else if a <? b then a
  else if b <? a then b
  else if 1 / a <? 0 then a else b.

Definition Math_max (a b : float) : float :=
  if isNaN a || isNaN b then nan
  else if a <? b then b
  else if b <? a then a
  else if 1 / a <? 0 then b else a.

(** [Math.round(x)]: the integer nearest to [x], the upper one of two
    that are equally near, that is floor(x + 1/2) computed exactly on
    the value [m * 2^e] of [x]; the sign of [x] is kept on a zero
    result, and an integer, an infinity or [NaN] is returned as it
    is. *)
Definition Math_round (x : float) : float :=
  match FloatOps.Prim2SF x with
  | SpecFloat.S754_finite s m e =>
      if (0 <=? e)%Z then x
      else
        let n := if s then Z.neg m else Z.pos m in
        let r := ((n + 2 ^ (- e - 1)) / 2 ^ (- e))%Z in
        if (r =? 0)%Z then (if s then -0 else 0) else of_Z r
  | _ => x
  end.

(** [arr.reduce((a, b) => a + b, 0)] *)
Definition sum (xs : list float) : float := fold_left add xs 0.

(** [calculateJitter(values)]; an index out of range reads [undefined],
    which is [NaN] in a subtraction. *)
Definition differences (values : list float) : list float :=
  fold_left
    (fun diffs i => diffs ++ [abs (nth i values nan - nth (i - 1) values nan)])
    (seq 1 (length values - 1)) [].

Definition calculateJitter (values : list float) : float :=
  if (length values <? 2)%nat then 0
  else sum (differences values) / of_nat (length (differences values)).

(** The last six statements of [calculateQualityScore], on the average,
    the jitter and the loss percentage. *)
Definition score (avg jitter loss : float) : float :=
  let Ln := Math_min (avg / 300) 1 in
  let Jn := Math_min (jitter / 100) 1 in
  let Pn := Math_min (loss / 10) 1 in
  let score := Math_round (100 * (1 - (0.60 * Ln + 0.25 * Jn + 0.15 * Pn))) in
  Math_max 0 (Math_min score 100).

(** [calculateQualityScore()] on the [testResults], [failCount] and
    [testCount] of the analyzer. *)
Definition calculateQualityScore
    (testResults : list (option float)) (failCount testCount : nat) : float :=
  let validResults := omap id testResults in
  if (length validResults =? 0)%nat then 0
  else
    let avg := sum validResults / of_nat (length validResults) in
    let jitter := calculateJitter validResults in
    let loss := of_nat failCount / of_nat testCount * 100 in
    score avg jitter loss.

(** [getQualityGrade(score)]; [score >= 95] is [95 <= score]. *)
Definition getQualityGrade (score : float) : Quality.GradeInfo :=
  if 95 <=? score
  then {| Quality.grade := "A+"; Quality.color := "#4ecdc4"; Quality.label := "Excellent" |}
  else if 90 <=? score
  then {| Quality.grade := "A"; Quality.color := "#4ecdc4"; Quality.label := "Very Good" |}
  else if 75 <=? score
  then {| Quality.grade := "B"; Quality.color := "#52c41a"; Quality.label := "Good" |}
  else if 60 <=? score
  then {| Quality.grade := "C"; Quality.color := "#ffd93d"; Quality.label := "Fair" |}
  else if 40 <=? score
  then {| Quality.grade := "D"; Quality.color := "#ff9800"; Quality.label := "Poor" |}
  else {| Quality.grade := "F"; Quality.color := "#ff6b6b"; Quality.label := "Very Poor" |}.





(** Runs used as examples.  In exact arithmetic the first has the score
    56.5, which rounds to 57; its double is just below 56.5. *)
Definition tie_run : list (option float) := [Some 3; Some 182].

(** 18 successes alternating 250ms and 350ms, and 2 failures: average
    300, jitter 100, loss 10%. *)
Definition worst_run : list (option float) :=
  [Some 250; Some 350; Some 250; Some 350; Some 250; Some 350;
   Some 250; Some 350; Some 250; None; Some 350; Some 250; Some 350;
   Some 250; Some 350; Some 250; Some 350; Some 250; Some 350; None].

End Double.

(** ** Analyzer state

    The fields of [NetworkAnalyzer] / [EnhancedNetworkAnalyzer] that the
    measurement and comparison code reads and writes.  DOM updates,
    notifications and persistence are left out, and of the drawing only
    what decides whether it throws is kept ([Histogram.draw]); the
    activity log and the comparison panel are kept as data. *)

Module State.
Import JS.

(** An entry of [serverLocations], by the texts the templates print for
    its [name] and [location] (the [flag] is left out). *)
Record ServerInfo := { name : string; location : string }.

(** One entry of a comparison.  [p95]/[p99] are only set by
    [NetworkAnalyzer.compareAllDNS], [packetLoss]/[method] only by the
    enhanced class; a field that is absent reads as [undefined]. *)
Record ComparisonResult := {
  server : string;
  info : ServerInfo;
  avg : Q;
  min : option Q;
  max : option Q;
  jitter : Q;
  successRate : Q;
  p95 : option Q;
  p99 : option Q;
  packetLoss : option Q;
  method : option string
}.

(** The property names that [currentSort] takes. *)
Inductive SortKey := by_avg | by_jitter | by_successRate | by_packetLoss | by_p95.

(** The messages passed to [addLog] by the modelled methods. *)
Inductive LogEntry :=
| LogTestOk (testNumber : nat) (latency : Q)
| LogTestFailed (testNumber : nat)
| LogHostUnreachable
| LogRealtimeOk (latency : Q)
| LogStartComparison
| LogTesting (serverName : string)
| LogNoComparisonResults
| LogComparisonComplete (bestName : string).

(** What [displayComparisonResults] renders: the ranked rows
    ([#index+1]) and the winner line, [results[0]]. *)
Record ComparisonPanel := {
  rows : list (nat * ComparisonResult);
  best : option ComparisonResult
}.

Record Analyzer := {
  testResults : list (option Q);
  testCount : nat;
  successCount : nat;
  failCount : nat;
  chartData : list (nat * Q);
  maxDataPoints : nat;
  timeout : Q;
  comparisonResults : option (list ComparisonResult);
  currentSort : SortKey;
  useBackend : bool;
  panel : option ComparisonPanel;
  logs : list LogEntry;
  (** ghost: the number of [fetch] calls issued so far *)
  requests : nat
}.

Definition addLog (e : LogEntry) (st : Analyzer) : Analyzer :=
  {| testResults := testResults st; testCount := testCount st;
     successCount := successCount st; failCount := failCount st;
     chartData := chartData st; maxDataPoints := maxDataPoints st;
     timeout := timeout st; comparisonResults := comparisonResults st;
     currentSort := currentSort st; useBackend := useBackend st;
     panel := panel st; logs := logs st ++ [e];
     requests := requests st |}.

Definition add_requests (n : nat) (st : Analyzer) : Analyzer :=
  {| testResults := testResults st; testCount := testCount st;
     successCount := successCount st; failCount := failCount st;
     chartData := chartData st; maxDataPoints := maxDataPoints st;
     timeout := timeout st; comparisonResults := comparisonResults st;
     currentSort := currentSort st; useBackend := useBackend st;
     panel := panel st; logs := logs st;
     requests := (requests st + n)%nat |}.

Definition set_currentSort (key : SortKey) (st : Analyzer) : Analyzer :=
  {| testResults := testResults st; testCount := testCount st;
     successCount := successCount st; failCount := failCount st;
     chartData := chartData st; maxDataPoints := maxDataPoints st;
     timeout := timeout st; comparisonResults := comparisonResults st;
     currentSort := key; useBackend := useBackend st;
     panel := panel st; logs := logs st;
     requests := requests st |}.

Definition set_comparisonResults (rs : list ComparisonResult) (st : Analyzer) : Analyzer :=
  {| testResults := testResults st; testCount := testCount st;
     successCount := successCount st; failCount := failCount st;
     chartData := chartData st; maxDataPoints := maxDataPoints st;
     timeout := timeout st; comparisonResults := Some rs;
     currentSort := currentSort st; useBackend := useBackend st;
     panel := panel st; logs := logs st;
     requests := requests st |}.

Definition set_panel (p : ComparisonPanel) (st : Analyzer) : Analyzer :=
  {| testResults := testResults st; testCount := testCount st;
     successCount := successCount st; failCount := failCount st;
     chartData := chartData st; maxDataPoints := maxDataPoints st;
     timeout := timeout st; comparisonResults := comparisonResults st;
     currentSort := currentSort st; useBackend := useBackend st;
     panel := Some p; logs := logs st;
     requests := requests st |}.

(** The four counters and buffers that a probe updates. *)
Definition set_samples (tr : list (option Q)) (tc sc fc : nat)
    (cd : list (nat * Q)) (st : Analyzer) : Analyzer :=
  {| testResults := tr; testCount := tc;
     successCount := sc; failCount := fc;
     chartData := cd; maxDataPoints := maxDataPoints st;
     timeout := timeout st; comparisonResults := comparisonResults st;
     currentSort := currentSort st; useBackend := useBackend st;
     panel := panel st; logs := logs st;
     requests := requests st |}.

(** [chartData.push(pt); if (chartData.length > maxDataPoints) chartData.shift()] *)
Definition push_chart (pt : nat * Q) (st : Analyzer) : list (nat * Q) :=
  let cd := chartData st ++ [pt] in
  if (maxDataPoints st <? length cd)%nat then tl cd else cd.

(** The state set up by a constructor ([maxDataPoints] is 30 in
    [NetworkAnalyzer], 50 in [EnhancedNetworkAnalyzer]). *)
Definition constructed (maxPoints : nat) (backend : bool) : Analyzer :=
  {| testResults := []; testCount := 0; successCount := 0; failCount := 0;
     chartData := []; maxDataPoints := maxPoints; timeout := 5000;
     comparisonResults := None; currentSort := by_avg;
     useBackend := backend; panel := None; logs := []; requests := 0 |}.

(** The resets of [startTest]. *)
Definition startTest_reset (st : Analyzer) : Analyzer :=
  set_samples [] 0 0 0 [] st.

(** [a[key]] on a comparison entry. *)
Definition field (key : SortKey) (r : ComparisonResult) : option Q :=
  match key with
  | by_avg => Some (avg r)
  | by_jitter => Some (jitter r)
  | by_successRate => Some (successRate r)
  | by_packetLoss => packetLoss r
  | by_p95 => p95 r
  end.

(** [x - y] on two property reads; a [NaN] comparator result is
    treated by [sort] as [+0]. *)
Definition minus_or_zero (x y : option Q) : Q :=
  match x, y with
  | Some a, Some b => a - b
  | _, _ => 0
  end.

(** The comparator of [displayComparisonResults] and [sortComparison]. *)
Definition compareBy (key : SortKey) (a b : ComparisonResult) : Q :=
  match key with
  | by_successRate => minus_or_zero (field key b) (field key a)
  | _ => minus_or_zero (field key a) (field key b)
  end.

Definition render (results : list ComparisonResult) : ComparisonPanel :=
  {| rows := imap (fun index result => (S index, result)) results;
     best := head results |}.

Definition has_field (key : SortKey) (r : ComparisonResult) : bool :=
  match field key r with
  | Some _ => true
  | None => false
  end.

(** [displayComparisonResults(results)]: [results] is sorted in place,
    and [this.comparisonResults] is that same array.  Each row then
    formats [result.<shown>.toFixed(1)], where [shown] is [p95] in
    [NetworkAnalyzer] and [packetLoss] in [EnhancedNetworkAnalyzer]; on
    an entry without that field this throws, before the panel is
    replaced and the completion is logged. *)
Definition displayComparisonResults (shown : SortKey)
    (results : list ComparisonResult) (st : Analyzer) : outcome Analyzer :=
  match results with
  | [] => Completed (addLog LogNoComparisonResults st)
  | _ :: _ =>
      let sorted := sort (compareBy (currentSort st)) results in
      let st := set_comparisonResults sorted st in
      if forallb (has_field shown) sorted then
        let st := set_panel (render sorted) st in
        match head sorted with
        | Some r => Completed (addLog (LogComparisonComplete (name (info r))) st)
        | None => Threw st
        end
      else Threw st
  end.

(** The ten probes of one server in a comparison: [net server i] is
    the latency of the [i]-th [fetch], or [None] when it rejects. *)
Definition probeServer (net : string -> nat -> option Q) (server : string)
    : list (option Q) :=
  map (net server) (seq 0 10).

(** What the templates print for the [name] and the [location] of a
    value inherited from [Object.prototype]: the name of the function
    ("Object" for [constructor]; the object behind [__proto__] has
    none), and "undefined" for a property the value lacks. *)
Definition inherited_info (key : string) : ServerInfo :=
  {| name := if String.eqb key "constructor" then "Object"
             else if String.eqb key "__proto__" then "undefined"
             else key;
     location := "undefined" |}.

(** [this.serverLocations[server]], as far as the loop uses it; [None]
    is [undefined]. *)
Definition serverInfo_of (serverLocations : gmap string ServerInfo)
    (server : string) : option ServerInfo :=
  match get serverLocations server with
  | Own serverInfo => Some serverInfo
  | Inherited => Some (inherited_info server)
  | Undefined => None
  end.

(** One iteration of the [for (const server of dnsServers)] loop,
    shared by the two comparison methods up to the entry they build.
    Reading [serverInfo.flag] when [serverInfo] is [undefined] throws,
    which ends the loop. *)
Definition compareStep
    (entry : string -> ServerInfo -> list (option Q) -> option ComparisonResult)
    (serverLocations : gmap string ServerInfo)
    (net : string -> nat -> option Q)
    (acc : outcome (Analyzer * list ComparisonResult)) (server : string)
    : outcome (Analyzer * list ComparisonResult) :=
  match acc with
  | Threw _ => acc
  | Completed (st, results) =>
      match serverInfo_of serverLocations server with
      | None => Threw (st, results)
      | Some serverInfo =>
          let st := addLog (LogTesting (name serverInfo)) st in
          let testResults := probeServer net server in
          let st := add_requests (length testResults) st in
          Completed (st, match entry server serverInfo testResults with
                         | Some r => results ++ [r]
                         | None => results
                         end)
      end
  end.

Definition compareLoop
    (entry : string -> ServerInfo -> list (option Q) -> option ComparisonResult)
    (serverLocations : gmap string ServerInfo)
    (net : string -> nat -> option Q)
    (dnsServers : list string) (st : Analyzer)
    : outcome (Analyzer * list ComparisonResult) :=
  foldl (compareStep entry serverLocations net) (Completed (st, [])) dnsServers.

End State.

(** ** Histogram of the latencies ([drawHistogram], same in both classes) *)

Module Histogram.
Import JS.

(** [Math.min(Math.floor((value - min) / binSize), binCount - 1)].
    With [binSize] = 0 the quotient is [NaN] (0/0) or an infinity, and
    so is the index unless [Math.min] caps it; [None] stands for an
    index that is not a number or is negative infinity. *)
Definition binIndex (min binSize : Q) (binCount : nat) (value : Q) : option Z :=
  if Qeq_bool binSize 0 then
    match (value - min) ?= 0 with
    | Gt => Some (Z.of_nat binCount - 1)%Z
    | _ => None
    end
  else Some (Z.min (Math_floor ((value - min) / binSize)) (Z.of_nat binCount - 1)).

(** [bins[binIndex]++]: only an index of the array is counted. *)
Definition increment (bins : list nat) (binIndex : option Z) : list nat :=
  match binIndex with
  | Some i => if (0 <=? i)%Z then alter S (Z.to_nat i) bins else bins
  | None => bins
  end.

(** The bins [drawHistogram] fills and draws; [None] when it returns
    before drawing (fewer than two successful samples). *)
Definition drawHistogram (testResults : list (option Q)) : option (list nat) :=
  let validResults := omap id testResults in
  if (length validResults <? 2)%nat then None
  else
    match Math_min validResults, Math_max validResults with
    | Some min, Some max =>
        let range := max - min in
        let binCount := Nat.min 10 (length validResults) in
        let binSize := range / inject_Z (Z.of_nat binCount) in
        let bins := repeat 0%nat binCount in
        Some (fold_left
                (fun bins value => increment bins (binIndex min binSize binCount value))
                validResults bins)
    | _, _ => None
    end.

(** [Math.max(...bins)] *)
Definition maxBinValue (bins : list nat) : nat := foldr Nat.max 0%nat bins.

(** [(count / maxBinValue) * (height - 30)]; [None] when the quotient is
    not finite ([0/0], or a division of a positive count by 0). *)
Definition barHeight (height : Q) (maxBinValue count : nat) : option Q :=
  if (maxBinValue =? 0)%nat then None
  else Some (inject_Z (Z.of_nat count) / inject_Z (Z.of_nat maxBinValue)
             * (height - 30)).

(** The height [initChart] gives the histogram canvas. *)
Definition height : Q := 200.

(** The drawing loop [bins.forEach(...)].  Each bar calls
    [ctx.createLinearGradient(0, y, 0, height - 20)] with
    [y = height - barHeight - 20]; the canvas throws a [TypeError] when
    an argument of [createLinearGradient] is not finite.  The other
    canvas calls ([fillRect], [fillText]) accept any number. *)
Definition draw (testResults : list (option Q)) : completion unit :=
  match drawHistogram testResults with
  | None => Returned tt
  | Some bins =>
      if forallb (fun count =>
                    match barHeight height (maxBinValue bins) count with
                    | Some _ => true
                    | None => false
                    end) bins
      then Returned tt else Thrown
  end.

End Histogram.

(** ** Prober and sampler *)

Module Probe.
Import JS State.

(** How the awaited [fetch] of [measureLatency] ends, with the value
    [performance.now()] returns right after. *)
Inductive FetchOutcome :=
| Resolved (endTime : Q)
| Rejected (endTime : Q).

(** [measureLatency()], the same method in both classes.  [startTime]
    is the first reading of [performance.now()]. *)
Definition measureLatency (st : Analyzer) (startTime : Q) (o : FetchOutcome)
    : completion Q :=
  match o with
  | Resolved endTime => Returned (endTime - startTime)
  | Rejected endTime =>
      let elapsed := endTime - startTime in
      if Qlt_le_dec elapsed (timeout st) then Returned elapsed
      else Thrown
  end.

(** The success branch of [performSingleTest], after [testCount++]: the
    sample is stored, then the page is updated ([updateMetrics],
    [calculateAdvancedMetrics], [drawChart], [drawHistogram],
    [updateQualityScore], ...), then the success is logged.  Of the
    display calls only [drawHistogram] can throw; they run inside the
    [try], so when it does the success is not logged and the [catch]
    branch runs next, on the sample already stored. *)
Definition record_success (testNumber : nat) (latency : Q) (st : Analyzer)
    : outcome Analyzer :=
  let st := set_samples (testResults st ++ [Some latency]) (testCount st)
              (S (successCount st)) (failCount st)
              (push_chart (testNumber, latency) st) st in
  match Histogram.draw (testResults st) with
  | Returned _ => Completed (addLog (LogTestOk testNumber latency) st)
  | Thrown => Threw st
  end.

(** The [catch] branch of [performSingleTest]. *)
Definition record_failure (testNumber : nat) (st : Analyzer) : Analyzer :=
  addLog (LogTestFailed testNumber)
    (set_samples (testResults st ++ [None]) (testCount st)
       (successCount st) (S (failCount st)) (chartData st) st).

Definition count_test (st : Analyzer) : Analyzer :=
  set_samples (testResults st) (S (testCount st)) (successCount st)
    (failCount st) (chartData st) st.

(** The body of [performSingleTest] once the probe has completed with
    [latency] (a number, [null], or an exception). *)
Definition record (latency : completion (option Q)) (st : Analyzer) : Analyzer :=
  let st := count_test st in
  let testNumber := testCount st in
  match latency with
  | Returned (Some l) =>
      match record_success testNumber l st with
      | Completed st => st
      | Threw st => record_failure testNumber st
      end
  | Returned None => st
  | Thrown => record_failure testNumber st
  end.

End Probe.

Module NetworkAnalyzer.
Import JS State Probe.

Definition serverLocations : gmap string ServerInfo :=
  list_to_map
    [ ("8.8.8.8", {| name := "Google DNS Primary"; location := "USA" |});
      ("8.8.4.4", {| name := "Google DNS Secondary"; location := "USA" |});
      ("1.1.1.1", {| name := "Cloudflare Primary"; location := "Global" |});
      ("1.0.0.1", {| name := "Cloudflare Secondary"; location := "Global" |});
      ("208.67.222.222", {| name := "OpenDNS Primary"; location := "USA" |});
      ("208.67.220.220", {| name := "OpenDNS Secondary"; location := "USA" |});
      ("9.9.9.9", {| name := "Quad9"; location := "Switzerland" |});
      ("94.140.14.14", {| name := "AdGuard DNS"; location := "Cyprus" |});
      ("google.com", {| name := "Google"; location := "USA" |});
      ("facebook.com", {| name := "Facebook"; location := "USA" |});
      ("youtube.com", {| name := "YouTube"; location := "USA" |});
      ("twitter.com", {| name := "Twitter/X"; location := "USA" |}) ].

Definition new : Analyzer := constructed 30 false.

(** One probe attempt: the start time and the way the request ends. *)
Definition Attempt : Type := Q * FetchOutcome.

Definition performSingleTest (a : Attempt) (st : Analyzer) : Analyzer :=
  let latency :=
    match measureLatency st (fst a) (snd a) with
    | Returned l => Returned (Some l)
    | Thrown => Thrown
    end in
  record latency (add_requests 1 st).

(** [runLimitedTest] with one attempt per iteration, never stopped. *)
Definition runLimitedTest (attempts : list Attempt) (st : Analyzer) : Analyzer :=
  foldl (fun st a => performSingleTest a st) st attempts.

Definition dnsServers : list string :=
  ["8.8.8.8"; "1.1.1.1"; "9.9.9.9"; "208.67.222.222"; "94.140.14.14"].

Definition entry (server : string) (serverInfo : ServerInfo)
    (testResults : list (option Q)) : option ComparisonResult :=
  let validResults := omap id testResults in
  if (0 <? length validResults)%nat then
    Some {| server := server; info := serverInfo;
            avg := sum validResults / length_Q validResults;
            min := Math_min validResults;
            max := Math_max validResults;
            jitter := Stats.calculateJitter validResults;
            successRate := length_Q validResults / length_Q testResults * 100;
            p95 := Stats.percentile validResults (95 # 100);
            p99 := Stats.percentile validResults (99 # 100);
            packetLoss := None; method := None |}
  else None.

(** The statistic shown on each row of the comparison panel. *)
Definition shown : SortKey := by_p95.

Definition compareAllDNS (net : string -> nat -> option Q) (st : Analyzer)
    : outcome Analyzer :=
  match compareLoop entry serverLocations net dnsServers
          (addLog LogStartComparison st) with
  | Completed (st, results) => displayComparisonResults shown results st
  | Threw (st, _) => Threw st
  end.

(** [sortComparison(key)] sorts the stored array, then displays it,
    which sorts it again by the same key. *)
Definition sortComparison (key : SortKey) (st : Analyzer) : outcome Analyzer :=
  match comparisonResults st with
  | None => Completed st
  | Some results =>
      let st := set_currentSort key st in
      let results := sort (compareBy key) results in
      displayComparisonResults shown results (set_comparisonResults results st)
  end.

(** The sort buttons the comparison panel offers. *)
Definition sortButtons : list SortKey := [by_avg; by_p95; by_jitter; by_successRate].

End NetworkAnalyzer.

Module EnhancedNetworkAnalyzer.
Import JS State Probe.

Definition serverLocations : gmap string ServerInfo :=
  list_to_map
    [ ("8.8.8.8", {| name := "Google DNS Primary"; location := "USA" |});
      ("8.8.4.4", {| name := "Google DNS Secondary"; location := "USA" |});
      ("1.1.1.1", {| name := "Cloudflare Primary"; location := "Global" |});
      ("1.0.0.1", {| name := "Cloudflare Secondary"; location := "Global" |});
      ("208.67.222.222", {| name := "OpenDNS Primary"; location := "USA" |});
      ("208.67.220.220", {| name := "OpenDNS Secondary"; location := "USA" |});
      ("9.9.9.9", {| name := "Quad9"; location := "Switzerland" |});
      ("94.140.14.14", {| name := "AdGuard DNS"; location := "Cyprus" |});
      ("76.76.19.19", {| name := "Alternate DNS"; location := "USA" |});
      ("185.228.168.9", {| name := "CleanBrowsing"; location := "USA" |});
      ("google.com", {| name := "Google"; location := "USA" |});
      ("facebook.com", {| name := "Facebook"; location := "USA" |});
      ("youtube.com", {| name := "YouTube"; location := "USA" |});
      ("twitter.com", {| name := "Twitter/X"; location := "USA" |}) ].

Definition new : Analyzer := constructed 50 true.

(** How the request of [backendPing] to [/api/ping] ends: a JSON reply
    with [alive] and a numeric [time] (the answer of the ICMP branch of
    the endpoint), or a rejection / non-2xx status.  The answer of the
    endpoint's HTTP fallback, which has no [time], is not covered. *)
Inductive BackendOutcome :=
| Reply (alive : bool) (time : Q)
| Failed.

(** One probe attempt: the backend's answer, and the browser request
    that is issued when the backend is off or has failed. *)
Record Attempt := {
  backend : BackendOutcome;
  startTime : Q;
  browser : FetchOutcome
}.

Definition browserLatency (a : Attempt) (st : Analyzer) : completion (option Q) :=
  match measureLatency st (startTime a) (browser a) with
  | Returned l => Returned (Some l)
  | Thrown => Thrown
  end.

(** [backendPing()]: [data.alive ? data.time : null], and on any error
    the browser measurement. *)
Definition backendPing (a : Attempt) (st : Analyzer) : completion (option Q) :=
  match backend a with
  | Reply true time => Returned (Some time)
  | Reply false _ => Returned None
  | Failed => browserLatency a st
  end.

Definition requests_of (a : Attempt) (st : Analyzer) : nat :=
  if useBackend st
  then match backend a with Failed => 2 | _ => 1 end
  else 1.

Definition performSingleTest (a : Attempt) (st : Analyzer) : Analyzer :=
  let latency :=
    if useBackend st then backendPing a st else browserLatency a st in
  record latency (add_requests (requests_of a st) st).

Definition runLimitedTest (attempts : list Attempt) (st : Analyzer) : Analyzer :=
  foldl (fun st a => performSingleTest a st) st attempts.

(** [handleMonitoringUpdate(data)], for a pushed real-time sample.  An
    exception of [drawHistogram] leaves the handler before the sample is
    logged; the message dispatcher catches it. *)
Definition handleMonitoringUpdate (alive : bool) (time : Q) (st : Analyzer) : Analyzer :=
  if alive then
    let st' := set_samples (testResults st ++ [Some time]) (S (testCount st))
                 (S (successCount st)) (failCount st)
                 (push_chart (testCount st, time) st) st in
    match Histogram.draw (testResults st') with
    | Returned _ => addLog (LogRealtimeOk time) st'
    | Thrown => st'
    end
  else
    addLog LogHostUnreachable
      (set_samples (testResults st ++ [None]) (testCount st)
         (successCount st) (S (failCount st)) (chartData st) st).

(** [handlePingResult(data)], for a ping result pushed by the backend. *)
Definition handlePingResult (alive : bool) (time : Q) (st : Analyzer) : Analyzer :=
  if alive then
    set_samples (testResults st ++ [Some time]) (testCount st)
      (S (successCount st)) (failCount st) (chartData st) st
  else
    addLog LogHostUnreachable
      (set_samples (testResults st ++ [None]) (testCount st)
         (successCount st) (S (failCount st)) (chartData st) st).

Definition entry (server : string) (serverInfo : ServerInfo)
    (testResults : list (option Q)) : option ComparisonResult :=
  let validResults := omap id testResults in
  if (0 <? length validResults)%nat then
    Some {| server := server; info := serverInfo;
            avg := sum validResults / length_Q validResults;
            min := Math_min validResults;
            max := Math_max validResults;
            jitter := Stats.calculateJitter validResults;
            successRate := length_Q validResults / length_Q testResults * 100;
            p95 := None; p99 := None;
            packetLoss :=
              Some ((length_Q testResults - length_Q validResults)
                    / length_Q testResults * 100);
            method := Some "browser" |}
  else None.

(** The statistic shown on each row of the comparison panel. *)
Definition shown : SortKey := by_packetLoss.

(** The entries [processBackendBatchResults] builds from the answer of
    the backend's batch test; [None] is [null] in [backend_avg],
    [backend_min], [backend_max] and [backend_packetLoss] (a [NaN] loss
    travels as [null]), and [NaN] in [backend_successRate]. *)
Record BackendEntry := {
  backend_server : string;
  backend_info : ServerInfo;
  backend_avg : option Q;
  backend_min : option Q;
  backend_max : option Q;
  backend_jitter : Q;
  backend_successRate : option Q;
  backend_packetLoss : option Q;
  backend_method : string
}.

(** [processBackendBatchResults(results)], up to the call of
    [displayComparisonResults] on the entries: a result is dropped only
    when its [success] is not set. *)
Definition processBackendBatchResults (results : list Backend.BatchResult)
    : list BackendEntry :=
  omap (fun result =>
          if Backend.success result then
            let ping := Backend.ping result in
            Some {| backend_server := Backend.server result;
                    backend_info :=
                      default {| name := Backend.server result;
                                 location := "Unknown" |}
                        (serverInfo_of serverLocations (Backend.server result));
                    backend_avg := Backend.avg ping;
                    backend_min := Backend.min ping;
                    backend_max := Backend.max ping;
                    backend_jitter := Backend.jitter ping;
                    backend_successRate :=
                      if Qeq_bool (Backend.totalCount ping) 0 then None
                      else Some (inject_Z (Z.of_nat (Backend.successCount ping))
                                 / Backend.totalCount ping * 100);
                    backend_packetLoss := Backend.packetLoss ping;
                    backend_method := "backend" |}
          else None)
       results.

Definition fallbackDNSComparison (net : string -> nat -> option Q)
    (dnsServers : list string) (st : Analyzer) : outcome Analyzer :=
  match compareLoop entry serverLocations net dnsServers st with
  | Completed (st, results) => displayComparisonResults shown results st
  | Threw (st, _) => Threw st
  end.

(** [sortComparison(key)] only sets the key and displays again. *)
Definition sortComparison (key : SortKey) (st : Analyzer) : outcome Analyzer :=
  match comparisonResults st with
  | None => Completed st
  | Some results =>
      displayComparisonResults shown results (set_currentSort key st)
  end.

Definition sortButtons : list SortKey :=
  [by_avg; by_jitter; by_successRate; by_packetLoss].

End EnhancedNetworkAnalyzer.

(** ** The statistics functions on arrays in memory

    [getMedian], [getStdDev] and [percentile] receive a reference to an
    array.  Here arrays live in a heap, [[...values]] and
    [values.slice()] allocate a copy, and [sort] overwrites the array it
    is called on. *)

Module Mem.
Import JS.

Definition loc := nat.
Definition heap := gmap loc (list Q).

(** A computation on the heap; [None] when a reference dangles. *)
Definition M (A : Type) : Type := heap -> option (A * heap).

Definition ret {A} (a : A) : M A := fun h => Some (a, h).

Definition bind {A B} (m : M A) (k : A -> M B) : M B :=
  fun h => match m h with
           | Some (a, h') => k a h'
           | None => None
           end.

#[local] Instance M_ret : MRet M := @ret.
#[local] Instance M_bind : MBind M := fun A B k m => bind m k.

(** Reading the elements of an array ([length], indexing, [reduce]). *)
Definition read (a : loc) : M (list Q) :=
  fun h => match h !! a with
           | Some vs => Some (vs, h)
           | None => None
           end.

(** [[...a]] and [a.slice()]: a new array with the same elements. *)
Definition copy (a : loc) : M loc :=
  fun h => match h !! a with
           | Some vs => let c := fresh (dom h) in Some (c, <[c := vs]> h)
           | None => None
           end.

(** [a.sort(cmp)]: sorts [a] in place and returns [a]. *)
Definition sort_in_place (cmp : Q -> Q -> Q) (a : loc) : M loc :=
  fun h => match h !! a with
           | Some vs => Some (a, <[a := sort cmp vs]> h)
           | None => None
           end.

Definition getMedian (values : loc) : M (option Q) :=
  c ← copy values;
  sorted ← sort_in_place Stats.ascending c;
  s ← read sorted;
  mret (Stats.middle s).

Definition getStdDev (sqrt : Q -> Q) (values : loc) : M (option Q) :=
  vs ← read values;
  mret (option_map sqrt (Stats.variance vs)).

Definition percentile (values : loc) (p : Q) : M (option Q) :=
  vs ← read values;
  if (length vs =? 0)%nat then mret None
  else
    c ← copy values;
    sorted ← sort_in_place Stats.ascending c;
    s ← read sorted;
    mret (Stats.interpolate s p).

End Mem.

(** ** The statistics as the specification words them *)

Module Spec.
Import JS.

(** Sum of a list of numbers. *)
Definition total (xs : list Q) : Q := fold_right Qplus 0 xs.

(** The absolute differences of consecutive samples, in the order the
    samples are given. *)
Fixpoint successive (S : list Q) : list Q :=
  match S with
  | a :: (b :: _) as tl => Qabs (b - a) :: successive tl
  | _ => []
  end.

(** jitter(S): the mean of |S[i] - S[i-1]|, i = 1..|S|-1; 0 when |S| < 2. *)
Definition jitter (S : list Q) : Q :=
  match S with
  | [] | [_] => 0
  | _ => total (successive S) / inject_Z (Z.of_nat (length S - 1))
  end.

(** Ascending order. *)
Definition ascending (l : list Q) : Prop := StronglySorted Qle l.

(** percentile: linear interpolation at the fractional index
    (|S|-1) * p of an ascending arrangement [sorted] of the samples. *)
Definition interpolation (sorted : list Q) (p : Q) : Q :=
  let idx := inject_Z (Z.of_nat (length sorted - 1)) * p in
  let lo := nth (Z.to_nat (Qfloor idx)) sorted 0 in
  let hi := nth (Z.to_nat (Qceiling idx)) sorted 0 in
  lo + (hi - lo) * (idx - inject_Z (Qfloor idx)).

(** median: the single middle element, or the average of the two
    middle elements, of an ascending arrangement of the samples. *)
Definition median (sorted : list Q) : Q :=
  let n := length sorted in
  if Nat.even n
  then (nth (n / 2 - 1) sorted 0 + nth (n / 2) sorted 0) / 2
  else nth (n / 2) sorted 0.

(** A lower / upper bound of all the samples that is one of them. *)
Definition is_min (m : Q) (S : list Q) : Prop := In m S /\ Forall (Qle m) S.
Definition is_max (m : Q) (S : list Q) : Prop := In m S /\ Forall (fun x => x <= m) S.

(** The targets of a comparison that had no successful probe. *)
Definition all_failed (net : string -> nat -> option Q) (server : string) : bool :=
  forallb (fun i => match net server i with None => true | Some _ => false end)
          (seq 0 10).

Definition excluded (net : string -> nat -> option Q) (targets : list string) : nat :=
  length (filter (fun t => all_failed net t = true) targets).

(** The targets that had at least one successful probe, in the order
    they were given. *)
Definition survivors (net : string -> nat -> option Q) (targets : list string)
    : list string :=
  filter (fun t => all_failed net t = false) targets.

(** [l] is ordered by the numeric key [f], smallest first / largest first. *)
Definition ascending_by {A} (f : A -> Q) (l : list A) : Prop :=
  StronglySorted (fun a b => f a <= f b) l.
(** The entry has a number under the sort key. *)
Definition defines (key : State.SortKey) (r : State.ComparisonResult) : Prop :=
  is_Some (State.field key r).

Definition key_value (key : State.SortKey) (r : State.ComparisonResult) : Q :=
  default 0 (State.field key r).

(** At least two samples, all of them equal. *)
Definition flat (S : list Q) : Prop :=
  (2 <= length S)%nat /\ forall x y, In x S -> In y S -> x == y.

(** Every array of [h] is still there, unchanged, in [h']. *)
Definition preserved (h h' : Mem.heap) : Prop :=
  forall (l : Mem.loc) (xs : list Q), h !! l = Some xs -> h' !! l = Some xs.

(** Both counters together count the recorded samples. *)
Definition counters_match (st : State.Analyzer) : Prop :=
  (State.successCount st + State.failCount st)%nat = length (State.testResults st).

(** What an entry builder must satisfy: an entry exactly for the targets
    with a successful probe, carrying the target's name and the
    statistic shown on its row. *)
Definition builds_survivors (shown : State.SortKey)
    (entry : string -> State.ServerInfo -> list (option Q)
             -> option State.ComparisonResult) : Prop :=
  forall net server serverInfo,
    match entry server serverInfo (State.probeServer net server) with
    | Some r => all_failed net server = false /\ State.server r = server /\
                defines shown r
    | None => all_failed net server = true
    end.

(** The entry carries the statistic that the sort key names. *)
Definition measured (key : State.SortKey) (r : State.ComparisonResult) : Prop :=
  match key with
  | State.by_packetLoss => is_Some (State.packetLoss r)
  | State.by_p95 => is_Some (State.p95 r)
  | _ => True
  end.

(** [a] is ranked no later than [b] under the sort key: its average,
    jitter, packet loss or 95th percentile is not higher, or its success
    rate is not lower. *)
Definition no_later (key : State.SortKey) (a b : State.ComparisonResult) : Prop :=
  match key with
  | State.by_avg => State.avg a <= State.avg b
  | State.by_jitter => State.jitter a <= State.jitter b
  | State.by_successRate => State.successRate b <= State.successRate a
  | State.by_packetLoss =>
      exists x y, State.packetLoss a = Some x /\ State.packetLoss b = Some y /\ x <= y
  | State.by_p95 =>
      exists x y, State.p95 a = Some x /\ State.p95 b = Some y /\ x <= y
  end.

(** Ascending for the latency-like keys (lower is better), descending
    for the success rate (higher is better): every entry is ranked no
    later than the entries after it. *)
Definition ranked (key : State.SortKey) (l : list State.ComparisonResult) : Prop :=
  StronglySorted (no_later key) l.

End Spec.

(** ** Runs and comparisons used as examples *)

Module Scenario.
Import JS State Probe.

(** A run with 18 successes alternating 250ms / 350ms and 2 failures:
    avg = 300, jitter = 100, loss = 10%. *)
Definition worst_run : list (option Q) :=
  [Some 250; Some 350; Some 250; Some 350; Some 250; Some 350;
   Some 250; Some 350; Some 250; None; Some 350; Some 250; Some 350;
   Some 250; Some 350; Some 250; Some 350; Some 250; Some 350; None].

Definition two_targets : list string := ["8.8.8.8"; "1.1.1.1"].

(** A network on which 8.8.8.8 always answers in 20ms and every other
    target never answers. *)
Definition one_up (server : string) (i : nat) : option Q :=
  if String.eqb server "8.8.8.8" then Some 20 else None.

Definition google : ComparisonResult :=
  {| server := "8.8.8.8";
     info := {| name := "Google DNS Primary"; location := "USA" |};
     avg := 20; min := Some 18; max := Some 25; jitter := 3;
     successRate := 90; p95 := None; p99 := None;
     packetLoss := Some 10; method := Some "browser" |}.

Definition cloudflare : ComparisonResult :=
  {| server := "1.1.1.1";
     info := {| name := "Cloudflare Primary"; location := "Global" |};
     avg := 15; min := Some 9; max := Some 40; jitter := 7;
     successRate := 100; p95 := None; p99 := None;
     packetLoss := Some 0; method := Some "browser" |}.

(** An enhanced analyzer that holds a finished comparison. *)
Definition compared : Analyzer :=
  set_comparisonResults [cloudflare; google] EnhancedNetworkAnalyzer.new.

(** A probe through the backend, which answers that the host is not
    alive. *)
Definition unreachable_reply : EnhancedNetworkAnalyzer.Attempt :=
  {| EnhancedNetworkAnalyzer.backend := EnhancedNetworkAnalyzer.Reply false 0;
     EnhancedNetworkAnalyzer.startTime := 0;
     EnhancedNetworkAnalyzer.browser := Resolved 20 |}.

(** A heap with one array of latencies. *)
Definition one_array : Mem.heap := {[ 7%nat := [30; 10; 20] ]}.

End Scenario.

(** ** Linear interpolation at a fractional index *)

Module Piecewise.

(** The value [percentile] reads off an ascending list at the fractional
    index [idx]. *)
Definition at_index (sorted : list Q) (idx : Q) : Q :=
  let lo := nth (Z.to_nat (Qfloor idx)) sorted 0 in
  let hi := nth (Z.to_nat (Qceiling idx)) sorted 0 in
  lo + (hi - lo) * (idx - inject_Z (Qfloor idx)).

End Piecewise.

(** ** Age of a history entry ([getTimeAgo], same in both classes) *)

Module TimeAgo.

(** The four texts: 'just now', 'n min ago', 'n hours ago', 'n days ago'. *)
Inductive Text :=
| JustNow
| MinAgo (n : Z)
| HoursAgo (n : Z)
| DaysAgo (n : Z).

(** [now] is [new Date()] and [date] the entry's time, in milliseconds. *)
Definition getTimeAgo (now date : Z) : Text :=
  let seconds := ((now - date) / 1000)%Z in
  if (seconds <? 60)%Z then JustNow
  else if (seconds <? 3600)%Z then MinAgo (seconds / 60)
  else if (seconds <? 86400)%Z then HoursAgo (seconds / 3600)
  else DaysAgo (seconds / 86400).

End TimeAgo.

(** ** Samples arriving at the enhanced analyzer

    The enhanced analyzer records samples from its own probes and from
    the two kinds of message the backend pushes over the WebSocket
    (['monitoring-update'] and ['ping-result']). *)

Module Samples.
Import JS State Probe.

Inductive Event :=
| Probed (a : EnhancedNetworkAnalyzer.Attempt)
| MonitoringUpdate (alive : bool) (time : Q)
| PingResult (alive : bool) (time : Q).

Definition handle (st : Analyzer) (e : Event) : Analyzer :=
  match e with
  | Probed a => EnhancedNetworkAnalyzer.performSingleTest a st
  | MonitoringUpdate alive time =>
      EnhancedNetworkAnalyzer.handleMonitoringUpdate alive time st
  | PingResult alive time =>
      EnhancedNetworkAnalyzer.handlePingResult alive time st
  end.

Definition run (events : list Event) (st : Analyzer) : Analyzer :=
  foldl handle st events.

(** The successful latencies, [testResults.filter(r => r !== null)]. *)
Definition validResults (st : Analyzer) : list Q := omap id (testResults st).

(** The last [k] elements of a list. *)
Definition last_n {A} (k : nat) (l : list A) : list A := drop (length l - k) l.

(** What [NetworkAnalyzer.performSingleTest] keeps: every attempt is
    numbered and leaves one or two samples, and the chart holds the
    latest latencies. *)
Definition basic_window (st : Analyzer) : Prop :=
  (testCount st <= length (testResults st) <= 2 * testCount st)%nat /\
  map snd (chartData st) = last_n (maxDataPoints st) (validResults st).

End Samples.

(** ** The number a ranking orders by *)

Module Ranking.

(** Entries are ranked by increasing [rank_value]: the value under the
    sort key, negated for the success rate. *)
Definition rank_value (key : State.SortKey) (r : State.ComparisonResult) : Q :=
  match key with
  | State.by_successRate => - Spec.key_value key r
  | _ => Spec.key_value key r
  end.

(** The entries whose rank value is [k], in the order of the list. *)
Definition tied (key : State.SortKey) (k : Q) (l : list State.ComparisonResult)
    : list State.ComparisonResult :=
  List.filter (fun r => Qeq_bool (rank_value key r) k) l.

End Ranking.

(** ** More runs used as examples *)

Module Examples.

(** A probe answered by the backend, a monitoring update, a failed ping
    result and a probe the backend reports as not alive. *)
Definition mixed_events : list Samples.Event :=
  [ Samples.Probed
      {| EnhancedNetworkAnalyzer.backend := EnhancedNetworkAnalyzer.Reply true 23;
         EnhancedNetworkAnalyzer.startTime := 0;
         EnhancedNetworkAnalyzer.browser := Probe.Resolved 20 |};
    Samples.MonitoringUpdate true 31;
    Samples.PingResult false 0;
    Samples.Probed Scenario.unreachable_reply ].

(** A start request for session "s1" on connection 1. *)
Definition start_s1 (host : string) : Backend.StartData :=
  {| Backend.data_host := Some host;
     Backend.data_interval := None;
     Backend.data_sessionId := Some "s1" |}.

(** A server on which connection 1 monitors "8.8.8.8" as session "s1"
    and connection 2 monitors "1.1.1.1" as session "s2". *)
Definition two_sessions : Backend.Server :=
  Backend.startMonitoring 1500 2
    {| Backend.data_host := Some "1.1.1.1";
       Backend.data_interval := Some 500;
       Backend.data_sessionId := Some "s2" |}
    (Backend.startMonitoring 1000 1 (start_s1 "8.8.8.8") Backend.empty).

(** A backend whose requests to 1.1.1.1 all fail and whose requests to
    any other server take 20ms. *)
Definition one_down (server : string) (i : nat) : option Z :=
  if String.eqb server "1.1.1.1" then None else Some 20%Z.

End Examples.

(** * Properties *)

(** ** Sorting *)

Section SortFacts.
Context {A : Type} (cmp : A -> A -> Q).

Lemma sort_insert_perm x l : Permutation (x :: l) (JS.sort_insert cmp x l).
Proof.
  induction l as [|y tl IH]; simpl; [reflexivity|].
  destruct (Qle_bool (cmp x y) 0); [reflexivity|].
  rewrite perm_swap. now constructor.
Qed.

Lemma sort_perm l : Permutation l (JS.sort cmp l).
Proof.
  induction l as [|x tl IH]; simpl; [constructor|].
  rewrite <- sort_insert_perm. now constructor.
Qed.

Lemma sort_length l : length (JS.sort cmp l) = length l.
Proof. symmetry. apply Permutation_length, sort_perm. Qed.

(** When, on the elements of the list, the comparator is the
    difference of a numeric key, the result is ordered by that key. *)
Variable key : A -> Q.
Variable P : A -> Prop.
Hypothesis cmp_key : forall a b, P a -> P b -> (cmp a b <= 0 <-> key a <= key b).

Lemma sort_insert_sorted x l :
  P x -> Forall P l ->
  Spec.ascending_by key l -> Spec.ascending_by key (JS.sort_insert cmp x l).
Proof using cmp_key.
  unfold Spec.ascending_by. intros Px HP Hs. revert HP.
  induction Hs as [|y tl Hs IH Hall]; intros HP; simpl.
  - repeat constructor.
  - apply Forall_cons in HP as [Py HP].
    destruct (Qle_bool (cmp x y) 0) eqn:E.
    + apply Qle_bool_iff, (cmp_key _ _ Px Py) in E.
      constructor; [now constructor|].
      constructor; [exact E|].
      eapply Forall_impl; [exact Hall|].
      intros z Hz. simpl in Hz. eapply Qle_trans; eassumption.
    + assert (Hyx : key y <= key x).
      { destruct (Qlt_le_dec (key y) (key x)) as [Hlt|Hle].
        - now apply Qlt_le_weak.
        - apply (cmp_key _ _ Px Py), Qle_bool_iff in Hle. congruence. }
      constructor; [now apply IH|].
      eapply Permutation_Forall; [apply sort_insert_perm|].
      now constructor.
Qed.

Lemma sort_sorted l : Forall P l -> Spec.ascending_by key (JS.sort cmp l).
Proof using cmp_key.
  induction l as [|x tl IH]; intros HP; simpl.
  - constructor.
  - apply Forall_cons in HP as [Px HP].
    apply sort_insert_sorted; [exact Px| |now apply IH].
    eapply Permutation_Forall; [apply sort_perm|exact HP].
Qed.

End SortFacts.

Lemma ascending_cmp a b : Stats.ascending a b <= 0 <-> a <= b.
Proof. unfold Stats.ascending. split; intros H; lra. Qed.

Lemma sort_ascending l : Spec.ascending (JS.sort Stats.ascending l).
Proof.
  apply (sort_sorted Stats.ascending (fun x => x) (fun _ => True)).
  - intros a b _ _. apply ascending_cmp.
  - apply Forall_forall. trivial.
Qed.

(** ** Jitter *)

Lemma fold_left_push {A B} (g : B -> A) (l : list B) (acc : list A) :
  fold_left (fun diffs i => diffs ++ [g i]) l acc = acc ++ map g l.
Proof.
  revert acc. induction l as [|i l IH]; intros acc; simpl.
  - now rewrite app_nil_r.
  - rewrite IH, <- app_assoc. reflexivity.
Qed.

Lemma differences_indexed values :
  Stats.differences values =
  map (fun i => Qabs (nth i values 0 - nth (i - 1) values 0))
      (seq 1 (length values - 1)).
Proof. unfold Stats.differences. now rewrite fold_left_push. Qed.

(** The indexed loop computes the differences of consecutive samples. *)
Lemma differences_successive values :
  Stats.differences values = Spec.successive values.
Proof.
  rewrite differences_indexed.
  induction values as [|a [|b tl] IH]; try reflexivity.
  replace (length (a :: b :: tl) - 1)%nat with (S (length (b :: tl) - 1))
    by (simpl; lia).
  change (Spec.successive (a :: b :: tl))
    with (Qabs (b - a) :: Spec.successive (b :: tl)).
  cbn [seq map].
  f_equal. rewrite <- IH, <- seq_shift, map_map.
  apply map_ext_in. intros i Hi. apply in_seq in Hi.
  destruct i as [|i]; [lia|].
  replace (S (S i) - 1)%nat with (S (S i - 1)) by lia.
  reflexivity.
Qed.

Lemma successive_length S : length (Spec.successive S) = (length S - 1)%nat.
Proof.
  induction S as [|a [|b tl] IH]; try reflexivity.
  cbn [Spec.successive length] in *. lia.
Qed.

Lemma fold_left_Qplus l a : fold_left Qplus l a == a + Spec.total l.
Proof.
  revert a. induction l as [|x l IH]; intros a; simpl.
  - lra.
  - rewrite IH. lra.
Qed.

Lemma sum_total l : JS.sum l == Spec.total l.
Proof. unfold JS.sum. rewrite fold_left_Qplus. lra. Qed.

Lemma calculateJitter_spec S : Stats.calculateJitter S == Spec.jitter S.
Proof.
  destruct S as [|a [|b tl]]; [reflexivity..|].
  unfold Stats.calculateJitter, Spec.jitter, JS.length_Q.
  change (length (a :: b :: tl) <? 2)%nat with false. cbv iota.
  rewrite differences_successive, successive_length, sum_total.
  reflexivity.
Qed.

Lemma omap_id_Some (S : list Q) : omap id (Some <$> S) = S.
Proof. induction S as [|a S IH]; [reflexivity|]. cbn. f_equal. exact IH. Qed.

Lemma server_calculateJitter_spec S :
  Server.calculateJitter (Some <$> S) == Spec.jitter S.
Proof.
  unfold Server.calculateJitter. rewrite omap_id_Some, length_fmap.
  rewrite <- calculateJitter_spec. unfold Stats.calculateJitter.
  destruct (length S <? 2)%nat; reflexivity.
Qed.

(** C3.  For every list [S] of successful latencies, [calculateJitter]
    (front end and backend) returns the mean of the absolute differences
    |S[i] - S[i-1]| of consecutive samples in arrival order, and 0 when
    [S] has fewer than two samples.  jitter([10,50,10]) is 40, whereas
    the same samples sorted give 20. *)
Theorem C3_jitter_arrival_order :
  (forall S, Stats.calculateJitter S == Spec.jitter S) /\
  (forall S, Server.calculateJitter (Some <$> S) == Spec.jitter S) /\
  Stats.calculateJitter [] == 0 /\
  (forall a, Stats.calculateJitter [a] == 0) /\
  Stats.calculateJitter [10; 50; 10] == 40 /\
  Server.calculateJitter [Some 10; Some 50; Some 10] == 40 /\
  Stats.calculateJitter (JS.sort Stats.ascending [10; 50; 10]) == 20.
Proof.
  split; [exact calculateJitter_spec|].
  split; [exact server_calculateJitter_spec|].
  repeat split; try (intros a); vm_compute; reflexivity.
Qed.

(** ** Indexing *)

Lemma index_nth {A} (l : list A) (i : Z) (d : A) :
  (0 <= i < Z.of_nat (length l))%Z ->
  JS.index l i = Some (nth (Z.to_nat i) l d).
Proof.
  intros [H0 H1]. unfold JS.index.
  destruct (i <? 0)%Z eqn:E; [apply Z.ltb_lt in E; lia|].
  apply nth_error_nth'. lia.
Qed.

Lemma index_negative {A} (l : list A) (i : Z) :
  (i < 0)%Z -> JS.index l i = None.
Proof. intros H. unfold JS.index. apply Z.ltb_lt in H. now rewrite H. Qed.

Lemma nth_In_perm (S sorted : list Q) (i : nat) :
  Permutation S sorted -> (i < length sorted)%nat -> In (nth i sorted 0) S.
Proof.
  intros HP Hi. eapply Permutation_in; [symmetry; exact HP|].
  now apply nth_In.
Qed.

(** ** Percentile *)

Lemma fractional_index_bounds (n : nat) (p : Q) :
  (0 < n)%nat -> 0 <= p <= 1 ->
  let idx := inject_Z (Z.of_nat (n - 1)) * p in
  (0 <= Qfloor idx)%Z /\ (Qfloor idx <= Qceiling idx)%Z /\
  (Qceiling idx < Z.of_nat n)%Z.
Proof.
  intros Hn [Hp0 Hp1] idx.
  assert (Hm : 0 <= inject_Z (Z.of_nat (n - 1))).
  { change 0 with (inject_Z 0). rewrite <- Zle_Qle. lia. }
  assert (H0 : 0 <= idx) by (unfold idx; apply Qmult_le_0_compat; assumption).
  assert (H1 : idx <= inject_Z (Z.of_nat (n - 1))).
  { unfold idx. rewrite <- (Qmult_1_r (inject_Z (Z.of_nat (n - 1)))) at 2.
    rewrite (Qmult_comm _ p), (Qmult_comm _ 1).
    apply Qmult_le_compat_r; assumption. }
  split; [|split].
  - change 0%Z with (Qfloor 0). now apply Qfloor_resp_le.
  - rewrite Zle_Qle. eapply Qle_trans; [apply Qfloor_le|apply Qle_ceiling].
  - apply Qceiling_resp_le in H1. rewrite Qceiling_Z in H1. lia.
Qed.

Lemma fractional_index_eq (l : list Q) (p : Q) :
  (0 < length l)%nat ->
  (JS.length_Q l - 1) * p == inject_Z (Z.of_nat (length l - 1)) * p.
Proof.
  intros Hn. unfold JS.length_Q.
  replace (Z.of_nat (length l - 1)) with (Z.of_nat (length l) - 1)%Z by lia.
  unfold Zminus. rewrite inject_Z_plus. reflexivity.
Qed.

Lemma interpolate_spec (sorted : list Q) (p : Q) :
  (0 < length sorted)%nat -> 0 <= p <= 1 ->
  exists v, Stats.interpolate sorted p = Some v /\
            v == Spec.interpolation sorted p.
Proof.
  intros Hn Hp.
  pose proof (fractional_index_eq sorted p Hn) as Hidx.
  destruct (fractional_index_bounds (length sorted) p Hn Hp) as (Hlo & Hlh & Hhi).
  unfold Stats.interpolate, Spec.interpolation, JS.Math_floor, JS.Math_ceil.
  set (idx := (JS.length_Q sorted - 1) * p) in *.
  set (idx' := inject_Z (Z.of_nat (length sorted - 1)) * p) in *.
  assert (Ef : Qfloor idx = Qfloor idx') by (now apply Qfloor_comp).
  assert (Ec : Qceiling idx = Qceiling idx') by (now apply Qceiling_comp).
  rewrite Ef, Ec.
  rewrite (index_nth sorted (Qfloor idx') 0) by lia.
  rewrite (index_nth sorted (Qceiling idx') 0) by lia.
  destruct (Qfloor idx' =? Qceiling idx')%Z eqn:E.
  - apply Z.eqb_eq in E. eexists; split; [reflexivity|].
    rewrite <- E. ring.
  - eexists; split; [reflexivity|]. rewrite Hidx. reflexivity.
Qed.

(** C4.  For every non-empty list [S] of successful latencies and every
    [p] in [0,1], [percentile(S, p)] is the linear interpolation, at the
    fractional index (|S|-1)*p, between the elements at the floor and the
    ceiling of that index in the ascending arrangement of [S].
    percentile([10,20,30,40], 0.5) is 25 and percentile([10], 0.95) is 10. *)
Theorem C4_percentile_interpolation (S : list Q) (p : Q) :
  S <> [] -> 0 <= p <= 1 ->
  exists sorted v,
    Permutation S sorted /\ Spec.ascending sorted /\
    Stats.percentile S p = Some v /\
    v == Spec.interpolation sorted p /\
    JS.same_number (Stats.percentile [10; 20; 30; 40] (1 # 2)) (Some 25) /\
    JS.same_number (Stats.percentile [10] (95 # 100)) (Some 10).
Proof.
  intros HS Hp.
  assert (Hn : (0 < length S)%nat) by (destruct S; [congruence|simpl; lia]).
  destruct (interpolate_spec (JS.sort Stats.ascending S) p) as (v & Hv & Hspec);
    [rewrite sort_length; exact Hn|exact Hp|].
  exists (JS.sort Stats.ascending S), v.
  split; [apply sort_perm|]. split; [apply sort_ascending|].
  split.
  - unfold Stats.percentile.
    destruct (length S =? 0)%nat eqn:E; [apply Nat.eqb_eq in E; lia|exact Hv].
  - split; [exact Hspec|]. split; vm_compute; reflexivity.
Qed.

Lemma C4_percentile_interpolation_witness :
  exists sorted v,
    Permutation [30; 10; 40; 20] sorted /\ Spec.ascending sorted /\
    Stats.percentile [30; 10; 40; 20] (1 # 2) = Some v /\
    v == Spec.interpolation sorted (1 # 2) /\
    JS.same_number (Stats.percentile [10; 20; 30; 40] (1 # 2)) (Some 25) /\
    JS.same_number (Stats.percentile [10] (95 # 100)) (Some 10).
Proof.
  apply (C4_percentile_interpolation [30; 10; 40; 20] (1 # 2)).
  - discriminate.
  - split; vm_compute; discriminate.
Defined.

(** ** Minimum, maximum and median *)

Lemma Math_min2_cases a b :
  (JS.Math_min2 a b = a /\ a <= b) \/ (JS.Math_min2 a b = b /\ b <= a).
Proof.
  unfold JS.Math_min2. destruct (Qle_bool a b) eqn:E.
  - left. split; [reflexivity|now apply Qle_bool_iff].
  - right. split; [reflexivity|].
    destruct (Qlt_le_dec b a) as [H|H]; [now apply Qlt_le_weak|].
    apply Qle_bool_iff in H. congruence.
Qed.

Lemma Math_max2_cases a b :
  (JS.Math_max2 a b = b /\ a <= b) \/ (JS.Math_max2 a b = a /\ b <= a).
Proof.
  unfold JS.Math_max2. destruct (Qle_bool a b) eqn:E.
  - left. split; [reflexivity|now apply Qle_bool_iff].
  - right. split; [reflexivity|].
    destruct (Qlt_le_dec b a) as [H|H]; [now apply Qlt_le_weak|].
    apply Qle_bool_iff in H. congruence.
Qed.

Lemma fold_min_is_min tl x : Spec.is_min (fold_left JS.Math_min2 tl x) (x :: tl).
Proof.
  unfold Spec.is_min. revert x.
  induction tl as [|y tl IH]; intros x; simpl.
  - split; [now left|]. repeat constructor. apply Qle_refl.
  - destruct (IH (JS.Math_min2 x y)) as [Hin Hall].
    apply Forall_cons in Hall as [Hm Hall].
    destruct (Math_min2_cases x y) as [[E Hle]|[E Hle]]; rewrite E in *.
    + split; [destruct Hin as [<-|Hin]; [now left|right; now right]|].
      constructor; [exact Hm|]. constructor; [|exact Hall].
      eapply Qle_trans; eassumption.
    + split; [destruct Hin as [<-|Hin]; [right; now left|right; now right]|].
      constructor; [|now constructor].
      eapply Qle_trans; eassumption.
Qed.

Lemma fold_max_is_max tl x : Spec.is_max (fold_left JS.Math_max2 tl x) (x :: tl).
Proof.
  unfold Spec.is_max. revert x.
  induction tl as [|y tl IH]; intros x; simpl.
  - split; [now left|]. repeat constructor. apply Qle_refl.
  - destruct (IH (JS.Math_max2 x y)) as [Hin Hall].
    apply Forall_cons in Hall as [Hm Hall].
    destruct (Math_max2_cases x y) as [[E Hle]|[E Hle]]; rewrite E in *.
    + split; [destruct Hin as [<-|Hin]; [right; now left|right; now right]|].
      constructor; [|now constructor].
      eapply Qle_trans; eassumption.
    + split; [destruct Hin as [<-|Hin]; [now left|right; now right]|].
      constructor; [exact Hm|]. constructor; [|exact Hall].
      eapply Qle_trans; eassumption.
Qed.

Lemma middle_spec (sorted : list Q) :
  sorted <> [] ->
  exists m, Stats.middle sorted = Some m /\ m == Spec.median sorted.
Proof.
  intros Hne.
  assert (Hn : (0 < length sorted)%nat) by (destruct sorted; [congruence|simpl; lia]).
  unfold Stats.middle, Spec.median.
  pose proof (Nat.div_mod_eq (length sorted) 2) as Hdm.
  pose proof (Nat.mod_upper_bound (length sorted) 2 ltac:(lia)) as Hmod.
  destruct (length sorted mod 2 =? 0)%nat eqn:E.
  - apply Nat.eqb_eq in E.
    assert (Hev : Nat.even (length sorted) = true).
    { apply Nat.even_spec. exists (length sorted / 2)%nat. lia. }
    rewrite Hev.
    rewrite (index_nth sorted (Z.of_nat (length sorted / 2) - 1) 0) by lia.
    rewrite (index_nth sorted (Z.of_nat (length sorted / 2)) 0) by lia.
    replace (Z.to_nat (Z.of_nat (length sorted / 2) - 1))
      with (length sorted / 2 - 1)%nat by lia.
    rewrite Nat2Z.id.
    eexists; split; reflexivity.
  - apply Nat.eqb_neq in E.
    assert (Hev : Nat.even (length sorted) = false).
    { destruct (Nat.even (length sorted)) eqn:Ev; [|reflexivity].
      apply Nat.even_spec in Ev as [k Hk]. exfalso.
      rewrite Hk, Nat.mul_comm, Nat.Div0.mod_mul in E. congruence. }
    rewrite Hev.
    rewrite (index_nth sorted (Z.of_nat (length sorted / 2)) 0) by lia.
    rewrite Nat2Z.id.
    eexists; split; reflexivity.
Qed.

Lemma median_between (S sorted : list Q) (lo hi : Q) :
  sorted <> [] -> Permutation S sorted ->
  Forall (Qle lo) S -> Forall (fun x => x <= hi) S ->
  lo <= Spec.median sorted <= hi.
Proof.
  intros Hne HP Hlo Hhi.
  assert (Hn : (0 < length sorted)%nat) by (destruct sorted; [congruence|simpl; lia]).
  assert (Hb : forall i, (i < length sorted)%nat ->
                         lo <= nth i sorted 0 <= hi).
  { intros i Hi. pose proof (nth_In_perm S sorted i HP Hi) as Hin.
    rewrite Forall_forall in Hlo, Hhi.
    apply list_elem_of_In in Hin. split; [now apply Hlo|now apply Hhi]. }
  pose proof (Nat.div_lt (length sorted) 2 Hn ltac:(lia)) as Hmid.
  unfold Spec.median.
  destruct (Nat.even (length sorted)).
  - destruct (Hb (length sorted / 2 - 1)%nat ltac:(lia)) as [? ?].
    destruct (Hb (length sorted / 2)%nat Hmid) as [? ?].
    split.
    + apply Qle_shift_div_l; lra.
    + apply Qle_shift_div_r; lra.
  - now apply Hb.
Qed.

(** C8.  For every non-empty list [S] of successful latencies,
    min(S) <= median(S) <= max(S), where [getMedian] returns the single
    middle element (odd length) or the average of the two middle elements
    (even length) of the ascending arrangement of [S], and min/max are
    [Math.min(...S)] and [Math.max(...S)]. *)
Theorem C8_min_median_max (S : list Q) :
  S <> [] ->
  exists lo m hi sorted,
    JS.Math_min S = Some lo /\ Spec.is_min lo S /\
    JS.Math_max S = Some hi /\ Spec.is_max hi S /\
    Permutation S sorted /\ Spec.ascending sorted /\
    Stats.getMedian S = Some m /\ m == Spec.median sorted /\
    lo <= m <= hi.
Proof.
  intros HS. destruct S as [|x tl]; [congruence|].
  set (S := x :: tl) in *.
  set (sorted := JS.sort Stats.ascending S).
  assert (HP : Permutation S sorted) by apply sort_perm.
  assert (Hne : sorted <> []).
  { intros E. apply Permutation_sym in HP. rewrite E in HP.
    apply Permutation_nil in HP. discriminate. }
  destruct (middle_spec sorted Hne) as (m & Hm & Hspec).
  pose proof (fold_min_is_min tl x) as Hmin.
  pose proof (fold_max_is_max tl x) as Hmax.
  exists (fold_left JS.Math_min2 tl x), m, (fold_left JS.Math_max2 tl x), sorted.
  repeat (split; [first [reflexivity | assumption | apply sort_ascending]|]).
  rewrite Hspec.
  apply (median_between S sorted); [assumption..|apply Hmin|apply Hmax].
Qed.

Lemma C8_min_median_max_witness :
  exists lo m hi sorted,
    JS.Math_min [30; 10; 40; 20] = Some lo /\ Spec.is_min lo [30; 10; 40; 20] /\
    JS.Math_max [30; 10; 40; 20] = Some hi /\ Spec.is_max hi [30; 10; 40; 20] /\
    Permutation [30; 10; 40; 20] sorted /\ Spec.ascending sorted /\
    Stats.getMedian [30; 10; 40; 20] = Some m /\ m == Spec.median sorted /\
    lo <= m <= hi.
Proof. apply (C8_min_median_max [30; 10; 40; 20]). discriminate. Defined.

(** ** Quality score *)

Lemma Math_min2_Qmin a b : JS.Math_min2 a b == Qmin a b.
Proof.
  destruct (Math_min2_cases a b) as [[E H]|[E H]]; rewrite E.
  - symmetry. now apply Q.min_l.
  - symmetry. now apply Q.min_r.
Qed.

Lemma score_of_range Ln Jn Pn : (0 <= Quality.score_of Ln Jn Pn <= 100)%Z.
Proof. unfold Quality.score_of. lia. Qed.



(** On the run [3; 182] the exact value of the formula is 56.5, which
    rounds to 57; evaluated in doubles it is just below 56.5 and the
    code returns 56. *)
Lemma score_at_a_tie :
  Quality.calculateQualityScore [Some 3; Some 182] 0 2 = Some 57%Z /\
  Double.calculateQualityScore Double.tie_run 0 2 = Double.of_Z 56.
Proof. split; vm_compute; reflexivity. Qed.

(** C9.  With no successful sample, [calculateQualityScore] returns 0
    whatever the failure and test counts are: a number, not an error and
    not a missing score, and not the 85 that the weighted formula gives
    for Ln = Jn = 0, Pn = 1. *)
Theorem C9_no_success_scores_zero
    (testResults : list (option Q)) (failCount testCount : nat) :
  omap id testResults = [] ->
  Quality.calculateQualityScore testResults failCount testCount = Some 0%Z /\
  Quality.score_of 0 0 1 = 85%Z /\
  Quality.score 0 0 100 = 85%Z /\
  Quality.calculateQualityScore [None; None; None] 3 3 = Some 0%Z.
Proof.
  intros Hv. unfold Quality.calculateQualityScore at 1. rewrite Hv.
  repeat split; vm_compute; reflexivity.
Qed.

Lemma C9_no_success_scores_zero_witness :
  Quality.calculateQualityScore [None; None] 2 2 = Some 0%Z /\
  Quality.score_of 0 0 1 = 85%Z /\
  Quality.score 0 0 100 = 85%Z /\
  Quality.calculateQualityScore [None; None; None] 3 3 = Some 0%Z.
Proof. apply (C9_no_success_scores_zero [None; None] 2 2). reflexivity. Defined.

(** ** The statistics functions leave their argument untouched *)

Lemma fresh_not_allocated (h : Mem.heap) : h !! fresh (dom h) = None.
Proof. apply not_elem_of_dom, is_fresh. Qed.

(** Sorting a copy: the result is the sorted list, the original stays. *)
Lemma sorted_copy (h : Mem.heap) (values : Mem.loc) (vs : list Q) :
  h !! values = Some vs ->
  exists h',
    Mem.bind (Mem.copy values)
      (fun c => Mem.bind (Mem.sort_in_place Stats.ascending c) Mem.read) h
    = Some (JS.sort Stats.ascending vs, h') /\
    h' !! values = Some vs /\ Spec.preserved h h'.
Proof.
  intros Hv.
  pose proof (fresh_not_allocated h) as Hfresh.
  unfold Spec.preserved, Mem.heap, Mem.loc in *.
  set (c := fresh (dom h)) in *.
  assert (Hne : forall l xs, h !! l = Some xs -> c <> l).
  { intros l xs Hl E. rewrite E in Hfresh. rewrite Hfresh in Hl. discriminate. }
  exists (<[c := JS.sort Stats.ascending vs]> (<[c := vs]> h)).
  split; [|split].
  - unfold Mem.bind, Mem.copy, Mem.sort_in_place, Mem.read, Mem.heap, Mem.loc.
    rewrite Hv. cbv beta iota zeta. fold c.
    rewrite lookup_insert_eq. cbv beta iota. rewrite lookup_insert_eq.
    reflexivity.
  - rewrite !lookup_insert_ne by (eapply Hne; eassumption). exact Hv.
  - intros l xs Hl. rewrite !lookup_insert_ne by (eapply Hne; eassumption).
    exact Hl.
Qed.

(** [sort] does overwrite the array it is called on. *)
Lemma sort_in_place_overwrites (h : Mem.heap) (a : Mem.loc) (vs : list Q) :
  h !! a = Some vs ->
  exists h', Mem.sort_in_place Stats.ascending a h = Some (a, h') /\
             h' !! a = Some (JS.sort Stats.ascending vs).
Proof.
  intros Ha. unfold Mem.sort_in_place. rewrite Ha.
  eexists; split; [reflexivity|]. apply lookup_insert_eq.
Qed.

Lemma mem_getMedian (h : Mem.heap) (values : Mem.loc) (vs : list Q) :
  h !! values = Some vs ->
  exists h', Mem.getMedian values h = Some (Stats.getMedian vs, h') /\
             h' !! values = Some vs /\ Spec.preserved h h'.
Proof.
  intros Hv. destruct (sorted_copy h values vs Hv) as (h' & Hrun & Hsame & Hpres).
  exists h'. split; [|split; assumption].
  unfold Mem.getMedian, Stats.getMedian.
  unfold mbind, Mem.M_bind, Mem.bind in *.
  destruct (Mem.copy values h) as [[c h1]|]; [|discriminate].
  destruct (Mem.sort_in_place Stats.ascending c h1) as [[s h2]|]; [|discriminate].
  rewrite Hrun. reflexivity.
Qed.

Lemma mem_getStdDev sqrt (h : Mem.heap) (values : Mem.loc) (vs : list Q) :
  h !! values = Some vs ->
  Mem.getStdDev sqrt values h = Some (Stats.getStdDev sqrt vs, h).
Proof.
  intros Hv. unfold Mem.getStdDev, mbind, Mem.M_bind, Mem.bind, Mem.read.
  rewrite Hv. reflexivity.
Qed.

Lemma mem_percentile (h : Mem.heap) (values : Mem.loc) (vs : list Q) (p : Q) :
  h !! values = Some vs ->
  exists h', Mem.percentile values p h = Some (Stats.percentile vs p, h') /\
             h' !! values = Some vs /\ Spec.preserved h h'.
Proof.
  intros Hv. unfold Mem.percentile, Stats.percentile.
  unfold mbind at 1, Mem.M_bind at 1, Mem.bind at 1, Mem.read at 1.
  rewrite Hv.
  destruct (length vs =? 0)%nat.
  - exists h. split; [reflexivity|]. split; [exact Hv|]. intros l xs Hl; exact Hl.
  - destruct (sorted_copy h values vs Hv) as (h' & Hrun & Hsame & Hpres).
    exists h'. split; [|split; assumption].
    unfold mbind, Mem.M_bind, Mem.bind in *.
    destruct (Mem.copy values h) as [[c h1]|]; [|discriminate].
    destruct (Mem.sort_in_place Stats.ascending c h1) as [[s h2]|]; [|discriminate].
    rewrite Hrun. reflexivity.
Qed.

(** C10.  [getMedian], [percentile] and [getStdDev] never change the
    array they are given: whatever the heap, after the call the input
    array holds the same elements in the same order (and so does every
    other array), while the call returns the value of the statistic. *)
Theorem C10_statistics_leave_input_unchanged
    (sqrt : Q -> Q) (h : Mem.heap) (values : Mem.loc) (vs : list Q) (p : Q) :
  h !! values = Some vs ->
  (exists h', Mem.getMedian values h = Some (Stats.getMedian vs, h') /\
              h' !! values = Some vs /\ Spec.preserved h h') /\
  (exists h', Mem.percentile values p h = Some (Stats.percentile vs p, h') /\
              h' !! values = Some vs /\ Spec.preserved h h') /\
  (exists h', Mem.getStdDev sqrt values h = Some (Stats.getStdDev sqrt vs, h') /\
              h' !! values = Some vs /\ Spec.preserved h h').
Proof.
  intros Hv. split; [now apply mem_getMedian|].
  split; [now apply mem_percentile|].
  exists h. split; [now apply mem_getStdDev|].
  split; [exact Hv|]. intros l xs Hl; exact Hl.
Qed.

Lemma C10_statistics_leave_input_unchanged_witness :
  (exists h', Mem.getMedian 7%nat Scenario.one_array
              = Some (Stats.getMedian [30; 10; 20], h') /\
              h' !! 7%nat = Some [30; 10; 20] /\ Spec.preserved Scenario.one_array h') /\
  (exists h', Mem.percentile 7%nat (95 # 100) Scenario.one_array
              = Some (Stats.percentile [30; 10; 20] (95 # 100), h') /\
              h' !! 7%nat = Some [30; 10; 20] /\ Spec.preserved Scenario.one_array h') /\
  (exists h', Mem.getStdDev (fun x => x) 7%nat Scenario.one_array
              = Some (Stats.getStdDev (fun x => x) [30; 10; 20], h') /\
              h' !! 7%nat = Some [30; 10; 20] /\ Spec.preserved Scenario.one_array h').
Proof.
  apply (C10_statistics_leave_input_unchanged
           (fun x => x) Scenario.one_array 7%nat [30; 10; 20] (95 # 100)).
  reflexivity.
Defined.

(** ** Ranking a comparison *)

Lemma compareBy_rank_value key a b :
  Spec.defines key a -> Spec.defines key b ->
  (State.compareBy key a b <= 0 <-> Ranking.rank_value key a <= Ranking.rank_value key b).
Proof.
  intros [x Hx] [y Hy].
  unfold Ranking.rank_value, Spec.key_value, State.compareBy.
  destruct key; rewrite Hx, Hy; unfold State.minus_or_zero;
    cbn [default from_option id]; split; intros H; lra.
Qed.

Lemma measured_defines key r : Spec.measured key r -> Spec.defines key r.
Proof.
  unfold Spec.measured, Spec.defines.
  destruct key; cbn; intros H; try (now eexists); exact H.
Qed.

(** The number the comparator orders by is the statistic the key
    names. *)
Lemma no_later_rank key a b :
  Spec.measured key a -> Spec.measured key b ->
  (Ranking.rank_value key a <= Ranking.rank_value key b <-> Spec.no_later key a b).
Proof.
  unfold Spec.measured, Spec.no_later, Ranking.rank_value, Spec.key_value.
  destruct key; cbn [State.field default from_option id].
  - intros _ _. reflexivity.
  - intros _ _. reflexivity.
  - intros _ _. split; intros H; lra.
  - intros [x Hx] [y Hy]. rewrite Hx, Hy. cbn. split.
    + intros H. now exists x, y.
    + intros (x' & y' & [= <-] & [= <-] & H). exact H.
  - intros [x Hx] [y Hy]. rewrite Hx, Hy. cbn. split.
    + intros H. now exists x, y.
    + intros (x' & y' & [= <-] & [= <-] & H). exact H.
Qed.

Lemma StronglySorted_on {A} (P : A -> Prop) (R R' : A -> A -> Prop) (l : list A) :
  Forall P l -> (forall a b, P a -> P b -> R a b -> R' a b) ->
  StronglySorted R l -> StronglySorted R' l.
Proof.
  intros HP HR Hs. induction Hs as [|x l Hs IH Hall]; [constructor|].
  apply Forall_cons in HP as [Px HP]. constructor; [now apply IH|].
  rewrite Forall_forall in Hall, HP |- *.
  intros y Hy. apply HR; [exact Px|now apply HP|now apply Hall].
Qed.

Lemma compareBy_ranks key results :
  Forall (Spec.measured key) results ->
  Spec.ranked key (JS.sort (State.compareBy key) results).
Proof.
  intros Hm. unfold Spec.ranked.
  assert (Hp : Permutation results (JS.sort (State.compareBy key) results))
    by apply sort_perm.
  apply (StronglySorted_on (Spec.measured key)
           (fun a b => Ranking.rank_value key a <= Ranking.rank_value key b)).
  - eapply Permutation_Forall; [exact Hp|exact Hm].
  - intros a b Ha Hb. now apply no_later_rank.
  - apply (sort_sorted _ _ (Spec.defines key)); [apply compareBy_rank_value|].
    eapply Forall_impl; [exact Hm|]. intros r. apply measured_defines.
Qed.

Lemma has_field_defines key r :
  State.has_field key r = true <-> Spec.defines key r.
Proof.
  unfold State.has_field, Spec.defines.
  destruct (State.field key r); split; intros H;
    first [reflexivity | discriminate | now eexists | now destruct H].
Qed.

Lemma forallb_has_field key results :
  Forall (Spec.defines key) results ->
  forallb (State.has_field key) results = true.
Proof.
  intros H. apply forallb_forall. intros r Hr.
  apply has_field_defines. rewrite Forall_forall in H.
  apply H, list_elem_of_In, Hr.
Qed.

(** Whether or not rendering succeeds, the stored result set is the
    sorted one and nothing else of the run changes. *)
Lemma display_ranks shown results st :
  results <> [] ->
  let st' := JS.after (State.displayComparisonResults shown results st) in
  State.comparisonResults st'
    = Some (JS.sort (State.compareBy (State.currentSort st)) results) /\
  State.currentSort st' = State.currentSort st /\
  State.requests st' = State.requests st /\
  State.testResults st' = State.testResults st.
Proof.
  intros Hne. destruct results as [|r rs]; [congruence|].
  unfold State.displayComparisonResults.
  destruct (forallb _ _); [destruct (head _)|]; repeat split; reflexivity.
Qed.

(** Rendering succeeds when every entry has the statistic shown on its
    row. *)
Lemma display_completes shown results st :
  Forall (Spec.defines shown) results ->
  exists st', State.displayComparisonResults shown results st = JS.Completed st'.
Proof.
  intros Hdef. destruct results as [|r rs]; [eexists; reflexivity|].
  unfold State.displayComparisonResults.
  set (sorted := JS.sort _ (r :: rs)).
  assert (Hp : Permutation (r :: rs) sorted) by apply sort_perm.
  rewrite forallb_has_field
    by (eapply Permutation_Forall; [exact Hp|exact Hdef]).
  destruct sorted as [|x xs] eqn:E.
  - apply Permutation_sym, Permutation_nil in Hp. discriminate.
  - eexists; reflexivity.
Qed.

Lemma percentile_defined (S : list Q) (p : Q) :
  S <> [] -> 0 <= p <= 1 -> is_Some (Stats.percentile S p).
Proof.
  intros HS Hp.
  assert (Hn : (0 < length S)%nat) by (destruct S; [congruence|simpl; lia]).
  destruct (interpolate_spec (JS.sort Stats.ascending S) p) as (v & Hv & _);
    [rewrite sort_length; exact Hn|exact Hp|].
  exists v. unfold Stats.percentile.
  destruct (length S =? 0)%nat eqn:E; [apply Nat.eqb_eq in E; lia|exact Hv].
Qed.

(** The entries each class builds have a number under every key its
    sort buttons offer. *)
Lemma basic_buttons_defined server serverInfo testResults r key :
  NetworkAnalyzer.entry server serverInfo testResults = Some r ->
  In key NetworkAnalyzer.sortButtons -> Spec.defines key r.
Proof.
  unfold NetworkAnalyzer.entry. intros Hr Hk.
  destruct (0 <? length (omap id testResults))%nat eqn:E; [|discriminate].
  apply Nat.ltb_lt in E. injection Hr as <-.
  assert (Hne : omap id testResults <> [])
    by (intros E0; rewrite E0 in E; simpl in E; lia).
  unfold Spec.defines.
  simpl in Hk. destruct Hk as [<-|[<-|[<-|[<-|[]]]]]; simpl; try (eexists; reflexivity).
  apply percentile_defined; [exact Hne|]. split; vm_compute; discriminate.
Qed.

Lemma enhanced_buttons_defined server serverInfo testResults r key :
  EnhancedNetworkAnalyzer.entry server serverInfo testResults = Some r ->
  In key EnhancedNetworkAnalyzer.sortButtons -> Spec.defines key r.
Proof.
  unfold EnhancedNetworkAnalyzer.entry. intros Hr Hk.
  destruct (0 <? length (omap id testResults))%nat; [|discriminate].
  injection Hr as <-. unfold Spec.defines.
  simpl in Hk. destruct Hk as [<-|[<-|[<-|[<-|[]]]]]; simpl; eexists; reflexivity.
Qed.

Lemma basic_buttons_measured server serverInfo testResults r key :
  NetworkAnalyzer.entry server serverInfo testResults = Some r ->
  In key NetworkAnalyzer.sortButtons -> Spec.measured key r.
Proof.
  unfold NetworkAnalyzer.entry. intros Hr Hk.
  destruct (0 <? length (omap id testResults))%nat eqn:E; [|discriminate].
  apply Nat.ltb_lt in E. injection Hr as <-.
  assert (Hne : omap id testResults <> [])
    by (intros E0; rewrite E0 in E; simpl in E; lia).
  simpl in Hk. destruct Hk as [<-|[<-|[<-|[<-|[]]]]]; cbn; try exact I.
  apply percentile_defined; [exact Hne|]. split; vm_compute; discriminate.
Qed.

Lemma enhanced_buttons_measured server serverInfo testResults r key :
  EnhancedNetworkAnalyzer.entry server serverInfo testResults = Some r ->
  In key EnhancedNetworkAnalyzer.sortButtons -> Spec.measured key r.
Proof.
  unfold EnhancedNetworkAnalyzer.entry. intros Hr Hk.
  destruct (0 <? length (omap id testResults))%nat; [|discriminate].
  injection Hr as <-.
  simpl in Hk. destruct Hk as [<-|[<-|[<-|[<-|[]]]]]; cbn; try exact I.
  now eexists.
Qed.

(** C7.  For a collected result set and a sort key whose statistic every
    entry carries (as is the case for every key the sort buttons offer),
    the ranking is ascending by that key for avg, jitter, packetLoss and
    p95 and descending for successRate; [sortComparison] re-sorts the
    stored result set (the same entries) under the new key without
    issuing any request or touching the samples; the sort key of a new
    analyzer is avg.  Two entries with averages 20 and 15 are stored in
    the order 15, 20 when sorted by avg. *)
Theorem C7_ranking_by_sort_key
    (st : State.Analyzer) (key : State.SortKey)
    (results : list State.ComparisonResult) :
  State.comparisonResults st = Some results ->
  results <> [] ->
  Forall (Spec.measured key) results ->
  (forall shown, exists ranked,
     State.comparisonResults
       (JS.after (State.displayComparisonResults shown results
                    (State.set_currentSort key st)))
     = Some ranked /\
     Permutation results ranked /\ Spec.ranked key ranked) /\
  (forall sortComparison,
     sortComparison = NetworkAnalyzer.sortComparison \/
     sortComparison = EnhancedNetworkAnalyzer.sortComparison ->
     exists ranked,
       State.comparisonResults (JS.after (sortComparison key st)) = Some ranked /\
       Permutation results ranked /\ Spec.ranked key ranked /\
       State.currentSort (JS.after (sortComparison key st)) = key /\
       State.requests (JS.after (sortComparison key st)) = State.requests st /\
       State.testResults (JS.after (sortComparison key st)) = State.testResults st) /\
  State.currentSort NetworkAnalyzer.new = State.by_avg /\
  State.currentSort EnhancedNetworkAnalyzer.new = State.by_avg /\
  (forall server serverInfo testResults r k,
     NetworkAnalyzer.entry server serverInfo testResults = Some r ->
     In k NetworkAnalyzer.sortButtons -> Spec.measured k r) /\
  (forall server serverInfo testResults r k,
     EnhancedNetworkAnalyzer.entry server serverInfo testResults = Some r ->
     In k EnhancedNetworkAnalyzer.sortButtons -> Spec.measured k r) /\
  State.comparisonResults
    (JS.after (EnhancedNetworkAnalyzer.sortComparison State.by_avg
                 (State.set_comparisonResults [Scenario.google; Scenario.cloudflare]
                    (State.set_currentSort State.by_successRate
                       EnhancedNetworkAnalyzer.new))))
  = Some [Scenario.cloudflare; Scenario.google].
Proof.
  intros Hst Hne Hdef.
  split.
  { intros shown.
    destruct (display_ranks shown results (State.set_currentSort key st) Hne)
      as (Hc & _). simpl in Hc.
    eexists. split; [exact Hc|]. split; [apply sort_perm|].
    now apply compareBy_ranks. }
  split.
  { intros f [-> | ->].
    - unfold NetworkAnalyzer.sortComparison. rewrite Hst.
      set (once := JS.sort (State.compareBy key) results).
      assert (Hp : Permutation results once) by apply sort_perm.
      assert (Hne1 : once <> []).
      { intros E. rewrite E in Hp. apply Permutation_sym, Permutation_nil in Hp.
        contradiction. }
      destruct (display_ranks NetworkAnalyzer.shown once
                  (State.set_comparisonResults once (State.set_currentSort key st))
                  Hne1) as (Hc & Hk & Hr & Ht).
      simpl in Hc, Hk, Hr, Ht.
      eexists. split; [exact Hc|].
      split; [etransitivity; [exact Hp|apply sort_perm]|].
      split; [apply compareBy_ranks;
              eapply Permutation_Forall; [exact Hp|exact Hdef]|].
      repeat split; assumption.
    - unfold EnhancedNetworkAnalyzer.sortComparison. rewrite Hst.
      destruct (display_ranks EnhancedNetworkAnalyzer.shown results
                  (State.set_currentSort key st) Hne)
        as (Hc & Hk & Hr & Ht).
      simpl in Hc, Hk, Hr, Ht.
      eexists. split; [exact Hc|]. split; [apply sort_perm|].
      split; [now apply compareBy_ranks|].
      repeat split; assumption. }
  split; [reflexivity|]. split; [reflexivity|].
  split; [exact basic_buttons_measured|].
  split; [exact enhanced_buttons_measured|].
  vm_compute. reflexivity.
Qed.

Lemma C7_ranking_by_sort_key_witness :
  State.comparisonResults Scenario.compared
    = Some [Scenario.cloudflare; Scenario.google] /\
  Forall (Spec.measured State.by_packetLoss) [Scenario.cloudflare; Scenario.google] /\
  exists ranked,
    State.comparisonResults
      (JS.after (EnhancedNetworkAnalyzer.sortComparison
                   State.by_packetLoss Scenario.compared))
    = Some ranked /\
    Permutation [Scenario.cloudflare; Scenario.google] ranked /\
    Spec.ranked State.by_packetLoss ranked /\
    State.currentSort
      (JS.after (EnhancedNetworkAnalyzer.sortComparison
                   State.by_packetLoss Scenario.compared))
    = State.by_packetLoss /\
    State.requests
      (JS.after (EnhancedNetworkAnalyzer.sortComparison
                   State.by_packetLoss Scenario.compared))
    = State.requests Scenario.compared /\
    State.testResults
      (JS.after (EnhancedNetworkAnalyzer.sortComparison
                   State.by_packetLoss Scenario.compared))
    = State.testResults Scenario.compared.
Proof.
  assert (Hdef : Forall (Spec.measured State.by_packetLoss)
                   [Scenario.cloudflare; Scenario.google])
    by (repeat constructor; eexists; reflexivity).
  split; [reflexivity|]. split; [exact Hdef|].
  refine (proj1 (proj2 (C7_ranking_by_sort_key Scenario.compared State.by_packetLoss
                          [Scenario.cloudflare; Scenario.google] _ _ Hdef))
            EnhancedNetworkAnalyzer.sortComparison _).
  - reflexivity.
  - discriminate.
  - right. reflexivity.
Defined.

(** ** Multi-target comparison *)

Lemma no_valid_results (f : nat -> option Q) (l : list nat) :
  omap id (map f l) = [] <->
  forallb (fun i => match f i with None => true | Some _ => false end) l = true.
Proof.
  induction l as [|i l IH]; [simpl; tauto|].
  cbn. destruct (f i) as [q|]; cbn.
  - split; discriminate.
  - exact IH.
Qed.

Lemma valid_results_guard net server :
  (0 <? length (omap id (State.probeServer net server)))%nat
  = negb (Spec.all_failed net server).
Proof.
  unfold State.probeServer, Spec.all_failed.
  pose proof (no_valid_results (net server) (seq 0 10)) as H.
  destruct (omap id (map (net server) (seq 0 10))) as [|v vs].
  - rewrite (proj1 H eq_refl). reflexivity.
  - destruct (forallb _ _); [|reflexivity].
    destruct H as [_ H]. specialize (H eq_refl). discriminate.
Qed.

Lemma basic_entry_survivors :
  Spec.builds_survivors NetworkAnalyzer.shown NetworkAnalyzer.entry.
Proof.
  intros net server serverInfo.
  destruct (NetworkAnalyzer.entry server serverInfo (State.probeServer net server))
    as [r|] eqn:Hr.
  - split; [|split].
    + revert Hr. unfold NetworkAnalyzer.entry. rewrite valid_results_guard.
      destruct (Spec.all_failed net server); [discriminate|reflexivity].
    + revert Hr. unfold NetworkAnalyzer.entry.
      destruct (0 <? _)%nat; [|discriminate]. now intros [= <-].
    + eapply basic_buttons_defined; [exact Hr|]. right; now left.
  - revert Hr. unfold NetworkAnalyzer.entry. rewrite valid_results_guard.
    destruct (Spec.all_failed net server); [reflexivity|discriminate].
Qed.

Lemma enhanced_entry_survivors :
  Spec.builds_survivors EnhancedNetworkAnalyzer.shown EnhancedNetworkAnalyzer.entry.
Proof.
  intros net server serverInfo.
  destruct (EnhancedNetworkAnalyzer.entry server serverInfo
              (State.probeServer net server)) as [r|] eqn:Hr.
  - split; [|split].
    + revert Hr. unfold EnhancedNetworkAnalyzer.entry. rewrite valid_results_guard.
      destruct (Spec.all_failed net server); [discriminate|reflexivity].
    + revert Hr. unfold EnhancedNetworkAnalyzer.entry.
      destruct (0 <? _)%nat; [|discriminate]. now intros [= <-].
    + eapply enhanced_buttons_defined; [exact Hr|]. do 3 right; now left.
  - revert Hr. unfold EnhancedNetworkAnalyzer.entry. rewrite valid_results_guard.
    destruct (Spec.all_failed net server); [reflexivity|discriminate].
Qed.

Lemma survivors_excluded net targets :
  (length (Spec.survivors net targets) + Spec.excluded net targets)%nat
  = length targets.
Proof.
  unfold Spec.survivors, Spec.excluded.
  induction targets as [|t ts IH]; [reflexivity|].
  rewrite !filter_cons.
  destruct (Spec.all_failed net t); repeat case_decide; try congruence;
    simpl; lia.
Qed.

Lemma serverInfo_of_own locs server serverInfo :
  locs !! server = Some serverInfo ->
  State.serverInfo_of locs server = Some serverInfo.
Proof. intros H. unfold State.serverInfo_of, JS.get. now rewrite H. Qed.

Lemma compareLoop_from shown entry locs net servers st results0 :
  Spec.builds_survivors shown entry ->
  Forall (fun t => is_Some (locs !! t)) servers ->
  exists st' results,
    foldl (State.compareStep entry locs net) (JS.Completed (st, results0)) servers
    = JS.Completed (st', results0 ++ results) /\
    map State.server results = Spec.survivors net servers /\
    Forall (Spec.defines shown) results /\
    State.comparisonResults st' = State.comparisonResults st /\
    State.currentSort st' = State.currentSort st /\
    State.requests st' = (State.requests st + 10 * length servers)%nat.
Proof.
  intros Hentry Hknown. revert st results0.
  induction Hknown as [|t ts [serverInfo Ht] Hknown IH]; intros st results0.
  - exists st, []. rewrite app_nil_r. repeat split; simpl; try lia. constructor.
  - cbn [foldl]. unfold State.compareStep at 2.
    rewrite (serverInfo_of_own _ _ _ Ht).
    pose proof (Hentry net t serverInfo) as He.
    unfold Spec.survivors. rewrite filter_cons. fold (Spec.survivors net ts).
    set (st1 := State.add_requests _ _).
    assert (Hreq : State.requests st1 = (State.requests st + 10)%nat) by reflexivity.
    destruct (entry t serverInfo (State.probeServer net t)) as [r|].
    + destruct He as (Hf & Hs & Hd). rewrite decide_True by exact Hf.
      destruct (IH st1 (results0 ++ [r]))
        as (st' & results & Hrun & Hmap & Hdef & Hc & Hk & Hr).
      exists st', (r :: results). rewrite Hrun, <- app_assoc.
      split; [reflexivity|]. split; [simpl; congruence|].
      split; [now constructor|].
      split; [exact Hc|]. split; [exact Hk|]. rewrite Hr, Hreq. simpl. lia.
    + rewrite decide_False by (rewrite He; discriminate).
      destruct (IH st1 results0)
        as (st' & results & Hrun & Hmap & Hdef & Hc & Hk & Hr).
      exists st', results. rewrite Hrun.
      split; [reflexivity|]. split; [exact Hmap|]. split; [exact Hdef|].
      split; [exact Hc|]. split; [exact Hk|]. rewrite Hr, Hreq. simpl. lia.
Qed.

(** After the loop, [displayComparisonResults] ranks the collected
    entries, or leaves the analyzer's result set alone when there is
    none. *)
Lemma compare_then_display shown entry locs net servers st :
  Spec.builds_survivors shown entry ->
  Forall (fun t => is_Some (locs !! t)) servers ->
  exists st',
    match State.compareLoop entry locs net servers st with
    | JS.Completed (st, results) =>
        State.displayComparisonResults shown results st
    | JS.Threw (st, _) => JS.Threw st
    end = JS.Completed st' /\
    ((Spec.survivors net servers = [] /\
      State.comparisonResults st' = State.comparisonResults st) \/
     (exists ranked,
        State.comparisonResults st' = Some ranked /\
        Permutation (map State.server ranked) (Spec.survivors net servers))).
Proof.
  intros Hentry Hknown. unfold State.compareLoop.
  destruct (compareLoop_from shown entry locs net servers st [] Hentry Hknown)
    as (st1 & results & Hrun & Hmap & Hdef & Hc & Hk & Hr).
  rewrite Hrun. cbn [app].
  destruct (display_completes shown results st1 Hdef) as (st' & Hdone).
  exists st'. split; [exact Hdone|].
  destruct results as [|r rs].
  - left. split; [now rewrite <- Hmap|].
    injection Hdone as <-. exact Hc.
  - right.
    destruct (display_ranks shown (r :: rs) st1 ltac:(discriminate)) as (Hd & _).
    rewrite Hdone in Hd. cbn [JS.after] in Hd.
    eexists. split; [exact Hd|].
    rewrite <- Hmap. apply Permutation_map, Permutation_sym, sort_perm.
Qed.

(** C6.  In a comparison probed from the browser
    ([NetworkAnalyzer.compareAllDNS], and
    [EnhancedNetworkAnalyzer.fallbackDNSComparison] on targets listed in
    [serverLocations]), the ranked result set holds one entry for each
    target that had at least one successful probe and none for a target
    whose probes all failed (it is absent, not scored as zero); when no
    target is left the stored result set is not replaced.  With two
    targets, one always answering in 20ms and one never answering, the
    ranked output is the single entry of the first. *)
Theorem C6_failed_targets_absent
    (net : string -> nat -> option Q) (targets : list string) (st : State.Analyzer) :
  Forall (fun t => is_Some (EnhancedNetworkAnalyzer.serverLocations !! t)) targets ->
  (exists st',
     EnhancedNetworkAnalyzer.fallbackDNSComparison net targets st
     = JS.Completed st' /\
     ((Spec.survivors net targets = [] /\
       State.comparisonResults st' = State.comparisonResults st) \/
      (exists ranked,
         State.comparisonResults st' = Some ranked /\
         Permutation (map State.server ranked) (Spec.survivors net targets)))) /\
  (exists st',
     NetworkAnalyzer.compareAllDNS net st = JS.Completed st' /\
     ((Spec.survivors net NetworkAnalyzer.dnsServers = [] /\
       State.comparisonResults st' = State.comparisonResults st) \/
      (exists ranked,
         State.comparisonResults st' = Some ranked /\
         Permutation (map State.server ranked)
           (Spec.survivors net NetworkAnalyzer.dnsServers)))) /\
  (length (Spec.survivors net targets) + Spec.excluded net targets)%nat
    = length targets /\
  (exists st' r,
     EnhancedNetworkAnalyzer.fallbackDNSComparison
       Scenario.one_up Scenario.two_targets EnhancedNetworkAnalyzer.new
     = JS.Completed st' /\
     State.comparisonResults st' = Some [r] /\
     State.server r = "8.8.8.8" /\ State.avg r == 20 /\
     (State.rows <$> State.panel st') = Some [(1%nat, r)]).
Proof.
  intros Hknown.
  split.
  { apply compare_then_display; [exact enhanced_entry_survivors|exact Hknown]. }
  split.
  { unfold NetworkAnalyzer.compareAllDNS.
    apply (compare_then_display NetworkAnalyzer.shown NetworkAnalyzer.entry
             NetworkAnalyzer.serverLocations
             net NetworkAnalyzer.dnsServers (State.addLog State.LogStartComparison st)).
    - exact basic_entry_survivors.
    - repeat constructor; eexists; vm_compute; reflexivity. }
  split; [apply survivors_excluded|].
  eexists _, _. split; [vm_compute; reflexivity|].
  split; [reflexivity|]. repeat split; vm_compute; reflexivity.
Qed.

Lemma C6_failed_targets_absent_witness :
  Forall (fun t => is_Some (EnhancedNetworkAnalyzer.serverLocations !! t))
    ["9.9.9.9"; "1.1.1.1"] /\
  exists st',
    EnhancedNetworkAnalyzer.fallbackDNSComparison Scenario.one_up
      ["9.9.9.9"; "1.1.1.1"] EnhancedNetworkAnalyzer.new = JS.Completed st' /\
    ((Spec.survivors Scenario.one_up ["9.9.9.9"; "1.1.1.1"] = [] /\
      State.comparisonResults st'
      = State.comparisonResults EnhancedNetworkAnalyzer.new) \/
     (exists ranked,
        State.comparisonResults st' = Some ranked /\
        Permutation (map State.server ranked)
          (Spec.survivors Scenario.one_up ["9.9.9.9"; "1.1.1.1"]))).
Proof.
  assert (Hknown : Forall (fun t => is_Some (EnhancedNetworkAnalyzer.serverLocations !! t))
                     ["9.9.9.9"; "1.1.1.1"])
    by (repeat constructor; eexists; vm_compute; reflexivity).
  split; [exact Hknown|].
  exact (proj1 (C6_failed_targets_absent Scenario.one_up ["9.9.9.9"; "1.1.1.1"]
                  EnhancedNetworkAnalyzer.new Hknown)).
Defined.

(** The comparison of two targets, one of which never answers, stores
    and renders exactly what the comparison of the answering target
    alone does, and its log lines name the targets tested and the
    winner: nothing the comparison produces tells that a target was left
    out, although one was. *)
Lemma C6_exclusion_count_not_reported :
  exists st2 st1,
    EnhancedNetworkAnalyzer.fallbackDNSComparison
      Scenario.one_up Scenario.two_targets EnhancedNetworkAnalyzer.new
    = JS.Completed st2 /\
    EnhancedNetworkAnalyzer.fallbackDNSComparison
      Scenario.one_up ["8.8.8.8"] EnhancedNetworkAnalyzer.new
    = JS.Completed st1 /\
    Spec.excluded Scenario.one_up Scenario.two_targets = 1%nat /\
    Spec.excluded Scenario.one_up ["8.8.8.8"] = 0%nat /\
    State.comparisonResults st2 = State.comparisonResults st1 /\
    State.panel st2 = State.panel st1 /\
    State.logs st2 = [State.LogTesting "Google DNS Primary";
                      State.LogTesting "Cloudflare Primary";
                      State.LogComparisonComplete "Google DNS Primary"].
Proof.
  eexists _, _. split; [vm_compute; reflexivity|].
  split; [vm_compute; reflexivity|].
  repeat split; vm_compute; reflexivity.
Qed.

(** ** The histogram *)

Lemma sum_list_alter_S (bins : list nat) (i : nat) :
  (i < length bins)%nat -> sum_list (alter S i bins) = S (sum_list bins).
Proof.
  revert i. induction bins as [|b bins IH]; intros i Hi; [simpl in Hi; lia|].
  destruct i as [|i]; cbn.
  - reflexivity.
  - rewrite IH by (simpl in Hi; lia). lia.
Qed.

Lemma sum_list_repeat_0 (n : nat) : sum_list (repeat 0%nat n) = 0%nat.
Proof. induction n; simpl; auto. Qed.

Lemma binIndex_in_range (lo binSize : Q) (binCount : nat) (v : Q) :
  0 < binSize -> lo <= v -> (0 < binCount)%nat ->
  exists i, Histogram.binIndex lo binSize binCount v = Some (Z.of_nat i) /\
            (i < binCount)%nat.
Proof.
  intros Hb Hv Hc. unfold Histogram.binIndex.
  destruct (Qeq_bool binSize 0) eqn:E.
  - apply Qeq_bool_iff in E. rewrite E in Hb. exfalso. eapply Qlt_irrefl, Hb.
  - assert (H0 : (0 <= JS.Math_floor ((v - lo) / binSize))%Z).
    { unfold JS.Math_floor. change 0%Z with (Qfloor 0). apply Qfloor_resp_le.
      apply Qle_shift_div_l; [exact Hb|lra]. }
    exists (Z.to_nat (Z.min (JS.Math_floor ((v - lo) / binSize)) (Z.of_nat binCount - 1))).
    split; [f_equal; lia|lia].
Qed.

Lemma fill_counts (lo binSize : Q) (binCount : nat) (values : list Q) (bins : list nat) :
  0 < binSize -> (0 < binCount)%nat -> length bins = binCount ->
  Forall (Qle lo) values ->
  let filled := fold_left
                  (fun bins value =>
                     Histogram.increment bins (Histogram.binIndex lo binSize binCount value))
                  values bins in
  length filled = binCount /\ sum_list filled = (sum_list bins + length values)%nat.
Proof.
  intros Hb Hc Hlen Hall. revert bins Hlen.
  induction Hall as [|v vs Hv Hall IH]; intros bins Hlen; cbv zeta in *.
  - cbn. split; [exact Hlen|lia].
  - cbn [fold_left length].
    destruct (binIndex_in_range lo binSize binCount v Hb Hv Hc) as (i & -> & Hi).
    replace (Histogram.increment bins (Some (Z.of_nat i))) with (alter S i bins).
    2:{ unfold Histogram.increment.
        destruct (0 <=? Z.of_nat i)%Z eqn:E; [|apply Z.leb_gt in E; lia].
        now rewrite Nat2Z.id. }
    destruct (IH (alter S i bins)) as [IH1 IH2]; [now rewrite length_alter|].
    split; [exact IH1|]. rewrite IH2, sum_list_alter_S by lia. lia.
Qed.

Lemma fill_skips (lo binSize : Q) (binCount : nat) (values : list Q) (bins : list nat) :
  binSize == 0 -> Forall (fun v => v == lo) values ->
  fold_left
    (fun bins value =>
       Histogram.increment bins (Histogram.binIndex lo binSize binCount value))
    values bins = bins.
Proof.
  intros Hb Hall. revert bins.
  induction Hall as [|v vs Hv Hall IH]; intros bins; [reflexivity|].
  cbn [fold_left]. unfold Histogram.binIndex at 2.
  apply Qeq_bool_iff in Hb. rewrite Hb.
  assert (Hcmp : (v - lo ?= 0) = Eq) by (apply Qeq_alt; lra).
  rewrite Hcmp. cbn [Histogram.increment]. apply IH.
Qed.

(** With at least two successful samples that are not all equal, the
    histogram has min(10, n) bins and every sample is counted in exactly
    one of them; when all samples are equal the bin width is 0 and no
    sample is counted at all. *)
Theorem histogram_counts_samples (testResults : list (option Q)) :
  (2 <= length (omap id testResults))%nat ->
  exists lo hi bins,
    JS.Math_min (omap id testResults) = Some lo /\
    JS.Math_max (omap id testResults) = Some hi /\
    Histogram.drawHistogram testResults = Some bins /\
    length bins = Nat.min 10 (length (omap id testResults)) /\
    (lo < hi -> sum_list bins = length (omap id testResults)) /\
    (lo == hi -> sum_list bins = 0%nat).
Proof.
  intros Hn. unfold Histogram.drawHistogram.
  set (valid := omap id testResults) in *.
  destruct (length valid <? 2)%nat eqn:E; [apply Nat.ltb_lt in E; lia|clear E].
  destruct valid as [|x tl] eqn:Ev; [simpl in Hn; lia|].
  pose proof (fold_min_is_min tl x) as [_ Hmin].
  pose proof (fold_max_is_max tl x) as [_ Hmax].
  cbn [JS.Math_min JS.Math_max].
  set (lo := fold_left JS.Math_min2 tl x) in *.
  set (hi := fold_left JS.Math_max2 tl x) in *.
  set (binCount := Nat.min 10 (length (x :: tl))).
  assert (Hc : (0 < binCount)%nat) by (unfold binCount; simpl in *; lia).
  assert (HcQ : 0 < inject_Z (Z.of_nat binCount)).
  { change 0 with (inject_Z 0). rewrite <- Zlt_Qlt. lia. }
  set (binSize := (hi - lo) / inject_Z (Z.of_nat binCount)).
  exists lo, hi. eexists. split; [reflexivity|]. split; [reflexivity|].
  split; [reflexivity|].
  destruct (Qlt_le_dec lo hi) as [Hlt|Hle].
  - assert (Hb : 0 < binSize) by (apply Qlt_shift_div_l; [exact HcQ|lra]).
    destruct (fill_counts lo binSize binCount (x :: tl) (repeat 0%nat binCount) Hb Hc
                (repeat_length _ _) Hmin) as [Hl Hs].
    split; [exact Hl|]. split.
    + intros _. rewrite Hs, sum_list_repeat_0. reflexivity.
    + intros Heq. rewrite Heq in Hlt. exfalso. eapply Qlt_irrefl, Hlt.
  - assert (Heq : lo == hi).
    { apply Qle_antisym; [|exact Hle].
      apply Forall_cons in Hmin as [H1 _]. apply Forall_cons in Hmax as [H2 _]. lra. }
    assert (Hb : binSize == 0) by (unfold binSize; rewrite Heq; field; lra).
    rewrite (fill_skips lo binSize binCount (x :: tl) _ Hb).
    + split; [apply repeat_length|]. split.
      * intros Hlt. rewrite Heq in Hlt. exfalso. eapply Qlt_irrefl, Hlt.
      * intros _. apply sum_list_repeat_0.
    + apply Forall_forall. intros v Hv.
      rewrite Forall_forall in Hmin, Hmax.
      pose proof (Hmin v Hv). pose proof (Hmax v Hv). simpl in *. lra.
Qed.

Lemma histogram_counts_samples_witness :
  exists lo hi bins,
    JS.Math_min (omap id [Some 10; None; Some 50; Some 30]) = Some lo /\
    JS.Math_max (omap id [Some 10; None; Some 50; Some 30]) = Some hi /\
    Histogram.drawHistogram [Some 10; None; Some 50; Some 30] = Some bins /\
    length bins = Nat.min 10 (length (omap id [Some 10; None; Some 50; Some 30])) /\
    (lo < hi -> sum_list bins = length (omap id [Some 10; None; Some 50; Some 30])) /\
    (lo == hi -> sum_list bins = 0%nat).
Proof.
  apply (histogram_counts_samples [Some 10; None; Some 50; Some 30]).
  simpl. lia.
Defined.

(** The bins behind the histogram: filled when the samples differ, all
    empty when they are equal. *)
Lemma drawHistogram_bins (testResults : list (option Q)) :
  (2 <= length (omap id testResults))%nat ->
  exists lo hi bins,
    Spec.is_min lo (omap id testResults) /\
    Spec.is_max hi (omap id testResults) /\
    Histogram.drawHistogram testResults = Some bins /\
    (lo < hi -> sum_list bins = length (omap id testResults)) /\
    (lo == hi ->
     bins = repeat 0%nat (Nat.min 10 (length (omap id testResults)))).
Proof.
  intros Hn. unfold Histogram.drawHistogram.
  set (valid := omap id testResults) in *.
  destruct (length valid <? 2)%nat eqn:E; [apply Nat.ltb_lt in E; lia|clear E].
  destruct valid as [|x tl] eqn:Ev; [simpl in Hn; lia|].
  pose proof (fold_min_is_min tl x) as Hmin.
  pose proof (fold_max_is_max tl x) as Hmax.
  cbn [JS.Math_min JS.Math_max].
  set (lo := fold_left JS.Math_min2 tl x) in *.
  set (hi := fold_left JS.Math_max2 tl x) in *.
  set (binCount := Nat.min 10 (length (x :: tl))).
  assert (Hc : (0 < binCount)%nat) by (unfold binCount; simpl in *; lia).
  assert (HcQ : 0 < inject_Z (Z.of_nat binCount)).
  { change 0 with (inject_Z 0). rewrite <- Zlt_Qlt. lia. }
  set (binSize := (hi - lo) / inject_Z (Z.of_nat binCount)).
  exists lo, hi. eexists. split; [exact Hmin|]. split; [exact Hmax|].
  split; [reflexivity|].
  destruct Hmin as [_ Hmin]. destruct Hmax as [_ Hmax].
  destruct (Qlt_le_dec lo hi) as [Hlt|Hle].
  - assert (Hb : 0 < binSize) by (apply Qlt_shift_div_l; [exact HcQ|lra]).
    destruct (fill_counts lo binSize binCount (x :: tl) (repeat 0%nat binCount) Hb Hc
                (repeat_length _ _) Hmin) as [Hl Hs].
    split.
    + intros _. rewrite Hs, sum_list_repeat_0. reflexivity.
    + intros Heq. rewrite Heq in Hlt. exfalso. eapply Qlt_irrefl, Hlt.
  - assert (Heq : lo == hi).
    { apply Qle_antisym; [|exact Hle].
      apply Forall_cons in Hmin as [H1 _]. apply Forall_cons in Hmax as [H2 _]. lra. }
    assert (Hb : binSize == 0) by (unfold binSize; rewrite Heq; field; lra).
    rewrite (fill_skips lo binSize binCount (x :: tl) _ Hb).
    + split.
      * intros Hlt. rewrite Heq in Hlt. exfalso. eapply Qlt_irrefl, Hlt.
      * intros _. reflexivity.
    + apply Forall_forall. intros v Hv.
      rewrite Forall_forall in Hmin, Hmax.
      pose proof (Hmin v Hv). pose proof (Hmax v Hv). simpl in *. lra.
Qed.

Lemma maxBinValue_pos (bins : list nat) :
  (0 < sum_list bins)%nat -> (0 < Histogram.maxBinValue bins)%nat.
Proof.
  unfold Histogram.maxBinValue.
  induction bins as [|b bs IH]; cbn; [lia|]. intros H.
  destruct b; [specialize (IH H)|]; lia.
Qed.

Lemma maxBinValue_empty (n : nat) : Histogram.maxBinValue (repeat 0%nat n) = 0%nat.
Proof. induction n as [|n IH]; [reflexivity|exact IH]. Qed.

(** Drawing fails exactly on two or more samples that are all equal. *)
Lemma draw_throws_iff (testResults : list (option Q)) :
  Histogram.draw testResults = JS.Thrown <-> Spec.flat (omap id testResults).
Proof.
  unfold Histogram.draw, Spec.flat.
  destruct (le_lt_dec 2 (length (omap id testResults))) as [Hn|Hn].
  - destruct (drawHistogram_bins testResults Hn)
      as (lo & hi & bins & [Hlo Hmin] & [Hhi Hmax] & -> & Hfill & Hskip).
    rewrite Forall_forall in Hmin, Hmax.
    destruct (Qlt_le_dec lo hi) as [Hlt|Hle].
    + assert (Hpos : (0 < Histogram.maxBinValue bins)%nat)
        by (apply maxBinValue_pos; rewrite (Hfill Hlt); lia).
      assert (Hall : forallb (fun count =>
                match Histogram.barHeight Histogram.height
                        (Histogram.maxBinValue bins) count with
                | Some _ => true | None => false end) bins = true).
      { apply forallb_forall. intros c _. unfold Histogram.barHeight.
        destruct (Histogram.maxBinValue bins =? 0)%nat eqn:E;
          [apply Nat.eqb_eq in E; lia|reflexivity]. }
      rewrite Hall. split; [discriminate|].
      intros [_ Heq]. specialize (Heq lo hi Hlo Hhi).
      rewrite Heq in Hlt. exfalso. eapply Qlt_irrefl, Hlt.
    + assert (Heq : lo == hi).
      { apply Qle_antisym; [|exact Hle].
        specialize (Hmin hi (proj2 (list_elem_of_In _ _) Hhi)). exact Hmin. }
      rewrite (Hskip Heq), maxBinValue_empty.
      destruct (Nat.min 10 (length (omap id testResults))) as [|k] eqn:Ek; [lia|].
      cbn. split; [|reflexivity]. intros _. split; [exact Hn|].
      intros x y Hx Hy.
      pose proof (Hmin x (proj2 (list_elem_of_In _ _) Hx)).
      pose proof (Hmax x (proj2 (list_elem_of_In _ _) Hx)).
      pose proof (Hmin y (proj2 (list_elem_of_In _ _) Hy)).
      pose proof (Hmax y (proj2 (list_elem_of_In _ _) Hy)).
      cbv beta in *. lra.
  - unfold Histogram.drawHistogram.
    destruct (length (omap id testResults) <? 2)%nat eqn:E;
      [|apply Nat.ltb_ge in E; lia].
    split; [discriminate|]. intros [H _]. lia.
Qed.

Lemma draw_returns_iff (testResults : list (option Q)) :
  Histogram.draw testResults = JS.Returned tt <-> ~ Spec.flat (omap id testResults).
Proof.
  rewrite <- draw_throws_iff.
  destruct (Histogram.draw testResults) as [[]|]; split; intros H;
    try reflexivity; try discriminate; try (exfalso; now apply H).
Qed.

(** [drawHistogram] throws exactly when there are two or more successful
    samples and all of them are equal: every bar height is then 0/0, and
    the canvas refuses the gradient.  In every other case it returns. *)
Theorem histogram_fails_on_equal_samples (testResults : list (option Q)) :
  (Histogram.draw testResults = JS.Thrown <-> Spec.flat (omap id testResults)) /\
  (Histogram.draw testResults = JS.Returned tt <-> ~ Spec.flat (omap id testResults)).
Proof. split; [apply draw_throws_iff|apply draw_returns_iff]. Qed.

(** ** Probing and the sample counters *)

Lemma validResults_app (tr : list (option Q)) (x : option Q) :
  omap id (tr ++ [x]) = omap id tr ++ match x with Some l => [l] | None => [] end.
Proof. rewrite omap_app. destruct x; reflexivity. Qed.

(** The two ways the success branch ends. *)
Lemma record_success_cases testNumber l st :
  let stored :=
    State.set_samples (State.testResults st ++ [Some l]) (State.testCount st)
      (S (State.successCount st)) (State.failCount st)
      (State.push_chart (testNumber, l) st) st in
  (~ Spec.flat (omap id (State.testResults st) ++ [l]) /\
   Probe.record_success testNumber l st
   = JS.Completed (State.addLog (State.LogTestOk testNumber l) stored)) \/
  (Spec.flat (omap id (State.testResults st) ++ [l]) /\
   Probe.record_success testNumber l st = JS.Threw stored).
Proof.
  cbv zeta. unfold Probe.record_success.
  cbn [State.testResults State.set_samples].
  pose proof (draw_throws_iff (State.testResults st ++ [Some l])) as Ht.
  pose proof (draw_returns_iff (State.testResults st ++ [Some l])) as Hr.
  rewrite validResults_app in Ht, Hr.
  destruct (Histogram.draw (State.testResults st ++ [Some l])) as [[]|].
  - left. split; [now apply Hr|reflexivity].
  - right. split; [now apply Ht|reflexivity].
Qed.

Lemma record_counters latency st :
  Spec.counters_match st -> Spec.counters_match (Probe.record latency st).
Proof.
  unfold Spec.counters_match, Probe.record. intros H.
  destruct latency as [[l|]|].
  - destruct (record_success_cases (State.testCount (Probe.count_test st)) l
                (Probe.count_test st)) as [[_ ->]|[_ ->]];
      cbn; rewrite ?length_app; cbn; lia.
  - exact H.
  - cbn. rewrite length_app. cbn. lia.
Qed.

Lemma basic_performSingleTest_counters a st :
  Spec.counters_match st -> Spec.counters_match (NetworkAnalyzer.performSingleTest a st).
Proof. intros H. unfold NetworkAnalyzer.performSingleTest. now apply record_counters. Qed.

Lemma enhanced_performSingleTest_counters a st :
  Spec.counters_match st -> Spec.counters_match (EnhancedNetworkAnalyzer.performSingleTest a st).
Proof.
  intros H. unfold EnhancedNetworkAnalyzer.performSingleTest.
  now apply record_counters.
Qed.

(** The sum of the counters equals the number of samples after any
    sequence of probes, in both classes. *)
Lemma basic_run_counters attempts st :
  Spec.counters_match st -> Spec.counters_match (NetworkAnalyzer.runLimitedTest attempts st).
Proof.
  unfold NetworkAnalyzer.runLimitedTest. revert st.
  induction attempts as [|a l IH]; intros st H; simpl; [exact H|].
  apply IH. now apply basic_performSingleTest_counters.
Qed.

Lemma enhanced_run_counters attempts st :
  Spec.counters_match st ->
  Spec.counters_match (EnhancedNetworkAnalyzer.runLimitedTest attempts st).
Proof.
  unfold EnhancedNetworkAnalyzer.runLimitedTest. revert st.
  induction attempts as [|a l IH]; intros st H; simpl; [exact H|].
  apply IH. now apply enhanced_performSingleTest_counters.
Qed.

(** What one probe of [NetworkAnalyzer] records: a failure marker when
    the measurement throws; the latency when it returns one, followed by
    a failure marker when the histogram of the latencies stored so far
    cannot be drawn. *)
Lemma basic_performSingleTest_samples a st :
  let st' := NetworkAnalyzer.performSingleTest a st in
  State.testCount st' = S (State.testCount st) /\
  State.maxDataPoints st' = State.maxDataPoints st /\
  match Probe.measureLatency st (fst a) (snd a) with
  | JS.Thrown =>
      State.testResults st' = State.testResults st ++ [None] /\
      State.successCount st' = State.successCount st /\
      State.failCount st' = S (State.failCount st) /\
      State.chartData st' = State.chartData st
  | JS.Returned l =>
      State.successCount st' = S (State.successCount st) /\
      State.chartData st' = State.push_chart (S (State.testCount st), l) st /\
      ((~ Spec.flat (omap id (State.testResults st) ++ [l]) /\
        State.testResults st' = State.testResults st ++ [Some l] /\
        State.failCount st' = State.failCount st) \/
       (Spec.flat (omap id (State.testResults st) ++ [l]) /\
        State.testResults st' = State.testResults st ++ [Some l; None] /\
        State.failCount st' = S (State.failCount st)))
  end.
Proof.
  cbv zeta. unfold NetworkAnalyzer.performSingleTest.
  change (Probe.measureLatency (State.add_requests 1 st) (fst a) (snd a))
    with (Probe.measureLatency st (fst a) (snd a)).
  destruct (Probe.measureLatency st (fst a) (snd a)) as [l|].
  - unfold Probe.record.
    destruct (record_success_cases
                (State.testCount (Probe.count_test (State.add_requests 1 st))) l
                (Probe.count_test (State.add_requests 1 st)))
      as [[Hflat ->]|[Hflat ->]]; cbn in Hflat |- *.
    + repeat split. left. repeat split. exact Hflat.
    + repeat split. right. split; [exact Hflat|].
      rewrite <- app_assoc. split; reflexivity.
  - cbn. repeat split.
Qed.

Lemma measureLatency_resolved st startTime endTime :
  Probe.measureLatency st startTime (Probe.Resolved endTime)
  = JS.Returned (endTime - startTime).
Proof. reflexivity. Qed.

Lemma measureLatency_early_failure st startTime endTime :
  endTime - startTime < State.timeout st ->
  Probe.measureLatency st startTime (Probe.Rejected endTime)
  = JS.Returned (endTime - startTime).
Proof.
  intros H. unfold Probe.measureLatency.
  destruct (Qlt_le_dec _ _) as [_|Hle]; [reflexivity|].
  exfalso. eapply Qlt_not_le; eassumption.
Qed.

Lemma measureLatency_late_failure st startTime endTime :
  State.timeout st <= endTime - startTime ->
  Probe.measureLatency st startTime (Probe.Rejected endTime) = JS.Thrown.
Proof.
  intros H. unfold Probe.measureLatency.
  destruct (Qlt_le_dec _ _) as [Hlt|_]; [|reflexivity].
  exfalso. eapply Qlt_not_le; eassumption.
Qed.

(** C2, as the code has it.  A request that fails once the configured
    timeout has elapsed yields no latency: [measureLatency] throws and
    the probe is recorded as a failure ([null] sample, [failCount] + 1,
    nothing added to the successful latencies the statistics are
    computed over).  A request that completes returns its elapsed time,
    and so does a request that fails before the timeout has elapsed; a
    returned latency is stored as a sample, counted as a success and
    added to the successful latencies.  (When the latencies stored so
    far are two or more equal values, the histogram cannot be drawn and
    the same probe is recorded as a failure as well.) *)
Theorem C2_probe_latency_or_failure
    (st : State.Analyzer) (startTime endTime : Q) :
  State.timeout st <= endTime - startTime ->
  Probe.measureLatency st startTime (Probe.Rejected endTime) = JS.Thrown /\
  (let st' := NetworkAnalyzer.performSingleTest (startTime, Probe.Rejected endTime) st in
   State.testResults st' = State.testResults st ++ [None] /\
   State.failCount st' = S (State.failCount st) /\
   State.successCount st' = State.successCount st /\
   omap id (State.testResults st') = omap id (State.testResults st)) /\
  (forall t, Probe.measureLatency st startTime (Probe.Resolved t)
             = JS.Returned (t - startTime)) /\
  (forall t, t - startTime < State.timeout st ->
             Probe.measureLatency st startTime (Probe.Rejected t)
             = JS.Returned (t - startTime)) /\
  (forall o l, Probe.measureLatency st startTime o = JS.Returned l ->
     let st' := NetworkAnalyzer.performSingleTest (startTime, o) st in
     State.successCount st' = S (State.successCount st) /\
     omap id (State.testResults st') = omap id (State.testResults st) ++ [l] /\
     (~ Spec.flat (omap id (State.testResults st) ++ [l]) ->
      State.testResults st' = State.testResults st ++ [Some l] /\
      State.failCount st' = State.failCount st) /\
     (Spec.flat (omap id (State.testResults st) ++ [l]) ->
      State.testResults st' = State.testResults st ++ [Some l; None] /\
      State.failCount st' = S (State.failCount st))).
Proof.
  intros Hlate.
  pose proof (measureLatency_late_failure st startTime endTime Hlate) as Hthrow.
  split; [exact Hthrow|].
  split.
  { pose proof (basic_performSingleTest_samples (startTime, Probe.Rejected endTime) st)
      as (_ & _ & H).
    cbn [fst snd] in H. rewrite Hthrow in H. destruct H as (Hr & Hs & Hf & _).
    cbv zeta. rewrite Hr, Hs, Hf. repeat split.
    rewrite validResults_app. now rewrite app_nil_r. }
  split; [intros t; apply measureLatency_resolved|].
  split; [intros t; apply measureLatency_early_failure|].
  intros o l Hl.
  pose proof (basic_performSingleTest_samples (startTime, o) st) as (_ & _ & H).
  cbn [fst snd] in H. rewrite Hl in H. destruct H as (Hs & _ & H).
  cbv zeta. split; [exact Hs|].
  destruct H as [(Hflat & Hr & Hf)|(Hflat & Hr & Hf)]; rewrite Hr, Hf.
  - split; [apply validResults_app|]. split; [now split|]. intros H. contradiction.
  - split.
    { change [Some l; None] with ([Some l] ++ [@None Q]).
      rewrite app_assoc, validResults_app, validResults_app. now rewrite app_nil_r. }
    split; [intros H; contradiction|now split].
Qed.

Lemma C2_probe_latency_or_failure_witness :
  State.timeout NetworkAnalyzer.new <= 5003 - 0 /\
  Probe.measureLatency NetworkAnalyzer.new 0 (Probe.Rejected 5003) = JS.Thrown /\
  State.testResults
    (NetworkAnalyzer.performSingleTest (0, Probe.Rejected 5003) NetworkAnalyzer.new)
  = [None].
Proof.
  assert (H : State.timeout NetworkAnalyzer.new <= 5003 - 0)
    by (vm_compute; discriminate).
  split; [exact H|].
  pose proof (C2_probe_latency_or_failure NetworkAnalyzer.new 0 5003 H)
    as (Hthrow & (Hres & _) & _).
  split; [exact Hthrow|exact Hres].
Defined.

(** A request that is rejected after 12ms, well before the 5000ms
    timeout, is returned as a latency of 12ms and recorded as a
    success. *)
Lemma C2_early_failure_yields_latency :
  Probe.measureLatency NetworkAnalyzer.new 0 (Probe.Rejected 12) = JS.Returned 12 /\
  State.testResults
    (NetworkAnalyzer.performSingleTest (0, Probe.Rejected 12) NetworkAnalyzer.new)
  = [Some 12] /\
  State.successCount
    (NetworkAnalyzer.performSingleTest (0, Probe.Rejected 12) NetworkAnalyzer.new)
  = 1%nat /\
  State.failCount
    (NetworkAnalyzer.performSingleTest (0, Probe.Rejected 12) NetworkAnalyzer.new)
  = 0%nat.
Proof. repeat split; vm_compute; reflexivity. Qed.

(** C5, at the input where the code departs from it.  When the backend
    answers that the host is not alive, [performSingleTest] of the
    enhanced analyzer counts the test but appends no sample and bumps
    neither counter, whereas [handlePingResult] and
    [handleMonitoringUpdate] record the same answer as a failure. *)
Theorem C5_unreachable_reply_not_recorded :
  let st := EnhancedNetworkAnalyzer.performSingleTest
              Scenario.unreachable_reply EnhancedNetworkAnalyzer.new in
  State.testCount st = 1%nat /\
  State.testResults st = [] /\
  State.successCount st = 0%nat /\
  State.failCount st = 0%nat /\
  State.testResults
    (EnhancedNetworkAnalyzer.handlePingResult false 0 EnhancedNetworkAnalyzer.new)
  = [None] /\
  State.failCount
    (EnhancedNetworkAnalyzer.handlePingResult false 0 EnhancedNetworkAnalyzer.new)
  = 1%nat /\
  State.testResults
    (EnhancedNetworkAnalyzer.handleMonitoringUpdate false 0 EnhancedNetworkAnalyzer.new)
  = [None] /\
  State.failCount
    (EnhancedNetworkAnalyzer.handleMonitoringUpdate false 0 EnhancedNetworkAnalyzer.new)
  = 1%nat.
Proof. repeat split. Qed.

(** * Further properties of the statistics *)

(** ** Mean, minimum and maximum *)

Lemma total_bounds (lo hi : Q) (S : list Q) :
  Forall (Qle lo) S -> Forall (fun x => x <= hi) S ->
  lo * JS.length_Q S <= Spec.total S /\ Spec.total S <= hi * JS.length_Q S.
Proof.
  unfold JS.length_Q. intros Hlo Hhi.
  induction S as [|x S IH].
  - cbn [length Spec.total fold_right].
    change (inject_Z (Z.of_nat 0)) with 0. split; lra.
  - apply Forall_cons in Hlo as [Hx Hlo]. apply Forall_cons in Hhi as [Hx' Hhi].
    destruct (IH Hlo Hhi) as [IH1 IH2].
    change (Spec.total (x :: S)) with (x + Spec.total S).
    cbn [length].
    rewrite Nat2Z.inj_succ. unfold Z.succ. rewrite inject_Z_plus.
    change (inject_Z 1) with 1.
    cbv beta in Hx'. split; nra.
Qed.

Lemma length_Q_pos {A} (l : list A) : l <> [] -> 0 < JS.length_Q l.
Proof.
  intros H. unfold JS.length_Q. change 0 with (inject_Z 0).
  rewrite <- Zlt_Qlt. destruct l; [congruence|simpl; lia].
Qed.

Lemma mean_bounds (lo hi : Q) (S : list Q) :
  S <> [] -> Forall (Qle lo) S -> Forall (fun x => x <= hi) S ->
  lo <= JS.sum S / JS.length_Q S <= hi.
Proof.
  intros HS Hlo Hhi. pose proof (length_Q_pos S HS) as Hn.
  destruct (total_bounds lo hi S Hlo Hhi) as [H1 H2].
  rewrite sum_total. split.
  - apply Qle_shift_div_l; assumption.
  - apply Qle_shift_div_r; assumption.
Qed.

(** ** Jitter of the backend *)

(** The backend's [calculateJitter] on raw ping times, failed pings
    included as [null], is the front end's jitter of the successful
    times. *)
Theorem server_jitter_ignores_failures (times : list (option Q)) :
  Server.calculateJitter times == Stats.calculateJitter (omap id times).
Proof.
  unfold Server.calculateJitter, Stats.calculateJitter.
  destruct (length times <? 2)%nat eqn:E.
  - apply Nat.ltb_lt in E.
    assert (H : (length (omap id times) <= length times)%nat).
    { clear E. induction times as [|[t|] l IH]; cbn; lia. }
    destruct (length (omap id times) <? 2)%nat eqn:E'; [reflexivity|].
    apply Nat.ltb_ge in E'. lia.
  - destruct (length (omap id times) <? 2)%nat; reflexivity.
Qed.

(** ** Percentiles *)

Lemma sorted_nth_le (l : list Q) (i j : nat) :
  Spec.ascending l -> (i <= j)%nat -> (j < length l)%nat ->
  nth i l 0 <= nth j l 0.
Proof.
  unfold Spec.ascending. intros Hs. revert i j.
  induction Hs as [|x l Hs IH Hall]; intros i j Hij Hj; [simpl in Hj; lia|].
  destruct i as [|i], j as [|j]; simpl in *; try lia.
  - apply Qle_refl.
  - rewrite Forall_forall in Hall. apply Hall, list_elem_of_In, nth_In. lia.
  - apply IH; lia.
Qed.

Lemma Qceiling_le_floor_succ (x : Q) : (Qceiling x <= Qfloor x + 1)%Z.
Proof.
  pose proof (Qlt_floor x) as H. apply Qlt_le_weak, Qceiling_resp_le in H.
  now rewrite Qceiling_Z in H.
Qed.

Lemma Qfloor_le_ceiling (x : Q) : (Qfloor x <= Qceiling x)%Z.
Proof.
  rewrite Zle_Qle. eapply Qle_trans; [apply Qfloor_le|apply Qle_ceiling].
Qed.

Lemma index_range (n : nat) (idx : Q) :
  0 <= idx <= inject_Z (Z.of_nat (n - 1)) -> (0 < n)%nat ->
  (0 <= Qfloor idx)%Z /\ (Qceiling idx < Z.of_nat n)%Z.
Proof.
  intros [H0 H1] Hn. split.
  - change 0%Z with (Qfloor 0). now apply Qfloor_resp_le.
  - apply Qceiling_resp_le in H1. rewrite Qceiling_Z in H1. lia.
Qed.

(** Between two neighbours of an ascending list the interpolated value
    stays between them. *)
Lemma at_index_between (sorted : list Q) (idx : Q) :
  Spec.ascending sorted -> (0 < length sorted)%nat ->
  0 <= idx <= inject_Z (Z.of_nat (length sorted - 1)) ->
  nth (Z.to_nat (Qfloor idx)) sorted 0 <= Piecewise.at_index sorted idx
  /\ Piecewise.at_index sorted idx <= nth (Z.to_nat (Qceiling idx)) sorted 0.
Proof.
  intros Hs Hn Hidx. destruct (index_range _ idx Hidx Hn) as [Hlo Hhi].
  pose proof (Qfloor_le_ceiling idx) as Hlh.
  pose proof (Qfloor_le idx) as Hf. pose proof (Qlt_floor idx) as Hf'.
  assert (Hord : nth (Z.to_nat (Qfloor idx)) sorted 0
                 <= nth (Z.to_nat (Qceiling idx)) sorted 0)
    by (apply sorted_nth_le; [exact Hs|lia|lia]).
  unfold Piecewise.at_index.
  rewrite inject_Z_plus in Hf'. change (inject_Z 1) with 1 in Hf'.
  set (a := nth (Z.to_nat (Qfloor idx)) sorted 0) in *.
  set (b := nth (Z.to_nat (Qceiling idx)) sorted 0) in *.
  set (k := inject_Z (Qfloor idx)) in *.
  split; nra.
Qed.

Lemma at_index_monotone (sorted : list Q) (i1 i2 : Q) :
  Spec.ascending sorted -> (0 < length sorted)%nat ->
  0 <= i1 -> i1 <= i2 -> i2 <= inject_Z (Z.of_nat (length sorted - 1)) ->
  Piecewise.at_index sorted i1 <= Piecewise.at_index sorted i2.
Proof.
  intros Hs Hn H0 H12 H2.
  assert (R1 : 0 <= i1 <= inject_Z (Z.of_nat (length sorted - 1))) by (split; lra).
  assert (R2 : 0 <= i2 <= inject_Z (Z.of_nat (length sorted - 1))) by (split; lra).
  destruct (index_range _ i1 R1 Hn) as [Hlo1 Hhi1].
  destruct (index_range _ i2 R2 Hn) as [Hlo2 Hhi2].
  destruct (at_index_between sorted i1 Hs Hn R1) as [_ Hup1].
  destruct (at_index_between sorted i2 Hs Hn R2) as [Hdn2 _].
  destruct (Z_le_gt_dec (Qceiling i1) (Qfloor i2)) as [Hsep|Hsame].
  - eapply Qle_trans; [exact Hup1|]. eapply Qle_trans; [|exact Hdn2].
    apply sorted_nth_le; [exact Hs|lia|].
    pose proof (Qfloor_le_ceiling i2). lia.
  - pose proof (Qfloor_resp_le _ _ H12) as Hff.
    pose proof (Qceiling_resp_le _ _ H12) as Hcc.
    pose proof (Qceiling_le_floor_succ i1) as Hc1.
    pose proof (Qceiling_le_floor_succ i2) as Hc2.
    assert (Ef : Qfloor i2 = Qfloor i1) by lia.
    assert (Ec1 : Qceiling i1 = (Qfloor i1 + 1)%Z) by lia.
    assert (Ec2 : Qceiling i2 = (Qfloor i1 + 1)%Z) by lia.
    unfold Piecewise.at_index. rewrite Ef, Ec1, Ec2.
    assert (Hord : nth (Z.to_nat (Qfloor i1)) sorted 0
                   <= nth (Z.to_nat (Qfloor i1 + 1)) sorted 0)
      by (apply sorted_nth_le; [exact Hs|lia|lia]).
    set (a := nth (Z.to_nat (Qfloor i1)) sorted 0) in *.
    set (b := nth (Z.to_nat (Qfloor i1 + 1)) sorted 0) in *.
    set (k := inject_Z (Qfloor i1)) in *.
    nra.
Qed.

Lemma fraction_index_range (n : nat) (p : Q) :
  0 <= p <= 1 ->
  0 <= inject_Z (Z.of_nat (n - 1)) * p <= inject_Z (Z.of_nat (n - 1)).
Proof.
  intros [H0 H1].
  assert (Hm : 0 <= inject_Z (Z.of_nat (n - 1))).
  { change 0 with (inject_Z 0). rewrite <- Zle_Qle. lia. }
  set (m := inject_Z (Z.of_nat (n - 1))) in *. split; nra.
Qed.

Lemma percentile_at_index (S : list Q) (p : Q) :
  S <> [] -> 0 <= p <= 1 ->
  exists v,
    Stats.percentile S p = Some v /\
    v == Piecewise.at_index (JS.sort Stats.ascending S)
           (inject_Z (Z.of_nat (length S - 1)) * p).
Proof.
  intros HS Hp.
  assert (Hn : (0 < length S)%nat) by (destruct S; [congruence|simpl; lia]).
  destruct (interpolate_spec (JS.sort Stats.ascending S) p) as (v & Hv & Hspec);
    [rewrite sort_length; exact Hn|exact Hp|].
  exists v. split.
  - unfold Stats.percentile.
    destruct (length S =? 0)%nat eqn:E; [apply Nat.eqb_eq in E; lia|exact Hv].
  - rewrite Hspec. unfold Spec.interpolation, Piecewise.at_index.
    rewrite sort_length. reflexivity.
Qed.

Lemma percentile_bounds (S : list Q) (p : Q) :
  S <> [] -> 0 <= p <= 1 ->
  exists lo v hi,
    JS.Math_min S = Some lo /\ JS.Math_max S = Some hi /\
    Stats.percentile S p = Some v /\ lo <= v <= hi.
Proof.
  intros HS Hp. destruct (percentile_at_index S p HS Hp) as (v & Hv & Hat).
  destruct S as [|x tl]; [congruence|].
  pose proof (fold_min_is_min tl x) as [_ Hmin].
  pose proof (fold_max_is_max tl x) as [_ Hmax].
  exists (fold_left JS.Math_min2 tl x), v, (fold_left JS.Math_max2 tl x).
  split; [reflexivity|]. split; [reflexivity|]. split; [exact Hv|].
  set (S := x :: tl) in *. set (sorted := JS.sort Stats.ascending S) in *.
  assert (HP : Permutation S sorted) by apply sort_perm.
  assert (Hn : (0 < length sorted)%nat)
    by (unfold sorted; rewrite sort_length; simpl; lia).
  pose proof (fraction_index_range (length S) p Hp) as Hidx.
  rewrite <- (sort_length Stats.ascending S) in Hidx. fold sorted in Hidx.
  rewrite <- (sort_length Stats.ascending S) in Hat. fold sorted in Hat.
  destruct (at_index_between sorted _ (sort_ascending S) Hn Hidx) as [Hdn Hup].
  destruct (index_range _ _ Hidx Hn) as [Hlo Hhi].
  pose proof (Qfloor_le_ceiling (inject_Z (Z.of_nat (length sorted - 1)) * p)) as Hlh.
  rewrite Forall_forall in Hmin, Hmax.
  rewrite Hat. split.
  - eapply Qle_trans; [|exact Hdn].
    apply Hmin, list_elem_of_In, (nth_In_perm S sorted); [exact HP|lia].
  - eapply Qle_trans; [exact Hup|].
    apply Hmax, list_elem_of_In, (nth_In_perm S sorted); [exact HP|lia].
Qed.

(** A percentile never leaves the range of the samples. *)
Theorem percentile_within_range (S : list Q) (p : Q) :
  S <> [] -> 0 <= p <= 1 ->
  exists lo v hi,
    JS.Math_min S = Some lo /\ JS.Math_max S = Some hi /\
    Stats.percentile S p = Some v /\ lo <= v <= hi.
Proof. exact (percentile_bounds S p). Qed.

Lemma percentile_order (S : list Q) (p q : Q) :
  S <> [] -> 0 <= p -> p <= q -> q <= 1 ->
  exists a b,
    Stats.percentile S p = Some a /\ Stats.percentile S q = Some b /\ a <= b.
Proof.
  intros HS H0 Hpq H1.
  destruct (percentile_at_index S p HS) as (a & Ha & Hat_a); [split; lra|].
  destruct (percentile_at_index S q HS) as (b & Hb & Hat_b); [split; lra|].
  exists a, b. split; [exact Ha|]. split; [exact Hb|].
  rewrite Hat_a, Hat_b.
  assert (Hn : (0 < length (JS.sort Stats.ascending S))%nat)
    by (rewrite sort_length; destruct S; [congruence|simpl; lia]).
  assert (Hm : 0 <= inject_Z (Z.of_nat (length S - 1))).
  { change 0 with (inject_Z 0). rewrite <- Zle_Qle. lia. }
  apply at_index_monotone; [apply sort_ascending|exact Hn|..];
    rewrite ?sort_length;
    set (m := inject_Z (Z.of_nat (length S - 1))) in *; nra.
Qed.

(** A higher percentile is never lower: in particular P95 <= P99. *)
Theorem percentile_monotone (S : list Q) (p q : Q) :
  S <> [] -> 0 <= p -> p <= q -> q <= 1 ->
  exists a b,
    Stats.percentile S p = Some a /\ Stats.percentile S q = Some b /\ a <= b.
Proof. exact (percentile_order S p q). Qed.

Lemma percentile_within_range_witness :
  exists lo v hi,
    JS.Math_min [30; 10; 40; 20] = Some lo /\ JS.Math_max [30; 10; 40; 20] = Some hi /\
    Stats.percentile [30; 10; 40; 20] (95 # 100) = Some v /\ lo <= v <= hi.
Proof.
  apply (percentile_within_range [30; 10; 40; 20] (95 # 100)).
  - discriminate.
  - split; vm_compute; discriminate.
Defined.

Lemma percentile_monotone_witness :
  exists a b,
    Stats.percentile [30; 10; 40; 20] (95 # 100) = Some a /\
    Stats.percentile [30; 10; 40; 20] (99 # 100) = Some b /\ a <= b.
Proof.
  apply (percentile_monotone [30; 10; 40; 20] (95 # 100) (99 # 100));
    [discriminate|vm_compute; discriminate..].
Defined.

Lemma min_is_unique (S : list Q) (a b : Q) :
  Spec.is_min a S -> Spec.is_min b S -> a == b.
Proof.
  intros [Ha Hla] [Hb Hlb]. rewrite Forall_forall in Hla, Hlb.
  apply Qle_antisym; [apply Hla|apply Hlb]; now apply list_elem_of_In.
Qed.

Lemma max_is_unique (S : list Q) (a b : Q) :
  Spec.is_max a S -> Spec.is_max b S -> a == b.
Proof.
  intros [Ha Hla] [Hb Hlb]. rewrite Forall_forall in Hla, Hlb.
  apply Qle_antisym; [apply Hlb|apply Hla]; now apply list_elem_of_In.
Qed.

Lemma sorted_first_is_min (S sorted : list Q) :
  Permutation S sorted -> Spec.ascending sorted -> (0 < length sorted)%nat ->
  Spec.is_min (nth 0 sorted 0) S.
Proof.
  intros HP Hs Hn. split.
  - now apply (nth_In_perm S sorted).
  - apply Forall_forall. intros x Hx. apply list_elem_of_In in Hx.
    apply (Permutation_in _ HP) in Hx.
    destruct (In_nth _ _ 0 Hx) as (j & Hj & <-).
    apply sorted_nth_le; [exact Hs|lia|exact Hj].
Qed.

Lemma sorted_last_is_max (S sorted : list Q) :
  Permutation S sorted -> Spec.ascending sorted -> (0 < length sorted)%nat ->
  Spec.is_max (nth (length sorted - 1) sorted 0) S.
Proof.
  intros HP Hs Hn. split.
  - apply (nth_In_perm S sorted); [exact HP|lia].
  - apply Forall_forall. intros x Hx. apply list_elem_of_In in Hx.
    apply (Permutation_in _ HP) in Hx.
    destruct (In_nth _ _ 0 Hx) as (j & Hj & <-).
    apply sorted_nth_le; [exact Hs|lia|lia].
Qed.

(** The 0th percentile is the minimum and the 100th the maximum. *)
Theorem percentile_end_points (S : list Q) :
  S <> [] ->
  exists lo hi v0 v1,
    JS.Math_min S = Some lo /\ JS.Math_max S = Some hi /\
    Stats.percentile S 0 = Some v0 /\ v0 == lo /\
    Stats.percentile S 1 = Some v1 /\ v1 == hi.
Proof.
  intros HS.
  destruct (percentile_at_index S 0 HS) as (v0 & Hv0 & Hat0); [split; lra|].
  destruct (percentile_at_index S 1 HS) as (v1 & Hv1 & Hat1); [split; lra|].
  destruct S as [|x tl]; [congruence|].
  pose proof (fold_min_is_min tl x) as Hmin.
  pose proof (fold_max_is_max tl x) as Hmax.
  exists (fold_left JS.Math_min2 tl x), (fold_left JS.Math_max2 tl x), v0, v1.
  split; [reflexivity|]. split; [reflexivity|].
  set (S := x :: tl) in *. set (sorted := JS.sort Stats.ascending S) in *.
  assert (HP : Permutation S sorted) by apply sort_perm.
  assert (Hlen : length sorted = length S) by apply sort_length.
  assert (Hn : (0 < length sorted)%nat) by (rewrite Hlen; simpl; lia).
  split; [exact Hv0|]. split; [|split; [exact Hv1|]].
  - rewrite Hat0.
    assert (E : inject_Z (Z.of_nat (length S - 1)) * 0 == inject_Z 0)
      by (change (inject_Z 0) with 0; ring).
    unfold Piecewise.at_index.
    rewrite (Qfloor_comp _ _ E), (Qceiling_comp _ _ E), Qfloor_Z, Qceiling_Z.
    change (Z.to_nat 0) with 0%nat.
    transitivity (nth 0 sorted 0); [ring|].
    apply (min_is_unique S); [|exact Hmin].
    apply sorted_first_is_min; [exact HP|apply sort_ascending|exact Hn].
  - rewrite Hat1.
    assert (E : inject_Z (Z.of_nat (length S - 1)) * 1
                == inject_Z (Z.of_nat (length S - 1))) by ring.
    unfold Piecewise.at_index.
    rewrite (Qfloor_comp _ _ E), (Qceiling_comp _ _ E), Qfloor_Z, Qceiling_Z.
    rewrite Nat2Z.id, <- Hlen.
    transitivity (nth (length sorted - 1) sorted 0); [ring|].
    apply (max_is_unique S); [|exact Hmax].
    apply sorted_last_is_max; [exact HP|apply sort_ascending|exact Hn].
Qed.

Lemma percentile_end_points_witness :
  exists lo hi v0 v1,
    JS.Math_min [30; 10; 40; 20] = Some lo /\ JS.Math_max [30; 10; 40; 20] = Some hi /\
    Stats.percentile [30; 10; 40; 20] 0 = Some v0 /\ v0 == lo /\
    Stats.percentile [30; 10; 40; 20] 1 = Some v1 /\ v1 == hi.
Proof. apply (percentile_end_points [30; 10; 40; 20]). discriminate. Defined.

(** ** Variance *)

Lemma square_nonneg (y : Q) : 0 <= y ^ 2.
Proof. change (y ^ 2) with (y * y). nra. Qed.

Lemma fold_left_squares (avg : Q) (l : list Q) (acc : Q) :
  fold_left (fun acc val => acc + (val - avg) ^ 2) l acc
  == acc + Spec.total (map (fun val => (val - avg) ^ 2) l).
Proof.
  revert acc. induction l as [|x l IH]; intros acc.
  - simpl. ring.
  - cbn [fold_left map]. rewrite IH.
    change (Spec.total ((x - avg) ^ 2 :: map (fun val => (val - avg) ^ 2) l))
      with ((x - avg) ^ 2 + Spec.total (map (fun val => (val - avg) ^ 2) l)).
    ring.
Qed.

Lemma total_squares_nonneg (avg : Q) (l : list Q) :
  0 <= Spec.total (map (fun val => (val - avg) ^ 2) l).
Proof.
  induction l as [|x l IH]; [simpl; lra|].
  change (Spec.total (map (fun val => (val - avg) ^ 2) (x :: l)))
    with ((x - avg) ^ 2 + Spec.total (map (fun val => (val - avg) ^ 2) l)).
  pose proof (square_nonneg (x - avg)). lra.
Qed.

(** The variance under the square root of [getStdDev] is never
    negative, so the root is a number for every non-empty list. *)
Theorem variance_nonnegative (values : list Q) :
  values <> [] ->
  exists v, Stats.variance values = Some v /\ 0 <= v.
Proof.
  intros Hne. pose proof (length_Q_pos values Hne) as Hn.
  unfold Stats.variance.
  destruct (length values =? 0)%nat eqn:E;
    [apply Nat.eqb_eq in E; destruct values; [congruence|discriminate]|].
  eexists. split; [reflexivity|].
  set (avg := JS.sum values / JS.length_Q values).
  rewrite fold_left_squares.
  pose proof (total_squares_nonneg avg values).
  apply Qle_shift_div_l; [exact Hn|lra].
Qed.

Lemma variance_nonnegative_witness :
  exists v, Stats.variance [20; 35; 20] = Some v /\ 0 <= v.
Proof. apply (variance_nonnegative [20; 35; 20]). discriminate. Defined.

(** ** Quality score: monotonicity and saturation *)

Lemma Math_min2_monotone (a b c : Q) :
  a <= b -> JS.Math_min2 a c <= JS.Math_min2 b c.
Proof.
  intros H. rewrite !Math_min2_Qmin. apply Q.min_le_compat_r. exact H.
Qed.

Lemma score_of_antitone (Ln Jn Pn Ln' Jn' Pn' : Q) :
  Ln <= Ln' -> Jn <= Jn' -> Pn <= Pn' ->
  (Quality.score_of Ln' Jn' Pn' <= Quality.score_of Ln Jn Pn)%Z.
Proof.
  intros HL HJ HP. unfold Quality.score_of, JS.Math_round.
  apply Z.max_le_compat_l, Z.min_le_compat_r, Qfloor_resp_le. lra.
Qed.

Lemma div_le_compat (a b c : Q) : 0 < c -> a <= b -> a / c <= b / c.
Proof.
  intros Hc H. unfold Qdiv. apply Qmult_le_compat_r; [exact H|].
  apply Qinv_le_0_compat, Qlt_le_weak, Hc.
Qed.

(** A run with a higher average latency, a higher jitter or a higher
    loss never gets a better score. *)
Theorem score_never_rewards_worse_metrics (avg jitter loss avg' jitter' loss' : Q) :
  avg <= avg' -> jitter <= jitter' -> loss <= loss' ->
  (Quality.score avg' jitter' loss' <= Quality.score avg jitter loss)%Z.
Proof.
  intros Ha Hj Hl. unfold Quality.score, Quality.Ln_of, Quality.Jn_of, Quality.Pn_of.
  apply score_of_antitone; apply Math_min2_monotone; apply div_le_compat;
    first [assumption | lra].
Qed.

Lemma score_never_rewards_worse_metrics_witness :
  (Quality.score 120 30 5 <= Quality.score 80 30 0)%Z.
Proof.
  apply (score_never_rewards_worse_metrics 80 30 0 120 30 5);
    vm_compute; discriminate.
Defined.

Lemma Math_min2_saturates (x : Q) : 1 <= x -> JS.Math_min2 x 1 == 1.
Proof. intros H. rewrite Math_min2_Qmin. now apply Q.min_r. Qed.

(** Beyond the ceilings (300ms, 100ms, 10%) a metric no longer changes
    the score, and with all three at or beyond their ceiling the score
    is 0. *)
Theorem score_saturates (avg jitter loss : Q) :
  300 <= avg -> 100 <= jitter -> 10 <= loss ->
  (forall j l, Quality.score avg j l = Quality.score 300 j l) /\
  (forall a l, Quality.score a jitter l = Quality.score a 100 l) /\
  (forall a j, Quality.score a j loss = Quality.score a j 10) /\
  Quality.score avg jitter loss = 0%Z.
Proof.
  intros Ha Hj Hl.
  assert (EL : Quality.Ln_of avg == 1).
  { unfold Quality.Ln_of. apply Math_min2_saturates.
    apply Qle_shift_div_l; lra. }
  assert (EJ : Quality.Jn_of jitter == 1).
  { unfold Quality.Jn_of. apply Math_min2_saturates.
    apply Qle_shift_div_l; lra. }
  assert (EP : Quality.Pn_of loss == 1).
  { unfold Quality.Pn_of. apply Math_min2_saturates.
    apply Qle_shift_div_l; lra. }
  assert (EL0 : Quality.Ln_of 300 == 1) by (vm_compute; reflexivity).
  assert (EJ0 : Quality.Jn_of 100 == 1) by (vm_compute; reflexivity).
  assert (EP0 : Quality.Pn_of 10 == 1) by (vm_compute; reflexivity).
  assert (Hscore : forall L J P L' J' P', L == L' -> J == J' -> P == P' ->
            Quality.score_of L J P = Quality.score_of L' J' P').
  { intros L J P L' J' P' H1 H2 H3. unfold Quality.score_of, JS.Math_round.
    do 2 f_equal. apply Qfloor_comp. rewrite H1, H2, H3. reflexivity. }
  unfold Quality.score.
  split; [intros j l; apply Hscore; [rewrite EL, EL0|..]; reflexivity|].
  split; [intros a l; apply Hscore; [|rewrite EJ, EJ0|]; reflexivity|].
  split; [intros a j; apply Hscore; [| |rewrite EP, EP0]; reflexivity|].
  rewrite (Hscore _ _ _ 1 1 1 EL EJ EP). reflexivity.
Qed.

Lemma score_saturates_witness :
  (forall j l, Quality.score 450 j l = Quality.score 300 j l) /\
  (forall a l, Quality.score a 180 l = Quality.score a 100 l) /\
  (forall a j, Quality.score a j 25 = Quality.score a j 10) /\
  Quality.score 450 180 25 = 0%Z.
Proof. apply (score_saturates 450 180 25); vm_compute; discriminate. Defined.

(** * Further properties of the comparison *)

(** ** Stability and idempotence of the ranking *)


Section SortMore.
Context {A : Type} (cmp : A -> A -> Q) (key : A -> Q) (P : A -> Prop).
Hypothesis cmp_key : forall a b, P a -> P b -> (cmp a b <= 0 <-> key a <= key b).

(** A list that is already in order is left as it is. *)
Lemma sort_fixes_sorted l :
  Forall P l -> Spec.ascending_by key l -> JS.sort cmp l = l.
Proof using cmp_key.
  unfold Spec.ascending_by. intros HP Hs. revert HP.
  induction Hs as [|x tl Hs IH Hall]; intros HP; [reflexivity|].
  apply Forall_cons in HP as [Px HP].
  cbn [JS.sort fold_right]. fold (JS.sort cmp tl). rewrite (IH HP).
  destruct tl as [|y tl']; [reflexivity|].
  apply Forall_cons in HP as [Py _]. apply Forall_cons in Hall as [Hxy _].
  cbn [JS.sort_insert].
  apply (cmp_key _ _ Px Py), Qle_bool_iff in Hxy. now rewrite Hxy.
Qed.

Lemma sort_idempotent l :
  Forall P l -> JS.sort cmp (JS.sort cmp l) = JS.sort cmp l.
Proof using cmp_key.
  intros HP. apply sort_fixes_sorted.
  - eapply Permutation_Forall; [apply sort_perm|exact HP].
  - now apply (sort_sorted cmp key P).
Qed.

(** Elements with the same key keep their relative order. *)
Lemma sort_insert_stable (k : Q) x l :
  P x -> Forall P l ->
  List.filter (fun r => Qeq_bool (key r) k) (JS.sort_insert cmp x l)
  = List.filter (fun r => Qeq_bool (key r) k) (x :: l).
Proof using cmp_key.
  intros Px HP. induction HP as [|y tl Py HP IH]; [reflexivity|].
  cbn [JS.sort_insert].
  destruct (Qle_bool (cmp x y) 0) eqn:E; [reflexivity|].
  assert (Hlt : key y < key x).
  { destruct (Qlt_le_dec (key y) (key x)) as [Hlt|Hle]; [exact Hlt|].
    apply (cmp_key _ _ Px Py), Qle_bool_iff in Hle. congruence. }
  cbn [List.filter] in *. rewrite IH.
  destruct (Qeq_bool (key y) k) eqn:Ey, (Qeq_bool (key x) k) eqn:Ex;
    try reflexivity.
  apply Qeq_bool_iff in Ey, Ex. rewrite Ey, Ex in Hlt.
  exfalso. eapply Qlt_irrefl, Hlt.
Qed.

Lemma sort_stable (k : Q) l :
  Forall P l ->
  List.filter (fun r => Qeq_bool (key r) k) (JS.sort cmp l)
  = List.filter (fun r => Qeq_bool (key r) k) l.
Proof using cmp_key.
  induction 1 as [|x tl Px HP IH]; [reflexivity|].
  cbn [JS.sort fold_right]. fold (JS.sort cmp tl).
  rewrite sort_insert_stable;
    [|exact Px|eapply Permutation_Forall; [apply sort_perm|exact HP]].
  cbn [List.filter]. now rewrite IH.
Qed.

End SortMore.

(** Entries that tie under the sort key keep the order in which they
    were collected, and ranking an already ranked set changes nothing. *)
Theorem ranking_is_stable (key : State.SortKey)
    (results : list State.ComparisonResult) :
  Forall (Spec.defines key) results ->
  (forall k, Ranking.tied key k (JS.sort (State.compareBy key) results)
             = Ranking.tied key k results) /\
  JS.sort (State.compareBy key) (JS.sort (State.compareBy key) results)
  = JS.sort (State.compareBy key) results.
Proof.
  intros Hdef. split.
  - intros k. unfold Ranking.tied.
    apply (sort_stable _ (Ranking.rank_value key) (Spec.defines key));
      [apply compareBy_rank_value|exact Hdef].
  - apply (sort_idempotent _ (Ranking.rank_value key) (Spec.defines key));
      [apply compareBy_rank_value|exact Hdef].
Qed.

Lemma ranking_is_stable_witness :
  (forall k, Ranking.tied State.by_jitter k
               (JS.sort (State.compareBy State.by_jitter)
                  [Scenario.cloudflare; Scenario.google])
             = Ranking.tied State.by_jitter k [Scenario.cloudflare; Scenario.google]) /\
  JS.sort (State.compareBy State.by_jitter)
    (JS.sort (State.compareBy State.by_jitter) [Scenario.cloudflare; Scenario.google])
  = JS.sort (State.compareBy State.by_jitter) [Scenario.cloudflare; Scenario.google].
Proof.
  apply (ranking_is_stable State.by_jitter [Scenario.cloudflare; Scenario.google]).
  repeat constructor; eexists; reflexivity.
Defined.

Lemma compareBy_idempotent key results :
  Forall (Spec.defines key) results ->
  JS.sort (State.compareBy key) (JS.sort (State.compareBy key) results)
  = JS.sort (State.compareBy key) results.
Proof.
  intros Hdef.
  apply (sort_idempotent _ (Ranking.rank_value key) (Spec.defines key));
    [apply compareBy_rank_value|exact Hdef].
Qed.

Lemma display_stores shown results st :
  State.comparisonResults
    (JS.after (State.displayComparisonResults shown results st))
  = match results with
    | [] => State.comparisonResults st
    | _ :: _ => Some (JS.sort (State.compareBy (State.currentSort st)) results)
    end.
Proof.
  destruct results as [|r rs]; [reflexivity|].
  now destruct (display_ranks shown (r :: rs) st ltac:(discriminate)) as [H _].
Qed.

Lemma enhanced_sortComparison_stores key st results :
  State.comparisonResults st = Some results ->
  State.comparisonResults (JS.after (EnhancedNetworkAnalyzer.sortComparison key st))
  = Some (JS.sort (State.compareBy key) results).
Proof.
  intros Hst. unfold EnhancedNetworkAnalyzer.sortComparison. rewrite Hst.
  rewrite display_stores. destruct results; [exact Hst|reflexivity].
Qed.

(** [NetworkAnalyzer.sortComparison] sorts before it displays and
    [EnhancedNetworkAnalyzer.sortComparison] only displays: on the same
    stored result set both store the same ranking, and selecting the
    same key again leaves it as it is. *)
Theorem sortComparison_variants_agree
    (st : State.Analyzer) (key : State.SortKey)
    (results : list State.ComparisonResult) :
  State.comparisonResults st = Some results ->
  Forall (Spec.defines key) results ->
  State.comparisonResults (JS.after (NetworkAnalyzer.sortComparison key st))
  = Some (JS.sort (State.compareBy key) results) /\
  State.comparisonResults (JS.after (EnhancedNetworkAnalyzer.sortComparison key st))
  = Some (JS.sort (State.compareBy key) results) /\
  State.comparisonResults
    (JS.after (EnhancedNetworkAnalyzer.sortComparison key
                 (JS.after (EnhancedNetworkAnalyzer.sortComparison key st))))
  = Some (JS.sort (State.compareBy key) results).
Proof.
  intros Hst Hdef.
  pose proof (compareBy_idempotent key results Hdef) as Hidem.
  split; [|split].
  - unfold NetworkAnalyzer.sortComparison. rewrite Hst, display_stores.
    destruct (JS.sort (State.compareBy key) results) eqn:E; [reflexivity|].
    cbn [State.currentSort State.set_comparisonResults State.set_currentSort].
    f_equal. exact Hidem.
  - now apply enhanced_sortComparison_stores.
  - rewrite (enhanced_sortComparison_stores key _ (JS.sort (State.compareBy key) results)).
    + f_equal. exact Hidem.
    + now apply enhanced_sortComparison_stores.
Qed.

Lemma sortComparison_variants_agree_witness :
  State.comparisonResults
    (JS.after (NetworkAnalyzer.sortComparison State.by_jitter Scenario.compared))
  = Some (JS.sort (State.compareBy State.by_jitter) [Scenario.cloudflare; Scenario.google]) /\
  State.comparisonResults
    (JS.after (EnhancedNetworkAnalyzer.sortComparison State.by_jitter Scenario.compared))
  = Some (JS.sort (State.compareBy State.by_jitter) [Scenario.cloudflare; Scenario.google]) /\
  State.comparisonResults
    (JS.after (EnhancedNetworkAnalyzer.sortComparison State.by_jitter
                 (JS.after (EnhancedNetworkAnalyzer.sortComparison State.by_jitter
                              Scenario.compared))))
  = Some (JS.sort (State.compareBy State.by_jitter) [Scenario.cloudflare; Scenario.google]).
Proof.
  apply (sortComparison_variants_agree Scenario.compared State.by_jitter
           [Scenario.cloudflare; Scenario.google]).
  - reflexivity.
  - repeat constructor; eexists; reflexivity.
Defined.

(** ** The winner *)

(** When the panel is rendered, the entry on its 'Best' line is first
    under the current sort key: it is ranked no later than any collected
    entry (none has a lower average, under the default key; none has a
    higher success rate, under successRate). *)
Theorem best_is_first_in_ranking (shown : State.SortKey)
    (results : list State.ComparisonResult) (st : State.Analyzer) :
  results <> [] ->
  Forall (Spec.measured (State.currentSort st)) results ->
  Forall (Spec.measured shown) results ->
  exists st' pnl b,
    State.displayComparisonResults shown results st = JS.Completed st' /\
    State.panel st' = Some pnl /\ State.best pnl = Some b /\ In b results /\
    Forall (Spec.no_later (State.currentSort st) b) results.
Proof.
  intros Hne Hkey Hshown.
  destruct results as [|r0 rs]; [congruence|].
  unfold State.displayComparisonResults.
  set (sorted := JS.sort (State.compareBy (State.currentSort st)) (r0 :: rs)).
  assert (Hp : Permutation (r0 :: rs) sorted) by apply sort_perm.
  rewrite forallb_has_field.
  2:{ eapply Permutation_Forall; [exact Hp|].
      eapply Forall_impl; [exact Hshown|]. intros r. apply measured_defines. }
  assert (Hs : Spec.ranked (State.currentSort st) sorted)
    by now apply compareBy_ranks.
  assert (Hm : Forall (Spec.measured (State.currentSort st)) sorted)
    by (eapply Permutation_Forall; [exact Hp|exact Hkey]).
  destruct sorted as [|b xs] eqn:E.
  - apply Permutation_sym, Permutation_nil in Hp. discriminate.
  - cbn [head]. eexists _, _, b. split; [reflexivity|].
    split; [reflexivity|]. split; [reflexivity|].
    split; [eapply Permutation_in; [symmetry; exact Hp|now left]|].
    eapply Permutation_Forall; [symmetry; exact Hp|].
    apply StronglySorted_inv in Hs as [_ Hall].
    apply Forall_cons in Hm as [Hb _].
    constructor; [|exact Hall].
    apply no_later_rank; [exact Hb..|]. apply Qle_refl.
Qed.

Lemma best_is_first_in_ranking_witness :
  exists st' pnl b,
    State.displayComparisonResults State.by_packetLoss
      [Scenario.google; Scenario.cloudflare] EnhancedNetworkAnalyzer.new
    = JS.Completed st' /\
    State.panel st' = Some pnl /\ State.best pnl = Some b /\
    In b [Scenario.google; Scenario.cloudflare] /\
    Forall (Spec.no_later (State.currentSort EnhancedNetworkAnalyzer.new) b)
      [Scenario.google; Scenario.cloudflare].
Proof.
  apply (best_is_first_in_ranking State.by_packetLoss
           [Scenario.google; Scenario.cloudflare] EnhancedNetworkAnalyzer.new).
  - discriminate.
  - repeat constructor.
  - repeat constructor; eexists; reflexivity.
Defined.

(** ** A target without an entry in [serverLocations] *)

Lemma compareStep_threw entry locs net x servers :
  foldl (State.compareStep entry locs net) (JS.Threw x) servers = JS.Threw x.
Proof. induction servers as [|t ts IH]; [reflexivity|exact IH]. Qed.

Lemma serverInfo_of_unknown locs server :
  locs !! server = None -> server ∉ JS.Object_prototype ->
  State.serverInfo_of locs server = None.
Proof.
  intros H Hp. unfold State.serverInfo_of, JS.get. rewrite H.
  now rewrite bool_decide_eq_false_2.
Qed.

Lemma compareLoop_unknown entry locs net servers st results0 :
  Exists (fun t => State.serverInfo_of locs t = None) servers ->
  exists st' results,
    foldl (State.compareStep entry locs net) (JS.Completed (st, results0)) servers
    = JS.Threw (st', results) /\
    State.comparisonResults st' = State.comparisonResults st /\
    State.panel st' = State.panel st.
Proof.
  intros Hex. revert st results0.
  induction servers as [|t ts IH]; intros st results0; [inversion Hex|].
  cbn [foldl]. unfold State.compareStep at 2.
  destruct (State.serverInfo_of locs t) as [serverInfo|] eqn:Ht.
  - apply Exists_cons in Hex as [Hex|Hex]; [congruence|].
    edestruct (IH Hex) as (st' & results & Hrun & Hc & Hp).
    exists st', results. split; [exact Hrun|]. split; [exact Hc|exact Hp].
  - exists st, results0. rewrite compareStep_threw. repeat split.
Qed.

(** When some target is neither a key of [serverLocations] nor the name
    of a property every object inherits, the comparison stops with an
    exception at the first such target: nothing is ranked or rendered,
    and the stored result set and the panel stay as they were.  A target
    named like an inherited property ("constructor", "toString", ...)
    does not stop it: the lookup finds the inherited value. *)
Theorem comparison_aborts_on_unknown_target
    (net : string -> nat -> option Q) (targets : list string) (st : State.Analyzer) :
  Exists (fun t => EnhancedNetworkAnalyzer.serverLocations !! t = None /\
                   t ∉ JS.Object_prototype) targets ->
  (exists st',
     EnhancedNetworkAnalyzer.fallbackDNSComparison net targets st = JS.Threw st' /\
     State.comparisonResults st' = State.comparisonResults st /\
     State.panel st' = State.panel st) /\
  (forall t, t ∈ JS.Object_prototype ->
     is_Some (State.serverInfo_of EnhancedNetworkAnalyzer.serverLocations t)).
Proof.
  intros Hex. split.
  - unfold EnhancedNetworkAnalyzer.fallbackDNSComparison, State.compareLoop.
    destruct (compareLoop_unknown EnhancedNetworkAnalyzer.entry
                EnhancedNetworkAnalyzer.serverLocations net targets st [])
      as (st' & results & Hrun & Hc & Hp).
    { eapply Exists_impl; [exact Hex|].
      intros t [H1 H2]. now apply serverInfo_of_unknown. }
    rewrite Hrun. exists st'. repeat split; assumption.
  - intros t Ht. unfold State.serverInfo_of, JS.get.
    destruct (EnhancedNetworkAnalyzer.serverLocations !! t); [now eexists|].
    rewrite bool_decide_eq_true_2 by exact Ht. now eexists.
Qed.

Lemma comparison_aborts_on_unknown_target_witness :
  (exists st',
     EnhancedNetworkAnalyzer.fallbackDNSComparison Scenario.one_up
       ["8.8.8.8"; "example.org"; "1.1.1.1"] EnhancedNetworkAnalyzer.new
     = JS.Threw st' /\
     State.comparisonResults st' = State.comparisonResults EnhancedNetworkAnalyzer.new /\
     State.panel st' = State.panel EnhancedNetworkAnalyzer.new) /\
  (forall t, t ∈ JS.Object_prototype ->
     is_Some (State.serverInfo_of EnhancedNetworkAnalyzer.serverLocations t)).
Proof.
  apply (comparison_aborts_on_unknown_target Scenario.one_up
           ["8.8.8.8"; "example.org"; "1.1.1.1"] EnhancedNetworkAnalyzer.new).
  apply Exists_cons_tl, Exists_cons_hd. split; [vm_compute; reflexivity|].
  unfold JS.Object_prototype. intros H.
  repeat (apply elem_of_cons in H as [H|H]; [discriminate|]).
  inversion H.
Defined.

(** * Further properties of the sampler *)

(** ** The chart window *)

Lemma push_chart_length pt st :
  (length (State.chartData st) <= State.maxDataPoints st)%nat ->
  (length (State.push_chart pt st) <= State.maxDataPoints st)%nat.
Proof.
  intros H. unfold State.push_chart.
  destruct (State.maxDataPoints st <? length (State.chartData st ++ [pt]))%nat eqn:E.
  - destruct (State.chartData st ++ [pt]) as [|x l] eqn:El.
    + simpl. lia.
    + assert (Hl : length (x :: l) = S (length (State.chartData st)))
        by (rewrite <- El, length_app; simpl; lia).
      simpl in *. lia.
  - apply Nat.ltb_ge in E. exact E.
Qed.

Lemma record_chart_bound latency st :
  (length (State.chartData st) <= State.maxDataPoints st)%nat ->
  State.maxDataPoints (Probe.record latency st) = State.maxDataPoints st /\
  (length (State.chartData (Probe.record latency st)) <= State.maxDataPoints st)%nat.
Proof.
  intros H. unfold Probe.record.
  destruct latency as [[l|]|]; [|split; [reflexivity|exact H]..].
  destruct (record_success_cases (State.testCount (Probe.count_test st)) l
              (Probe.count_test st)) as [[_ ->]|[_ ->]];
    (split; [reflexivity|]);
    apply (push_chart_length _ (Probe.count_test st)); exact H.
Qed.

Lemma handle_chart_bound (e : Samples.Event) (st : State.Analyzer) :
  (length (State.chartData st) <= State.maxDataPoints st)%nat ->
  State.maxDataPoints (Samples.handle st e) = State.maxDataPoints st /\
  (length (State.chartData (Samples.handle st e)) <= State.maxDataPoints st)%nat.
Proof.
  intros H.
  destruct e as [a|[] time|[] time]; cbn [Samples.handle].
  - unfold EnhancedNetworkAnalyzer.performSingleTest.
    apply (record_chart_bound _ (State.add_requests _ st)). exact H.
  - unfold EnhancedNetworkAnalyzer.handleMonitoringUpdate.
    destruct (Histogram.draw _) as [[]|]; cbn;
      (split; [reflexivity|]); now apply push_chart_length.
  - cbn. split; [reflexivity|exact H].
  - cbn. split; [reflexivity|exact H].
  - cbn. split; [reflexivity|exact H].
Qed.

(** The chart never holds more than [maxDataPoints] points, whatever
    samples arrive. *)
Theorem chart_window_is_bounded (events : list Samples.Event) (st : State.Analyzer) :
  (length (State.chartData st) <= State.maxDataPoints st)%nat ->
  State.maxDataPoints (Samples.run events st) = State.maxDataPoints st /\
  (length (State.chartData (Samples.run events st)) <= State.maxDataPoints st)%nat.
Proof.
  unfold Samples.run. revert st.
  induction events as [|e es IH]; intros st H; [split; [reflexivity|exact H]|].
  cbn [foldl]. destruct (handle_chart_bound e st H) as [Hk Hb].
  rewrite <- Hk in Hb. destruct (IH _ Hb) as [Hk' Hb'].
  rewrite Hk' , Hk in *. split; [reflexivity|exact Hb'].
Qed.

Lemma chart_window_is_bounded_witness :
  State.maxDataPoints (Samples.run Examples.mixed_events EnhancedNetworkAnalyzer.new)
  = State.maxDataPoints EnhancedNetworkAnalyzer.new /\
  (length (State.chartData (Samples.run Examples.mixed_events EnhancedNetworkAnalyzer.new))
   <= State.maxDataPoints EnhancedNetworkAnalyzer.new)%nat.
Proof.
  apply (chart_window_is_bounded Examples.mixed_events EnhancedNetworkAnalyzer.new).
  simpl. lia.
Defined.

Lemma map_snd_tl {A B} (l : list (A * B)) : map snd (tl l) = tl (map snd l).
Proof. destruct l; reflexivity. Qed.

Lemma last_n_snoc_full {A} (k : nat) (l : list A) (x : A) :
  (k <= length l)%nat ->
  Samples.last_n k (l ++ [x]) = tl (Samples.last_n k l ++ [x]).
Proof.
  unfold Samples.last_n. intros H. rewrite length_app. cbn [length].
  destruct k as [|k].
  - rewrite Nat.sub_0_r, !drop_ge by (rewrite ?length_app; simpl; lia).
    reflexivity.
  - replace (length l + 1 - S k)%nat with (length l - S k + 1)%nat by lia.
    rewrite drop_app_le by lia.
    rewrite <- (drop_drop l 1 (length l - S k)).
    destruct (drop (length l - S k) l) as [|y ys] eqn:E.
    + apply (f_equal length) in E. rewrite length_drop in E. simpl in E. lia.
    + reflexivity.
Qed.

Lemma last_n_snoc_short {A} (k : nat) (l : list A) (x : A) :
  (length l < k)%nat ->
  Samples.last_n k (l ++ [x]) = Samples.last_n k l ++ [x].
Proof.
  unfold Samples.last_n. intros H. rewrite length_app. cbn [length].
  replace (length l + 1 - k)%nat with 0%nat by lia.
  replace (length l - k)%nat with 0%nat by lia. reflexivity.
Qed.

Lemma last_n_length {A} (k : nat) (l : list A) :
  length (Samples.last_n k l) = Nat.min k (length l).
Proof. unfold Samples.last_n. rewrite length_drop. lia. Qed.

Lemma push_chart_window (pt : nat * Q) (st : State.Analyzer) (valid : list Q) :
  map snd (State.chartData st) = Samples.last_n (State.maxDataPoints st) valid ->
  map snd (State.push_chart pt st)
  = Samples.last_n (State.maxDataPoints st) (valid ++ [snd pt]).
Proof.
  intros Hw. unfold State.push_chart.
  assert (Hlen : length (State.chartData st)
                 = Nat.min (State.maxDataPoints st) (length valid)).
  { rewrite <- last_n_length, <- Hw, length_map. reflexivity. }
  rewrite length_app. cbn [length].
  destruct (State.maxDataPoints st <? length (State.chartData st) + 1)%nat eqn:E.
  - apply Nat.ltb_lt in E.
    rewrite map_snd_tl, map_app, Hw. cbn [map].
    symmetry. apply last_n_snoc_full. lia.
  - apply Nat.ltb_ge in E.
    rewrite map_app, Hw. cbn [map].
    symmetry. apply last_n_snoc_short. lia.
Qed.

Lemma basic_performSingleTest_window a st :
  Samples.basic_window st ->
  Samples.basic_window (NetworkAnalyzer.performSingleTest a st) /\
  State.maxDataPoints (NetworkAnalyzer.performSingleTest a st)
  = State.maxDataPoints st.
Proof.
  unfold Samples.basic_window, Samples.validResults. intros [Hc Hw].
  pose proof (basic_performSingleTest_samples a st) as (Ht & Hk & H).
  cbv zeta in *. rewrite Ht, Hk. split; [|reflexivity].
  destruct (Probe.measureLatency st (fst a) (snd a)) as [l|].
  - destruct H as (_ & Hchart & [(_ & Hr & _)|(_ & Hr & _)]);
      rewrite Hr, Hchart, length_app; cbn [length].
    + rewrite validResults_app. split; [lia|].
      now apply (push_chart_window (S (State.testCount st), l) st).
    + change [Some l; None] with ([Some l] ++ [@None Q]).
      rewrite app_assoc, validResults_app, validResults_app, app_nil_r.
      split; [lia|].
      now apply (push_chart_window (S (State.testCount st), l) st).
  - destruct H as (Hr & _ & _ & Hchart).
    rewrite Hr, Hchart, length_app, validResults_app, app_nil_r. cbn [length].
    split; [lia|exact Hw].
Qed.

Lemma basic_run_window attempts s :
  Samples.basic_window s ->
  Samples.basic_window (NetworkAnalyzer.runLimitedTest attempts s) /\
  State.maxDataPoints (NetworkAnalyzer.runLimitedTest attempts s)
  = State.maxDataPoints s /\
  State.testCount (NetworkAnalyzer.runLimitedTest attempts s)
  = (State.testCount s + length attempts)%nat.
Proof.
  unfold NetworkAnalyzer.runLimitedTest. revert s.
  induction attempts as [|a l IH]; intros s Hs.
  - cbn. split; [exact Hs|]. split; [reflexivity|lia].
  - cbn [foldl length].
    destruct (basic_performSingleTest_window a s Hs) as [Hs' Hk].
    destruct (IH _ Hs') as (Hw & Hk' & Ht).
    split; [exact Hw|]. split; [congruence|].
    rewrite Ht. destruct (basic_performSingleTest_samples a s) as (-> & _). lia.
Qed.

(** In [NetworkAnalyzer], after [startTest] has reset the run and any
    sequence of probes has been made, [testCount] is the number of
    probes, every probe has left one or two samples (two when its
    latency was stored and the histogram could then not be drawn), and
    the chart shows exactly the latest [maxDataPoints] successful
    latencies, oldest first. *)
Theorem chart_shows_latest_latencies
    (attempts : list NetworkAnalyzer.Attempt) (st : State.Analyzer) :
  let st' := NetworkAnalyzer.runLimitedTest attempts (State.startTest_reset st) in
  State.testCount st' = length attempts /\
  (length attempts <= length (State.testResults st') <= 2 * length attempts)%nat /\
  map snd (State.chartData st')
  = Samples.last_n (State.maxDataPoints st) (Samples.validResults st').
Proof.
  cbv zeta.
  destruct (basic_run_window attempts (State.startTest_reset st))
    as ([Hc Hw] & Hk & Ht).
  { split; [cbn; lia|reflexivity]. }
  cbn in Ht. rewrite Hk in Hw. cbn in Hw.
  split; [exact Ht|]. rewrite Ht in Hc. split; [exact Hc|exact Hw].
Qed.

(** ** Real-time monitoring *)

Lemma handleMonitoringUpdate_alive time st :
  let st' := EnhancedNetworkAnalyzer.handleMonitoringUpdate true time st in
  State.testCount st' = S (State.testCount st) /\
  State.successCount st' = S (State.successCount st) /\
  State.failCount st' = State.failCount st.
Proof.
  cbv zeta. unfold EnhancedNetworkAnalyzer.handleMonitoringUpdate.
  destruct (Histogram.draw _) as [[]|]; repeat split.
Qed.

(** [handleMonitoringUpdate] numbers a sample only when the host is
    alive: after [startTest] has reset the run and any sequence of
    monitoring updates has arrived, [testCount] equals [successCount]
    (the updates with [alive] set), and [failCount] is the number of the
    other updates. *)
Theorem monitoring_counts_only_live_updates
    (updates : list (bool * Q)) (st : State.Analyzer) :
  let st' :=
    foldl (fun st u => EnhancedNetworkAnalyzer.handleMonitoringUpdate u.1 u.2 st)
      (State.startTest_reset st) updates in
  State.testCount st' = State.successCount st' /\
  State.successCount st' = length (List.filter fst updates) /\
  State.failCount st' = length (List.filter (fun u => negb u.1) updates).
Proof.
  cbv zeta.
  assert (H : forall s,
    let s' := foldl (fun st u => EnhancedNetworkAnalyzer.handleMonitoringUpdate u.1 u.2 st)
                s updates in
    State.testCount s' = (State.testCount s + length (List.filter fst updates))%nat /\
    State.successCount s' = (State.successCount s + length (List.filter fst updates))%nat /\
    State.failCount s'
    = (State.failCount s + length (List.filter (fun u => negb u.1) updates))%nat).
  { induction updates as [|[[] time] us IH]; intros s; cbv zeta in *.
    - cbn. lia.
    - cbn [foldl List.filter fst snd negb length].
      destruct (IH (EnhancedNetworkAnalyzer.handleMonitoringUpdate true time s))
        as (H1 & H2 & H3).
      destruct (handleMonitoringUpdate_alive time s) as (E1 & E2 & E3).
      rewrite H1, H2, H3, E1, E2, E3. lia.
    - cbn [foldl List.filter fst snd negb length].
      destruct (IH (EnhancedNetworkAnalyzer.handleMonitoringUpdate false time s))
        as (H1 & H2 & H3).
      rewrite H1, H2, H3. cbn. lia. }
  destruct (H (State.startTest_reset st)) as (H1 & H2 & H3).
  cbn in H1, H2, H3. lia.
Qed.

(** * The age of a history entry *)

(** The counts [getTimeAgo] prints stay within their unit: 1 to 59
    minutes, 1 to 23 hours, at least 1 day; anything younger than a
    minute (also a time in the future) reads 'just now'. *)
Theorem getTimeAgo_units (now date : Z) :
  match TimeAgo.getTimeAgo now date with
  | TimeAgo.JustNow => (now - date < 60000)%Z
  | TimeAgo.MinAgo n => (1 <= n <= 59)%Z /\ (60000 <= now - date < 3600000)%Z
  | TimeAgo.HoursAgo n => (1 <= n <= 23)%Z /\ (3600000 <= now - date < 86400000)%Z
  | TimeAgo.DaysAgo n => (1 <= n)%Z /\ (86400000 <= now - date)%Z
  end.
Proof.
  unfold TimeAgo.getTimeAgo.
  pose proof (Z.div_mod (now - date) 1000 ltac:(lia)) as H1.
  pose proof (Z.mod_pos_bound (now - date) 1000 ltac:(lia)) as H2.
  set (seconds := ((now - date) / 1000)%Z) in *.
  destruct (seconds <? 60)%Z eqn:E1; [apply Z.ltb_lt in E1; lia|apply Z.ltb_ge in E1].
  destruct (seconds <? 3600)%Z eqn:E2; [apply Z.ltb_lt in E2|apply Z.ltb_ge in E2].
  { pose proof (Z.div_mod seconds 60 ltac:(lia)).
    pose proof (Z.mod_pos_bound seconds 60 ltac:(lia)). lia. }
  destruct (seconds <? 86400)%Z eqn:E3; [apply Z.ltb_lt in E3|apply Z.ltb_ge in E3].
  { pose proof (Z.div_mod seconds 3600 ltac:(lia)).
    pose proof (Z.mod_pos_bound seconds 3600 ltac:(lia)). lia. }
  pose proof (Z.div_mod seconds 86400 ltac:(lia)).
  pose proof (Z.mod_pos_bound seconds 86400 ltac:(lia)). lia.
Qed.


(** * The backend *)

(** ** HTTP ping *)

Lemma pingLoop (fetches : nat -> option Z) (l : list nat)
    (times0 : list (option Q)) (n0 : nat) :
  fold_left (Backend.pingStep fetches) l (times0, n0)
  = (times0 ++ map (fun i => inject_Z <$> fetches i) l,
     (n0 + length (omap id (map (fun i => inject_Z <$> fetches i) l)))%nat).
Proof.
  revert times0 n0. induction l as [|i l IH]; intros times0 n0.
  - cbn. now rewrite app_nil_r, Nat.add_0_r.
  - cbn [fold_left map]. unfold Backend.pingStep at 2. cbn [fst snd].
    destruct (fetches i) as [t|]; rewrite IH, <- app_assoc; cbn; f_equal; lia.
Qed.

Lemma omap_id_length (l : list (option Q)) : (length (omap id l) <= length l)%nat.
Proof. induction l as [|[x|] l IH]; cbn; lia. Qed.

Lemma rounds_of_nat (count : Q) (n : nat) :
  count == inject_Z (Z.of_nat n) -> Backend.rounds count = n.
Proof.
  intros H. unfold Backend.rounds. rewrite (Qceiling_comp _ _ H), Qceiling_Z.
  apply Nat2Z.id.
Qed.

(** The summary [performHttpPing] returns: one entry of [times] per
    request made, [successCount] the number of latencies among them,
    and when at least one request succeeded an average between the
    minimum and the maximum; when none did the host is reported as not
    alive with no statistics and a loss of 100 percent.  For a [count]
    that is a whole number, [count] requests are made, [successCount]
    does not exceed [count] and the loss is between 0 and 100
    percent. *)
Theorem http_ping_summary (fetches : nat -> option Z) (count : Q) :
  let r := Backend.performHttpPing fetches count in
  Backend.times r
  = map (fun i => inject_Z <$> fetches i) (seq 0 (Backend.rounds count)) /\
  Backend.totalCount r = count /\
  Backend.successCount r = length (omap id (Backend.times r)) /\
  (Backend.successCount r <= Backend.rounds count)%nat /\
  (Backend.alive r = true ->
   exists lo a hi,
     Backend.min r = Some lo /\ Backend.avg r = Some a /\ Backend.max r = Some hi /\
     lo <= a <= hi) /\
  (Backend.alive r = false ->
   Backend.successCount r = 0%nat /\
   Backend.min r = None /\ Backend.avg r = None /\ Backend.max r = None /\
   Backend.jitter r == 0 /\
   (~ count == 0 -> exists p, Backend.packetLoss r = Some p /\ p == 100)) /\
  (forall n : nat, count == inject_Z (Z.of_nat n) ->
   length (Backend.times r) = n /\
   (Backend.successCount r <= n)%nat /\
   (forall p, Backend.packetLoss r = Some p -> 0 <= p <= 100)).
Proof.
  cbv zeta. unfold Backend.performHttpPing. rewrite pingLoop.
  cbn [app Nat.add Backend.times Backend.totalCount Backend.successCount
       Backend.packetLoss Backend.alive Backend.min Backend.max Backend.avg Backend.jitter].
  set (times := map (fun i => inject_Z <$> fetches i) (seq 0 (Backend.rounds count))).
  set (valid := omap id times).
  assert (Hlen : length times = Backend.rounds count)
    by (unfold times; now rewrite length_map, length_seq).
  assert (Hle : (length valid <= Backend.rounds count)%nat)
    by (rewrite <- Hlen; apply omap_id_length).
  split; [reflexivity|]. split; [reflexivity|]. split; [reflexivity|].
  split; [exact Hle|].
  split; [|split].
  - intros Ha. rewrite Ha.
    destruct valid as [|x tl] eqn:Ev; [discriminate|].
    eexists _, _, _. split; [reflexivity|]. split; [reflexivity|]. split; [reflexivity|].
    apply mean_bounds; [discriminate|apply fold_min_is_min|apply fold_max_is_max].
  - intros Ha. rewrite Ha. apply Nat.ltb_ge in Ha.
    assert (Hv : valid = []) by (destruct valid; [reflexivity|simpl in Ha; lia]).
    split; [lia|]. repeat (split; [reflexivity|]).
    split.
    + rewrite Hv. reflexivity.
    + intros Hc. destruct (Qeq_bool count 0) eqn:E;
        [apply Qeq_bool_iff in E; contradiction|].
      eexists. split; [reflexivity|]. rewrite Hv. cbn [length].
      change (inject_Z (Z.of_nat 0)) with 0. field. exact Hc.
  - intros n Hn. pose proof (rounds_of_nat count n Hn) as Hr.
    rewrite Hr in Hlen, Hle. split; [exact Hlen|]. split; [exact Hle|].
    intros p. destruct (Qeq_bool count 0) eqn:E; [discriminate|].
    apply Qeq_bool_neq in E. intros [= <-].
    assert (H0 : 0 <= inject_Z (Z.of_nat (length valid)))
      by (change 0 with (inject_Z 0); rewrite <- Zle_Qle; lia).
    assert (H1 : inject_Z (Z.of_nat (length valid)) <= count)
      by (rewrite Hn, <- Zle_Qle; lia).
    set (v := inject_Z (Z.of_nat (length valid))) in *.
    assert (Hc : 0 < count) by (destruct (Qlt_le_dec 0 count); [assumption|lra]).
    assert (Hq0 : 0 <= (count - v) / count) by (apply Qle_shift_div_l; [exact Hc|lra]).
    assert (Hq1 : (count - v) / count <= 1) by (apply Qle_shift_div_r; [exact Hc|lra]).
    split; lra.
Qed.

(** With a [count] of 2.5 three requests are made; when all three
    succeed, [successCount] exceeds [count] and the loss is -20
    percent. *)
Lemma http_ping_fractional_count :
  let r := Backend.performHttpPing (fun _ => Some 20%Z) (5 # 2) in
  length (Backend.times r) = 3%nat /\
  Backend.successCount r = 3%nat /\
  exists p, Backend.packetLoss r = Some p /\ p == - (20).
Proof.
  cbv zeta. split; [reflexivity|]. split; [reflexivity|].
  eexists. split; [reflexivity|]. reflexivity.
Qed.

(** ** The batch test of the backend *)

Lemma processed_batch (fetches : string -> nat -> option Z)
    (servers : list string) (count : Q) :
  EnhancedNetworkAnalyzer.processBackendBatchResults
    (Backend.batchTest fetches servers count)
  = map (fun server =>
           let ping := Backend.performHttpPing (fetches server) count in
           {| EnhancedNetworkAnalyzer.backend_server := server;
              EnhancedNetworkAnalyzer.backend_info :=
                default {| State.name := server; State.location := "Unknown" |}
                  (State.serverInfo_of EnhancedNetworkAnalyzer.serverLocations server);
              EnhancedNetworkAnalyzer.backend_avg := Backend.avg ping;
              EnhancedNetworkAnalyzer.backend_min := Backend.min ping;
              EnhancedNetworkAnalyzer.backend_max := Backend.max ping;
              EnhancedNetworkAnalyzer.backend_jitter := Backend.jitter ping;
              EnhancedNetworkAnalyzer.backend_successRate :=
                if Qeq_bool (Backend.totalCount ping) 0 then None
                else Some (inject_Z (Z.of_nat (Backend.successCount ping))
                           / Backend.totalCount ping * 100);
              EnhancedNetworkAnalyzer.backend_packetLoss := Backend.packetLoss ping;
              EnhancedNetworkAnalyzer.backend_method := "backend" |})
        servers.
Proof.
  unfold EnhancedNetworkAnalyzer.processBackendBatchResults, Backend.batchTest.
  induction servers as [|t ts IH]; [reflexivity|].
  cbn [map omap list_omap Backend.success Backend.server Backend.ping].
  f_equal. exact IH.
Qed.

Lemma all_failed_times (fetch : nat -> option Z) (n : nat) :
  (forall i, (i < n)%nat -> fetch i = None) ->
  omap id (map (fun i => inject_Z <$> fetch i) (seq 0 n)) = [].
Proof.
  intros Hfail.
  assert (H : forall m k, (k + m <= n)%nat ->
    omap id (map (fun i => inject_Z <$> fetch i) (seq k m)) = []).
  { induction m as [|m IH]; intros k Hk; [reflexivity|].
    cbn [seq map]. rewrite Hfail by lia. cbn. apply IH. lia. }
  apply (H n 0%nat). lia.
Qed.

(** A target whose requests all failed is still answered with [success]
    set, and [processBackendBatchResults] keeps it: the entries handed
    to [displayComparisonResults] hold one entry per target, also for a
    target without any successful request, whose average is [null] and
    whose success rate is 0. *)
Theorem batch_keeps_failed_targets
    (fetches : string -> nat -> option Z) (servers : list string) (n : nat) :
  n <> 0%nat ->
  let entries :=
    EnhancedNetworkAnalyzer.processBackendBatchResults
      (Backend.batchTest fetches servers (inject_Z (Z.of_nat n))) in
  map EnhancedNetworkAnalyzer.backend_server entries = servers /\
  forall server, In server servers ->
    (forall i, (i < n)%nat -> fetches server i = None) ->
    exists e, In e entries /\
      EnhancedNetworkAnalyzer.backend_server e = server /\
      EnhancedNetworkAnalyzer.backend_avg e = None /\
      exists rate, EnhancedNetworkAnalyzer.backend_successRate e = Some rate /\
                   rate == 0.
Proof.
  intros Hn. cbv zeta. rewrite processed_batch.
  set (count := inject_Z (Z.of_nat n)).
  assert (Hr : Backend.rounds count = n) by (apply rounds_of_nat; reflexivity).
  assert (Hc : Qeq_bool count 0 = false).
  { destruct (Qeq_bool count 0) eqn:E; [|reflexivity].
    apply Qeq_bool_iff in E. unfold count in E. change 0 with (inject_Z 0) in E.
    rewrite inject_Z_injective in E. lia. }
  split.
  - rewrite map_map. cbn. apply map_id.
  - intros server Hin Hfail.
    eexists. split; [apply in_map_iff; exists server; split; [reflexivity|exact Hin]|].
    cbn [EnhancedNetworkAnalyzer.backend_server EnhancedNetworkAnalyzer.backend_avg
         EnhancedNetworkAnalyzer.backend_successRate].
    unfold Backend.performHttpPing. rewrite pingLoop, Hr. cbn [app Nat.add].
    rewrite !(all_failed_times (fetches server) n Hfail).
    cbn [length Nat.ltb Nat.leb Backend.avg Backend.totalCount
         Backend.successCount].
    rewrite Hc. split; [reflexivity|]. split; [reflexivity|].
    eexists. split; [reflexivity|]. unfold Qdiv. ring.
Qed.

Lemma batch_keeps_failed_targets_witness :
  map EnhancedNetworkAnalyzer.backend_server
    (EnhancedNetworkAnalyzer.processBackendBatchResults
       (Backend.batchTest Examples.one_down ["8.8.8.8"; "1.1.1.1"]
          (inject_Z (Z.of_nat 10))))
  = ["8.8.8.8"; "1.1.1.1"] /\
  forall server, In server ["8.8.8.8"; "1.1.1.1"] ->
    (forall i, (i < 10)%nat -> Examples.one_down server i = None) ->
    exists e,
      In e (EnhancedNetworkAnalyzer.processBackendBatchResults
              (Backend.batchTest Examples.one_down ["8.8.8.8"; "1.1.1.1"]
                 (inject_Z (Z.of_nat 10)))) /\
      EnhancedNetworkAnalyzer.backend_server e = server /\
      EnhancedNetworkAnalyzer.backend_avg e = None /\
      exists rate, EnhancedNetworkAnalyzer.backend_successRate e = Some rate /\
                   rate == 0.
Proof.
  apply (batch_keeps_failed_targets Examples.one_down ["8.8.8.8"; "1.1.1.1"] 10).
  discriminate.
Defined.

(** ** Monitoring sessions *)

Lemma consistent_empty : Backend.consistent Backend.empty.
Proof.
  unfold Backend.consistent, Backend.empty. cbn. split; [|split].
  - intros t. split; [set_solver|]. intros (id & s & H & _).
    rewrite lookup_empty in H. discriminate.
  - intros id1 id2 s1 s2 H. rewrite lookup_empty in H. discriminate.
  - set_solver.
Qed.

Lemma stopMonitoring_lookup now w id srv :
  Backend.monitoringSessions (Backend.stopMonitoring now w id srv)
  = delete id (Backend.monitoringSessions srv).
Proof.
  unfold Backend.stopMonitoring.
  destruct (Backend.monitoringSessions srv !! id) eqn:E; [reflexivity|].
  symmetry. now apply delete_id.
Qed.

Lemma stopMonitoring_consistent now w id srv :
  Backend.consistent srv -> Backend.consistent (Backend.stopMonitoring now w id srv).
Proof.
  intros Hcons. unfold Backend.stopMonitoring.
  destruct (Backend.monitoringSessions srv !! id) as [session|] eqn:E;
    [|exact Hcons].
  destruct Hcons as (HA & HB & HC).
  unfold Backend.consistent. cbn. split; [|split].
  - intros t. rewrite elem_of_difference, elem_of_singleton, HA. split.
    + intros [(id' & s & Hs & Ht) Hne]. exists id', s. split; [|exact Ht].
      rewrite lookup_delete_ne; [exact Hs|]. intros <-. congruence.
    + intros (id' & s & Hs & Ht).
      apply lookup_delete_Some in Hs as [Hne Hs].
      split; [now exists id', s|]. intros Heq. apply Hne.
      apply (HB id id' session s E Hs). congruence.
  - intros id1 id2 s1 s2 H1 H2.
    apply lookup_delete_Some in H1 as [_ H1]. apply lookup_delete_Some in H2 as [_ H2].
    now apply HB.
  - intros t Ht. apply HC. apply elem_of_difference in Ht as [Ht _]. exact Ht.
Qed.

Lemma start_clears_first now w id srv :
  let srv1 := if decide (is_Some (Backend.monitoringSessions srv !! id))
              then Backend.stopMonitoring now w id srv else srv in
  Backend.monitoringSessions srv1 !! id = None /\
  Backend.monitoringSessions srv1 = delete id (Backend.monitoringSessions srv).
Proof.
  cbv zeta. destruct (decide _) as [H|H].
  - rewrite stopMonitoring_lookup. split; [apply lookup_delete_eq|reflexivity].
  - assert (E : Backend.monitoringSessions srv !! id = None)
      by (destruct (Backend.monitoringSessions srv !! id) eqn:E; [exfalso; eauto|reflexivity]).
    split; [exact E|]. symmetry. now apply delete_id.
Qed.

Lemma startMonitoring_consistent now w data srv :
  Backend.consistent srv -> Backend.consistent (Backend.startMonitoring now w data srv).
Proof.
  intros Hcons. unfold Backend.startMonitoring.
  destruct (Backend.truthy (Backend.data_host data)) as [host|]; [|exact Hcons].
  destruct (Backend.truthy (Backend.data_sessionId data)) as [id|]; [|exact Hcons].
  destruct (start_clears_first now w id srv) as [Hnone _].
  set (srv1 := if decide (is_Some (Backend.monitoringSessions srv !! id))
               then Backend.stopMonitoring now w id srv else srv) in *.
  assert (H1 : Backend.consistent srv1).
  { unfold srv1. destruct (decide _); [now apply stopMonitoring_consistent|exact Hcons]. }
  destruct H1 as (HA & HB & HC).
  assert (Hfresh : forall id' s, Backend.monitoringSessions srv1 !! id' = Some s ->
                                 Backend.interval s <> Backend.nextTimer srv1).
  { intros id' s Hs Heq.
    assert (Hin : Backend.interval s ∈ Backend.timers srv1) by (apply HA; eauto).
    apply HC in Hin. lia. }
  unfold Backend.consistent. cbn. split; [|split].
  - intros t. rewrite elem_of_union, elem_of_singleton, HA. split.
    + intros [(id' & s & Hs & Ht)| ->].
      * exists id', s. split; [|exact Ht].
        rewrite lookup_insert_ne; [exact Hs|]. intros <-. congruence.
      * eexists id, _. rewrite lookup_insert_eq. split; reflexivity.
    + intros (id' & s & Hs & Ht).
      destruct (decide (id = id')) as [<-|Hne].
      * rewrite lookup_insert_eq in Hs. injection Hs as <-. now right.
      * rewrite lookup_insert_ne in Hs by exact Hne. left. eauto.
  - intros id1 id2 s1 s2 Hs1 Hs2 Heq.
    destruct (decide (id = id1)) as [<-|Hne1], (decide (id = id2)) as [<-|Hne2];
      [reflexivity|..].
    + rewrite lookup_insert_eq in Hs1. injection Hs1 as <-.
      rewrite lookup_insert_ne in Hs2 by exact Hne2.
      exfalso. apply (Hfresh _ _ Hs2). cbn in Heq. congruence.
    + rewrite lookup_insert_eq in Hs2. injection Hs2 as <-.
      rewrite lookup_insert_ne in Hs1 by exact Hne1.
      exfalso. apply (Hfresh _ _ Hs1). cbn in Heq. congruence.
    + rewrite lookup_insert_ne in Hs1 by exact Hne1.
      rewrite lookup_insert_ne in Hs2 by exact Hne2. now apply (HB id1 id2 s1 s2).
  - intros t. rewrite elem_of_union, elem_of_singleton. intros [Ht| ->]; [|lia].
    apply HC in Ht. lia.
Qed.

Lemma elem_of_gone (w : nat) (sessions : gmap string Backend.Session) (t : nat) :
  t ∈ (list_to_set (Backend.interval <$>
         (map_to_list (filter (fun kv => Backend.ws kv.2 = w) sessions)).*2) : gset nat)
  <-> exists id s, sessions !! id = Some s /\ Backend.ws s = w /\ Backend.interval s = t.
Proof.
  rewrite elem_of_list_to_set, list_elem_of_fmap. split.
  - intros (s & -> & Hs). apply list_elem_of_fmap in Hs as ([id s'] & -> & Hin).
    apply elem_of_map_to_list, map_lookup_filter_Some in Hin as [Hl Hw].
    exists id, s'. auto.
  - intros (id & s & Hl & Hw & <-). exists s. split; [reflexivity|].
    apply list_elem_of_fmap. exists (id, s). split; [reflexivity|].
    apply elem_of_map_to_list, map_lookup_filter_Some. auto.
Qed.

Lemma closed_consistent w srv :
  Backend.consistent srv -> Backend.consistent (Backend.closed w srv).
Proof.
  intros (HA & HB & HC). unfold Backend.consistent, Backend.closed. cbn.
  split; [|split].
  - intros t. rewrite elem_of_difference, elem_of_gone, HA. split.
    + intros [(id & s & Hs & Ht) Hgone]. exists id, s. split; [|exact Ht].
      apply map_lookup_filter_Some. split; [exact Hs|].
      cbn. intros Hw. apply Hgone. eauto.
    + intros (id & s & Hs & Ht).
      apply map_lookup_filter_Some in Hs as [Hs Hw]. cbn in Hw.
      split; [eauto|]. intros (id2 & s2 & Hs2 & Hw2 & Ht2).
      assert (id2 = id) by (apply (HB id2 id s2 s Hs2 Hs); congruence).
      subst id2. congruence.
  - intros id1 id2 s1 s2 H1 H2.
    apply map_lookup_filter_Some in H1 as [H1 _].
    apply map_lookup_filter_Some in H2 as [H2 _]. now apply HB.
  - intros t Ht. apply HC. apply elem_of_difference in Ht as [Ht _]. exact Ht.
Qed.

Lemma serve_consistent srv r :
  Backend.consistent srv -> Backend.consistent (Backend.serve srv r).
Proof.
  destruct r; cbn [Backend.serve];
    [apply startMonitoring_consistent|apply stopMonitoring_consistent
    |apply closed_consistent].
Qed.

(** Whatever start, stop and close requests arrive in whatever order,
    the timers that are running are exactly the timers of the registered
    sessions: no timer is left running without a session, and no session
    is left without its timer. *)
Theorem no_orphaned_monitoring_timers
    (requests : list Backend.Request) (srv : Backend.Server) :
  Backend.consistent srv ->
  Backend.consistent (foldl Backend.serve srv requests).
Proof.
  revert srv. induction requests as [|r rs IH]; intros srv H; [exact H|].
  cbn [foldl]. apply IH. now apply serve_consistent.
Qed.

Lemma no_orphaned_monitoring_timers_witness :
  Backend.consistent
    (foldl Backend.serve Backend.empty
       [Backend.Start 1000 1 (Examples.start_s1 "8.8.8.8");
        Backend.Start 2000 2 (Examples.start_s1 "1.1.1.1");
        Backend.Close 1;
        Backend.Stop 3000 1 "s1"]).
Proof.
  apply (no_orphaned_monitoring_timers _ Backend.empty). exact consistent_empty.
Defined.

(** Starting a session under an id that is already active replaces it:
    afterwards the id is bound to the new connection, host and start
    time, the timer of the old session is cleared and its stop is
    reported to the requesting connection, and every other session is
    left alone with its timer running. *)
Theorem restart_replaces_session
    (now : Z) (w : nat) (data : Backend.StartData) (srv : Backend.Server)
    (host id : string) :
  Backend.consistent srv ->
  Backend.truthy (Backend.data_host data) = Some host ->
  Backend.truthy (Backend.data_sessionId data) = Some id ->
  let srv' := Backend.startMonitoring now w data srv in
  (exists s, Backend.monitoringSessions srv' !! id = Some s /\
             Backend.ws s = w /\ Backend.host s = host /\
             Backend.startTime s = now /\ Backend.interval s ∈ Backend.timers srv') /\
  (forall old, Backend.monitoringSessions srv !! id = Some old ->
     (Backend.interval old ∉ Backend.timers srv') /\
     (w, Backend.MonitoringStopped id (now - Backend.startTime old))
       ∈ Backend.outbox srv') /\
  (forall id' s, id' <> id -> Backend.monitoringSessions srv !! id' = Some s ->
     Backend.monitoringSessions srv' !! id' = Some s /\
     Backend.interval s ∈ Backend.timers srv') /\
  (forall id', id' <> id ->
     Backend.monitoringSessions srv' !! id' = Backend.monitoringSessions srv !! id').
Proof.
  intros Hcons Hh Hi.
  pose proof (startMonitoring_consistent now w data srv Hcons) as (HA' & HB' & HC').
  cbv zeta. unfold Backend.startMonitoring in *. rewrite Hh, Hi in *.
  destruct (start_clears_first now w id srv) as [Hnone Hdel].
  set (srv1 := if decide (is_Some (Backend.monitoringSessions srv !! id))
               then Backend.stopMonitoring now w id srv else srv) in *.
  cbn in HA', HB', HC' |- *.
  split; [|split; [|split]].
  - eexists. rewrite lookup_insert_eq. split; [reflexivity|].
    cbn. repeat split. apply elem_of_union. right. now apply elem_of_singleton.
  - intros old Hold. split.
    + intros Hin. apply HA' in Hin as (id' & s & Hs & Ht).
      destruct (decide (id = id')) as [<-|Hne].
      * rewrite lookup_insert_eq in Hs. injection Hs as <-. cbn in Ht.
        destruct Hcons as (HA & _ & HC).
        assert (Hold_in : Backend.interval old ∈ Backend.timers srv) by (apply HA; eauto).
        assert (Hsrv1 : (Backend.nextTimer srv1 = Backend.nextTimer srv)).
        { unfold srv1. destruct (decide _); [|reflexivity].
          unfold Backend.stopMonitoring. rewrite Hold. reflexivity. }
        apply HC in Hold_in. lia.
      * rewrite lookup_insert_ne in Hs by exact Hne.
        rewrite Hdel in Hs. apply lookup_delete_Some in Hs as [_ Hs].
        destruct Hcons as (_ & HB & _).
        apply Hne. apply (HB id id' old s Hold Hs). congruence.
    + unfold srv1. rewrite decide_True by eauto.
      unfold Backend.stopMonitoring. rewrite Hold. cbn.
      rewrite !elem_of_app. left. right. apply list_elem_of_singleton. reflexivity.
  - intros id' s Hne Hs.
    assert (Hs' : <[id:={| Backend.ws := w; Backend.interval := Backend.nextTimer srv1;
                          Backend.host := host; Backend.startTime := now |}]>
                    (Backend.monitoringSessions srv1) !! id' = Some s).
    { rewrite lookup_insert_ne by congruence. rewrite Hdel.
      rewrite lookup_delete_ne by congruence. exact Hs. }
    split; [exact Hs'|]. apply HA'. eauto.
  - intros id' Hne. rewrite lookup_insert_ne by congruence. rewrite Hdel.
    now rewrite lookup_delete_ne by congruence.
Qed.

Lemma restart_replaces_session_witness :
  let srv' := Backend.startMonitoring 2000 3 (Examples.start_s1 "9.9.9.9")
                Examples.two_sessions in
  (exists s, Backend.monitoringSessions srv' !! "s1" = Some s /\
             Backend.ws s = 3%nat /\ Backend.host s = "9.9.9.9" /\
             Backend.startTime s = 2000%Z /\ Backend.interval s ∈ Backend.timers srv') /\
  (forall old, Backend.monitoringSessions Examples.two_sessions !! "s1" = Some old ->
     (Backend.interval old ∉ Backend.timers srv') /\
     (3%nat, Backend.MonitoringStopped "s1" (2000 - Backend.startTime old))
       ∈ Backend.outbox srv') /\
  (forall id' s, id' <> "s1" ->
     Backend.monitoringSessions Examples.two_sessions !! id' = Some s ->
     Backend.monitoringSessions srv' !! id' = Some s /\
     Backend.interval s ∈ Backend.timers srv') /\
  (forall id', id' <> "s1" ->
     Backend.monitoringSessions srv' !! id'
     = Backend.monitoringSessions Examples.two_sessions !! id').
Proof.
  apply (restart_replaces_session 2000 3 (Examples.start_s1 "9.9.9.9")
           Examples.two_sessions "9.9.9.9" "s1").
  - unfold Examples.two_sessions.
    apply startMonitoring_consistent, startMonitoring_consistent, consistent_empty.
  - reflexivity.
  - reflexivity.
Defined.

(** [stopMonitoring] stops the session registered under the id whichever
    connection asks for it: the session is removed, its timer cleared
    and the duration reported to the requesting connection, while all
    other sessions keep running; for an id that is not registered nothing
    changes and nothing is sent. *)
Theorem stop_removes_exactly_one_session
    (now : Z) (w : nat) (id : string) (srv : Backend.Server) :
  Backend.consistent srv ->
  let srv' := Backend.stopMonitoring now w id srv in
  Backend.monitoringSessions srv' !! id = None /\
  (forall id' s, id' <> id -> Backend.monitoringSessions srv !! id' = Some s ->
     Backend.monitoringSessions srv' !! id' = Some s /\
     Backend.interval s ∈ Backend.timers srv') /\
  (forall s, Backend.monitoringSessions srv !! id = Some s ->
     (Backend.interval s ∉ Backend.timers srv') /\
     Backend.outbox srv'
     = Backend.outbox srv ++ [(w, Backend.MonitoringStopped id (now - Backend.startTime s))]) /\
  (Backend.monitoringSessions srv !! id = None -> srv' = srv).
Proof.
  intros Hcons. cbv zeta.
  pose proof (stopMonitoring_consistent now w id srv Hcons) as (HA' & HB' & HC').
  pose proof (stopMonitoring_lookup now w id srv) as Hdel.
  split; [rewrite Hdel; apply lookup_delete_eq|].
  split; [|split].
  - intros id' s Hne Hs.
    assert (Hs' : Backend.monitoringSessions (Backend.stopMonitoring now w id srv) !! id'
                  = Some s)
      by (rewrite Hdel, lookup_delete_ne by congruence; exact Hs).
    split; [exact Hs'|]. apply HA'. eauto.
  - intros s Hs. split.
    + intros Hin. apply HA' in Hin as (id' & s' & Hs' & Ht).
      rewrite Hdel in Hs'. apply lookup_delete_Some in Hs' as [Hne Hs'].
      destruct Hcons as (_ & HB & _). apply Hne. apply (HB id id' s s' Hs Hs'). congruence.
    + unfold Backend.stopMonitoring. rewrite Hs. reflexivity.
  - intros Hnone. unfold Backend.stopMonitoring. now rewrite Hnone.
Qed.

Lemma stop_removes_exactly_one_session_witness :
  let srv' := Backend.stopMonitoring 4000 2 "s1" Examples.two_sessions in
  Backend.monitoringSessions srv' !! "s1" = None /\
  (forall id' s, id' <> "s1" ->
     Backend.monitoringSessions Examples.two_sessions !! id' = Some s ->
     Backend.monitoringSessions srv' !! id' = Some s /\
     Backend.interval s ∈ Backend.timers srv') /\
  (forall s, Backend.monitoringSessions Examples.two_sessions !! "s1" = Some s ->
     (Backend.interval s ∉ Backend.timers srv') /\
     Backend.outbox srv'
     = Backend.outbox Examples.two_sessions
       ++ [(2%nat, Backend.MonitoringStopped "s1" (4000 - Backend.startTime s))]) /\
  (Backend.monitoringSessions Examples.two_sessions !! "s1" = None ->
   srv' = Examples.two_sessions).
Proof.
  apply (stop_removes_exactly_one_session 4000 2 "s1" Examples.two_sessions).
  unfold Examples.two_sessions.
  apply startMonitoring_consistent, startMonitoring_consistent, consistent_empty.
Defined.

(** When a connection closes, exactly its sessions are removed and
    their timers cleared; the sessions of other connections stay
    registered with their timers running, and nothing is sent. *)
Theorem close_stops_own_sessions_only (w : nat) (srv : Backend.Server) :
  Backend.consistent srv ->
  let srv' := Backend.closed w srv in
  (forall id s, Backend.monitoringSessions srv' !! id = Some s <->
                Backend.monitoringSessions srv !! id = Some s /\ Backend.ws s <> w) /\
  (forall id s, Backend.monitoringSessions srv !! id = Some s ->
     if decide (Backend.ws s = w)
     then Backend.interval s ∉ Backend.timers srv'
     else Backend.interval s ∈ Backend.timers srv') /\
  Backend.outbox srv' = Backend.outbox srv.
Proof.
  intros Hcons. cbv zeta.
  pose proof (closed_consistent w srv Hcons) as (HA' & HB' & HC').
  split; [|split; [|reflexivity]].
  - intros id s. unfold Backend.closed. cbn. apply map_lookup_filter_Some.
  - intros id s Hs. destruct (decide (Backend.ws s = w)) as [Hw|Hw].
    + unfold Backend.closed. cbn. rewrite elem_of_difference, elem_of_gone.
      intros [_ Hn]. apply Hn. eauto.
    + apply HA'. exists id, s. split; [|reflexivity].
      unfold Backend.closed. cbn. apply map_lookup_filter_Some. auto.
Qed.

Lemma close_stops_own_sessions_only_witness :
  let srv' := Backend.closed 1 Examples.two_sessions in
  (forall id s, Backend.monitoringSessions srv' !! id = Some s <->
                Backend.monitoringSessions Examples.two_sessions !! id = Some s /\
                Backend.ws s <> 1%nat) /\
  (forall id s, Backend.monitoringSessions Examples.two_sessions !! id = Some s ->
     if decide (Backend.ws s = 1%nat)
     then Backend.interval s ∉ Backend.timers srv'
     else Backend.interval s ∈ Backend.timers srv') /\
  Backend.outbox srv' = Backend.outbox Examples.two_sessions.
Proof.
  apply (close_stops_own_sessions_only 1 Examples.two_sessions).
  unfold Examples.two_sessions.
  apply startMonitoring_consistent, startMonitoring_consistent, consistent_empty.
Defined.

(** * Coherence of what is shown *)

(** ** Comparison entries *)

Lemma success_rate_bounds (valid : list Q) (tr : list (option Q)) :
  valid <> [] -> (length valid <= length tr)%nat ->
  0 < JS.length_Q valid / JS.length_Q tr * 100 /\
  JS.length_Q valid / JS.length_Q tr * 100 <= 100 /\
  JS.length_Q valid / JS.length_Q tr * 100
  + (JS.length_Q tr - JS.length_Q valid) / JS.length_Q tr * 100 == 100.
Proof.
  intros Hv Hle. pose proof (length_Q_pos valid Hv) as Hpos.
  assert (Hle' : JS.length_Q valid <= JS.length_Q tr).
  { unfold JS.length_Q. rewrite <- Zle_Qle. lia. }
  assert (Htr : 0 < JS.length_Q tr) by lra.
  set (v := JS.length_Q valid) in *. set (n := JS.length_Q tr) in *.
  assert (H0 : 0 < v / n) by (apply Qlt_shift_div_l; [exact Htr|lra]).
  assert (H1 : v / n <= 1) by (apply Qle_shift_div_r; [exact Htr|lra]).
  split; [lra|]. split; [lra|]. field. lra.
Qed.

(** An entry [NetworkAnalyzer.compareAllDNS] builds carries its
    percentiles in order between its extremes: minimum <= P95 <= P99 <=
    maximum; its success rate is above 0 and at most 100. *)
Theorem basic_entry_is_coherent
    (server : string) (serverInfo : State.ServerInfo)
    (testResults : list (option Q)) (r : State.ComparisonResult) :
  NetworkAnalyzer.entry server serverInfo testResults = Some r ->
  exists lo hi a b,
    State.server r = server /\
    State.min r = Some lo /\ State.max r = Some hi /\
    State.p95 r = Some a /\ State.p99 r = Some b /\
    lo <= a /\ a <= b /\ b <= hi /\
    0 < State.successRate r <= 100.
Proof.
  unfold NetworkAnalyzer.entry. intros Hr.
  destruct (0 <? length (omap id testResults))%nat eqn:E; [|discriminate].
  apply Nat.ltb_lt in E. injection Hr as <-.
  set (valid := omap id testResults) in *.
  assert (Hne : valid <> []) by (intros E0; rewrite E0 in E; simpl in E; lia).
  destruct (percentile_bounds valid (95 # 100) Hne) as (lo & a & hi & Hlo & Hhi & Ha & Hab);
    [split; vm_compute; discriminate|].
  destruct (percentile_bounds valid (99 # 100) Hne) as (lo' & b & hi' & Hlo' & Hhi' & Hb & Hbb);
    [split; vm_compute; discriminate|].
  destruct (percentile_order valid (95 # 100) (99 # 100) Hne)
    as (a' & b' & Ha' & Hb' & Hord); [vm_compute; discriminate..|].
  assert (a' = a) by congruence. assert (b' = b) by congruence.
  assert (lo' = lo) by congruence. assert (hi' = hi) by congruence. subst.
  destruct (success_rate_bounds valid testResults Hne (omap_id_length testResults))
    as (Hs0 & Hs1 & _).
  exists lo, hi, a, b. cbn.
  split; [reflexivity|]. split; [exact Hlo|]. split; [exact Hhi|].
  split; [exact Ha|]. split; [exact Hb|].
  split; [apply Hab|]. split; [exact Hord|]. split; [apply Hbb|].
  split; assumption.
Qed.

Lemma basic_entry_is_coherent_witness :
  exists r lo hi a b,
    NetworkAnalyzer.entry "1.1.1.1"
      {| State.name := "Cloudflare Primary"; State.location := "Global" |}
      [Some 12; Some 40; None; Some 15] = Some r /\
    State.server r = "1.1.1.1" /\
    State.min r = Some lo /\ State.max r = Some hi /\
    State.p95 r = Some a /\ State.p99 r = Some b /\
    lo <= a /\ a <= b /\ b <= hi /\
    0 < State.successRate r <= 100.
Proof.
  eexists.
  destruct (basic_entry_is_coherent "1.1.1.1"
              {| State.name := "Cloudflare Primary"; State.location := "Global" |}
              [Some 12; Some 40; None; Some 15] _ eq_refl) as (lo & hi & a & b & H).
  exists lo, hi, a, b. split; [reflexivity|exact H].
Defined.

(** ** The comparison panel *)

Lemma render_rows_from (k : nat) (l : list State.ComparisonResult) :
  map fst (imap (fun index result => (S (k + index), result)) l) = seq (S k) (length l) /\
  map snd (imap (fun index result => (S (k + index), result)) l) = l.
Proof.
  revert k. induction l as [|x l IH]; intros k; [split; reflexivity|].
  rewrite imap_cons. cbn [map fst snd length seq].
  rewrite Nat.add_0_r.
  assert (E : imap ((fun index result => (S (k + index), result)) ∘ S) l
              = imap (fun index result => (S (S k + index), result)) l).
  { apply imap_ext. intros i y _. cbn. do 2 f_equal. lia. }
  rewrite E. destruct (IH (S k)) as [H1 H2]. rewrite H1, H2. split; reflexivity.
Qed.

(** When the panel is rendered, its rows are the stored ranking in
    order, numbered 1, 2, ..., its 'Best' line is the first row, and the
    ranking holds exactly the entries that were passed in. *)
Theorem panel_lists_the_ranking (shown : State.SortKey)
    (results : list State.ComparisonResult) (st : State.Analyzer) :
  results <> [] ->
  Forall (Spec.defines shown) results ->
  exists st' pnl ranked,
    State.displayComparisonResults shown results st = JS.Completed st' /\
    State.comparisonResults st' = Some ranked /\
    State.panel st' = Some pnl /\
    map snd (State.rows pnl) = ranked /\
    map fst (State.rows pnl) = seq 1 (length ranked) /\
    State.best pnl = head ranked /\
    Permutation results ranked.
Proof.
  intros Hne Hshown. destruct results as [|r0 rs]; [congruence|].
  unfold State.displayComparisonResults.
  set (sorted := JS.sort (State.compareBy (State.currentSort st)) (r0 :: rs)).
  assert (Hp : Permutation (r0 :: rs) sorted) by apply sort_perm.
  rewrite forallb_has_field
    by (eapply Permutation_Forall; [exact Hp|exact Hshown]).
  destruct (head sorted) as [b|] eqn:Hb.
  - eexists _, _, sorted. split; [reflexivity|]. cbn.
    destruct (render_rows_from 0 sorted) as [H1 H2]. cbn in H1, H2.
    repeat split; assumption.
  - destruct sorted; [|discriminate].
    apply Permutation_sym, Permutation_nil in Hp. discriminate.
Qed.

Lemma panel_lists_the_ranking_witness :
  exists st' pnl ranked,
    State.displayComparisonResults State.by_packetLoss
      [Scenario.google; Scenario.cloudflare] EnhancedNetworkAnalyzer.new
    = JS.Completed st' /\
    State.comparisonResults st' = Some ranked /\
    State.panel st' = Some pnl /\
    map snd (State.rows pnl) = ranked /\
    map fst (State.rows pnl) = seq 1 (length ranked) /\
    State.best pnl = head ranked /\
    Permutation [Scenario.google; Scenario.cloudflare] ranked.
Proof.
  apply (panel_lists_the_ranking State.by_packetLoss
           [Scenario.google; Scenario.cloudflare] EnhancedNetworkAnalyzer.new).
  - discriminate.
  - repeat constructor; eexists; reflexivity.
Defined.

(** ** The quality score of a run *)

Lemma score_is_percentage (testResults : list (option Q)) (failCount testCount : nat) s :
  Quality.calculateQualityScore testResults failCount testCount = Some s ->
  (0 <= s <= 100)%Z.
Proof.
  unfold Quality.calculateQualityScore.
  destruct (omap id testResults) as [|x tl]; [intros [= <-]; lia|].
  cbn [length Nat.eqb].
  destruct (JS.div_count failCount testCount); intros [= <-];
    apply score_of_range.
Qed.

Lemma score_is_nan_iff (testResults : list (option Q)) (failCount testCount : nat) :
  Quality.calculateQualityScore testResults failCount testCount = None <->
  omap id testResults <> [] /\ testCount = 0%nat /\ failCount = 0%nat.
Proof.
  unfold Quality.calculateQualityScore.
  destruct (omap id testResults) as [|x tl].
  - cbn. split; [discriminate|]. intros [H _]. congruence.
  - cbn [length Nat.eqb].
    destruct testCount as [|n], failCount as [|m]; cbn [JS.div_count];
      (split; [try discriminate; intros _; repeat split; discriminate
              |try reflexivity; intros (_ & H1 & H2); discriminate]).
Qed.

(** [calculateQualityScore] returns an integer between 0 and 100, or
    [NaN]; it returns [NaN] exactly when there are successful samples
    while neither a test nor a failure has been counted; after a run of
    [NetworkAnalyzer] it is always a number. *)
Theorem quality_score_is_a_percentage
    (attempts : list NetworkAnalyzer.Attempt) (st : State.Analyzer) :
  (forall testResults failCount testCount s,
     Quality.calculateQualityScore testResults failCount testCount = Some s ->
     (0 <= s <= 100)%Z) /\
  (forall testResults failCount testCount,
     Quality.calculateQualityScore testResults failCount testCount = None <->
     omap id testResults <> [] /\ testCount = 0%nat /\ failCount = 0%nat) /\
  (let st' := NetworkAnalyzer.runLimitedTest attempts (State.startTest_reset st) in
   exists s,
     Quality.calculateQualityScore
       (State.testResults st') (State.failCount st') (State.testCount st') = Some s /\
     (0 <= s <= 100)%Z).
Proof.
  split; [exact score_is_percentage|]. split; [exact score_is_nan_iff|]. cbv zeta.
  set (st' := NetworkAnalyzer.runLimitedTest attempts (State.startTest_reset st)).
  assert (Hw : Samples.basic_window st').
  { apply basic_run_window. split; [cbn; lia|reflexivity]. }
  destruct Hw as [Hc _].
  destruct (Quality.calculateQualityScore (State.testResults st') (State.failCount st')
              (State.testCount st')) as [s|] eqn:E.
  - exists s. split; [reflexivity|]. eapply score_is_percentage, E.
  - apply score_is_nan_iff in E as (Hne & Ht & _). exfalso. apply Hne.
    rewrite Ht in Hc. destruct (State.testResults st'); [reflexivity|].
    cbn in Hc. lia.
Qed.
